(** * The DMAP codec of pydarn ([pydarn/pydmap/io.py])

    A shallow embedding of [DmapRead] and [DmapWrite] and the properties
    of the codec that hold (or fail) on it.

    Conventions of the embedding.
    - A byte buffer ([bytearray], [bytes], [memoryview]) is a [list Z] of
      values in [0, 256).
    - Python integers are [Z]; the cursor is a [Z] because the source can
      move it backwards (see [read_numerical_array]).
    - Text is a [string]: the characters of a [str], taken below
      U+0100, each as the [ascii] of its code point. The writer encodes
      it with UTF-8 ([utf8_encode]). The reader's [decode('utf-8')] is
      the identity on ASCII bytes, which is what DMAP field names are;
      it is modelled by [bytes_to_string], which agrees with it there
      and keeps any other byte as one character, where Python decodes a
      sequence or raises [UnicodeDecodeError].
    - [struct] uses the native byte order; it is taken little-endian.
    - A floating point value is carried as the bit pattern of its wire
      width, so that no floating point arithmetic is involved.
    - A raised exception is an [Err] result carrying the exception kind. *)

From Stdlib Require Import ZArith Lia.
From stdpp Require Import base decidable option list strings pretty gmap sets.

Open Scope Z_scope.

#[local] Set Warnings "-clear-no-such-hyp".

(** ** Exceptions *)

Inductive error : Type :=
  (* pydmap_exceptions *)
  | EmptyFileError
  | CursorError
  | ZeroByteError
  | NegativeByteError
  | MismatchByteError
  | DmapDataTypeError
  | DmapDataError
  | DmapTypeError
  | DmapFileFormatType
  | FilenameRequiredError
  | SuperDARNFieldMissing (rec_num : nat) (fields : gset string)
  | SuperDARNFieldExtra (rec_num : nat) (fields : gset string)
  | SuperDARNDataFormatError (incorrect : gmap string string) (rec_num : nat)
  (* exceptions of the Python run time and of the libraries *)
  | PyIndexError
  | PyKeyError
  | PyAttributeError
  | PyTypeError
  | PyValueError
  | PyOverflowError
  | PyUnicodeError
  | StructError
  (* the loop of the model ran out of fuel: never the case, see
     [read_records_fuel] and [test_initial_data_integrity_fuel] *)
  | OutOfFuel.

Inductive result (A : Type) : Type :=
  | Ok (a : A)
  | Err (e : error).
Arguments Ok {A} a.
Arguments Err {A} e.

(** The exception monad, with stdpp's notations [x ← m; k] and [m ;; k]. *)
#[global] Instance result_ret : MRet result := fun A a => Ok a.
#[global] Instance result_bind : MBind result := fun A B k m =>
  match m with
  | Ok a => k a
  | Err e => Err e
  end.

Definition is_ok {A} (r : result A) : bool :=
  match r with Ok _ => true | Err _ => false end.

(** The error kinds of the specification, as sets of exceptions.
    [ZeroByteError] and [NegativeByteError] are both raised by
    [zero_negative_check]. *)
Definition ZeroOrNegativeLength (e : error) : Prop :=
  e = ZeroByteError ∨ e = NegativeByteError.
Definition SizeMismatch (e : error) : Prop := e = MismatchByteError.
Definition CursorMismatch (e : error) : Prop := e = CursorError.

(** ** Bytes, [struct] and text *)

Definition bytes := list Z.

Definition blen (b : bytes) : Z := Z.of_nat (length b).

(** Little-endian bytes of the [n]-byte two's complement (or unsigned)
    representation of [v]. *)
Fixpoint le_bytes (n : nat) (v : Z) : bytes :=
  match n with
  | O => []
  | S n' => (v mod 256) :: le_bytes n' (v / 256)
  end.

Fixpoint le_unsigned (b : bytes) : Z :=
  match b with
  | [] => 0
  | x :: b' => x + 256 * le_unsigned b'
  end.

Definition le_signed (b : bytes) : Z :=
  let u := le_unsigned b in
  let m := 2 ^ (8 * blen b) in
  if u <? m / 2 then u else u - m.

Definition string_to_bytes (s : string) : bytes :=
  (fun a => Z.of_nat (Ascii.nat_of_ascii a)) <$> String.list_ascii_of_string s.

Definition bytes_to_string (b : bytes) : string :=
  String.string_of_list_ascii ((fun z => Ascii.ascii_of_nat (Z.to_nat z)) <$> b).

(** Python values that a scalar holds. *)
Inductive pyval : Type :=
  | VInt (z : Z)
  | VFloat (bits : Z)
  | VStr (s : string).

(** [struct.calcsize] of the formats of [DMAP_DATA_TYPES] that reach
    [struct]; any other format is taken as a bad format. *)
Definition calcsize (fmt : string) : option Z :=
  if decide (fmt = "") then Some 0
  else if decide (fmt = "h") then Some 2
  else if decide (fmt = "i") then Some 4
  else if decide (fmt = "f") then Some 4
  else if decide (fmt = "d") then Some 8
  else if decide (fmt = "q") then Some 8
  else if decide (fmt = "B") then Some 1
  else if decide (fmt = "H") then Some 2
  else if decide (fmt = "I") then Some 4
  else if decide (fmt = "Q") then Some 8
  else if decide (fmt = "c") then Some 1
  else None.

Definition fmt_signed (fmt : string) : bool :=
  bool_decide (fmt = "h") || bool_decide (fmt = "i") || bool_decide (fmt = "q").
Definition fmt_unsigned (fmt : string) : bool :=
  bool_decide (fmt = "B") || bool_decide (fmt = "H") ||
  bool_decide (fmt = "I") || bool_decide (fmt = "Q").
Definition fmt_float (fmt : string) : bool :=
  bool_decide (fmt = "f") || bool_decide (fmt = "d").

(** An int that is packed under 'f' or 'd' is converted to a double,
    and for 'f' from there to a float of 32 bits, to the nearest with
    ties to even. [float_round p a] is the integer of [p] significant
    bits nearest to [a]; [float_bits width p negative v] is the bit
    pattern of the integer [v], which [p] bits hold exactly, in the
    format of [width] bits, and that of infinity where [v] is beyond the
    format. An int beyond the doubles is a [struct.error]. *)
Definition float_round (p a : Z) : Z :=
  if a =? 0 then 0
  else
    let e := Z.log2 a in
    if e <? p then a
    else
      let shift := e - (p - 1) in
      let q := a / 2 ^ shift in
      let r := a mod 2 ^ shift in
      let half := 2 ^ (shift - 1) in
      (if (half <? r) || ((r =? half) && Z.odd q) then q + 1 else q)
      * 2 ^ shift.

Definition float_bits (width p : Z) (negative : bool) (v : Z) : Z :=
  let bias := 2 ^ (width - p - 1) - 1 in
  let magnitude :=
    if v =? 0 then 0
    else
      let e := Z.log2 v in
      if bias <? e then (2 * bias + 1) * 2 ^ (p - 1)
      else
        let m :=
          if e <? p then v * 2 ^ (p - 1 - e) else v / 2 ^ (e - p + 1) in
        (e + bias) * 2 ^ (p - 1) + (m - 2 ^ (p - 1)) in
  (if negative then 2 ^ (width - 1) else 0) + magnitude.

Definition int_to_float_bits (n z : Z) : result Z :=
  let v := float_round 53 (Z.abs z) in
  if 1023 <? Z.log2 v then Err StructError
  else if n =? 4 then Ok (float_bits 32 24 (z <? 0) (float_round 24 v))
  else Ok (float_bits 64 53 (z <? 0) v).

(** [struct.pack(fmt, v)] for one value, in native mode: the range of
    an integer format is checked, an int under a float format is
    converted, a value of another kind is a [struct.error]. *)
Definition struct_pack (fmt : string) (v : pyval) : result bytes :=
  match calcsize fmt, v with
  | Some n, VInt z =>
      if fmt_signed fmt then
        if (- 2 ^ (8 * n - 1) <=? z) && (z <? 2 ^ (8 * n - 1))
        then Ok (le_bytes (Z.to_nat n) z) else Err StructError
      else if fmt_unsigned fmt then
        if (0 <=? z) && (z <? 2 ^ (8 * n))
        then Ok (le_bytes (Z.to_nat n) z) else Err StructError
      else if fmt_float fmt then
        bits ← int_to_float_bits n z;
        Ok (le_bytes (Z.to_nat n) bits)
      else Err StructError
  | Some n, VFloat bits =>
      if fmt_float fmt then Ok (le_bytes (Z.to_nat n) bits) else Err StructError
  | _, _ => Err StructError
  end.

(** The bytes [struct.unpack_from] looks at: [size] bytes at [offset],
    where a negative offset counts from the end of the buffer. *)
Definition unpack_slice (size : Z) (buf : bytes) (offset : Z) : result bytes :=
  if offset <? 0 then
    if 0 <? offset + size then Err StructError
    else if offset + blen buf <? 0 then Err StructError
    else Ok (take (Z.to_nat size) (drop (Z.to_nat (offset + blen buf)) buf))
  else if blen buf - offset <? size then Err StructError
  else Ok (take (Z.to_nat size) (drop (Z.to_nat offset) buf)).

(** [struct.unpack_from(fmt, buf, offset)]: the tuple of unpacked values,
    empty for the empty format. *)
Definition struct_unpack_from (fmt : string) (buf : bytes) (offset : Z)
  : result (list pyval) :=
  match calcsize fmt with
  | None => Err StructError
  | Some n =>
      raw ← unpack_slice n buf offset;
      if decide (fmt = "") then Ok []
      else if decide (fmt = "c") then Ok [VStr (bytes_to_string raw)]
      else if fmt_signed fmt then Ok [VInt (le_signed raw)]
      else if fmt_unsigned fmt then Ok [VInt (le_unsigned raw)]
      else Ok [VFloat (le_unsigned raw)]
  end.

(** [seq[i]] of Python: a negative index counts from the end. *)
Definition py_getitem {A} (l : list A) (i : Z) : result A :=
  let j := if i <? 0 then i + Z.of_nat (length l) else i in
  if j <? 0 then Err PyIndexError
  else match l !! Z.to_nat j with
       | Some x => Ok x
       | None => Err PyIndexError
       end.

(** ** The data types of DMAP *)

Definition DMAP : Z := 0.
Definition CHAR : Z := 1.
Definition SHORT : Z := 2.
Definition INT : Z := 3.
Definition FLOAT : Z := 4.
Definition DOUBLE : Z := 8.
Definition STRING : Z := 9.
Definition LONG : Z := 10.
Definition UCHAR : Z := 16.
Definition USHORT : Z := 17.
Definition UINT : Z := 18.
Definition ULONG : Z := 19.

(** The dictionary from a DMAP type to its format and byte size. *)
Definition DMAP_DATA_TYPES (data_type : Z) : option (string * Z) :=
  if decide (data_type = DMAP) then Some ("", 0)
  else if decide (data_type = CHAR) then Some ("c", 1)
  else if decide (data_type = SHORT) then Some ("h", 2)
  else if decide (data_type = INT) then Some ("i", 4)
  else if decide (data_type = FLOAT) then Some ("f", 4)
  else if decide (data_type = DOUBLE) then Some ("d", 8)
  else if decide (data_type = STRING) then Some ("s", 1)
  else if decide (data_type = LONG) then Some ("q", 8)
  else if decide (data_type = UCHAR) then Some ("B", 1)
  else if decide (data_type = USHORT) then Some ("H", 2)
  else if decide (data_type = UINT) then Some ("I", 4)
  else if decide (data_type = ULONG) then Some ("Q", 8)
  else None.

(** [s != n] for a [str] and an [int] of Python: objects of these two
    types are never equal. *)
Definition str_ne_int (s : string) (n : Z) : bool := true.

(** ** numpy arrays

    The decoder only ever builds one-dimensional arrays; an array is its
    element type and the bytes of its memory, which is what
    [ndarray.tostring()] returns. *)

Inductive dtype : Type :=
  | DtFmt (fmt : string)   (* the dtype of a struct format character *)
  | DtInt64                (* [np.array] of a list of ints *)
  | DtUnicode (k : nat)    (* [np.array] of a list of strs: '<Uk' *)
  | DtFloat64.             (* [np.array] of the empty list *)

Record ndarray : Type := NdArray { nd_dtype : dtype; nd_raw : bytes }.

Definition tostring (a : ndarray) : bytes := nd_raw a.

Definition is_VInt (v : pyval) : bool :=
  match v with VInt _ => true | _ => false end.
Definition is_VStr (v : pyval) : bool :=
  match v with VStr _ => true | _ => false end.

Definition str_len (v : pyval) : nat :=
  match v with VStr s => String.length s | _ => O end.

(** The memory of one element of a '<Uk' array: [k] UTF-32 code units. *)
Definition unicode_cell (k : nat) (v : pyval) : bytes :=
  match v with
  | VStr s =>
      let b := string_to_bytes s in
      mjoin ((fun x => [x; 0; 0; 0]) <$> (b ++ replicate (k - length b) 0))
  | _ => []
  end.

(** [np.array(data)] for the lists [read_string_array] builds: all ints
    (read with format 'c') or all strs (read with format 's'). *)
Definition np_array (data : list pyval) : result ndarray :=
  match data with
  | [] => Ok (NdArray DtFloat64 [])
  | _ =>
      if forallb is_VInt data then
        Ok (NdArray DtInt64
              (mjoin ((fun v => match v with
                                | VInt z => le_bytes 8 z
                                | _ => []
                                end) <$> data)))
      else if forallb is_VStr data then
        let k := Nat.max 1 (foldr Nat.max O (str_len <$> data)) in
        Ok (NdArray (DtUnicode k) (mjoin (unicode_cell k <$> data)))
      else Err PyTypeError
  end.

(** [np.frombuffer(buf, fmt, count, offset)]: a negative count takes all
    that is left of the buffer, which must then be a whole number of
    items. *)
Definition np_frombuffer (buf : bytes) (fmt : string) (itemsize : Z)
    (count offset : Z) : result ndarray :=
  if (offset <? 0) || (blen buf <? offset) then Err PyValueError
  else
    let s := blen buf - offset in
    if count <? 0 then
      if negb (s mod itemsize =? 0) then Err PyValueError
      else Ok (NdArray (DtFmt fmt) (drop (Z.to_nat offset) buf))
    else if s <? count * itemsize then Err PyValueError
    else Ok (NdArray (DtFmt fmt)
               (take (Z.to_nat (count * itemsize)) (drop (Z.to_nat offset) buf))).

(** ** Records *)

Module DmapScalar.
Record t : Type := Build
  { name : string; value : pyval; data_type : Z; data_type_fmt : string }.
End DmapScalar.

Module DmapArray.
Record t : Type := Build
  { name : string; value : ndarray; data_type : Z; data_type_fmt : string;
    dimension : Z; shape : list Z }.
End DmapArray.

Inductive field : Type :=
  | Scalar (s : DmapScalar.t)
  | Array (a : DmapArray.t).

Definition field_name (f : field) : string :=
  match f with
  | Scalar s => DmapScalar.name s
  | Array a => DmapArray.name a
  end.

Definition field_fmt (f : field) : string :=
  match f with
  | Scalar s => DmapScalar.data_type_fmt s
  | Array a => DmapArray.data_type_fmt a
  end.

(** A record is an [OrderedDict]: the fields in insertion order. *)
Definition DmapRecord : Type := list (string * field).

(** [record[k] = v]: a key that is present keeps its place and gets the
    new value, a new key goes to the end. *)
Fixpoint od_set (record : DmapRecord) (k : string) (v : field) : DmapRecord :=
  match record with
  | [] => [(k, v)]
  | (k', v') :: rest =>
      if decide (k' = k) then (k, v) :: rest else (k', v') :: od_set rest k v
  end.

Definition od_keys (record : DmapRecord) : list string := fst <$> record.

(** ** [DmapRead]

    The instance is the byte array [dmap_bytearr] (the parameter [buf];
    [dmap_end_bytes] is its length) and the cursor, which every method
    takes and returns. *)

Module DmapRead.

Definition dmap_end_bytes (buf : bytes) : Z := blen buf.

(** [__init__] on a data stream: an empty stream is refused; the
    cursor starts at 0. *)
Definition init (dmap_file : bytes) : result (bytes * Z) :=
  if blen dmap_file =? 0 then Err EmptyFileError
  else Ok (dmap_file, 0).

Definition zero_negative_check (element : Z) : result unit :=
  if element =? 0 then Err ZeroByteError
  else if element <? 0 then Err NegativeByteError
  else Ok ().

Definition bytes_check (element byte_check : Z) : result unit :=
  if byte_check <? element then Err MismatchByteError else Ok ().

Definition check_data_type (data_type : Z) : result unit :=
  match DMAP_DATA_TYPES data_type with
  | None => Err DmapDataTypeError
  | Some _ => Ok ()
  end.

(** [DMAP_DATA_TYPES[t][0]] and [DMAP_DATA_TYPES[t][1]]. *)
Definition type_entry (data_type : Z) : result (string * Z) :=
  match DMAP_DATA_TYPES data_type with
  | None => Err PyKeyError
  | Some e => Ok e
  end.

Definition INT_bytes : Z :=
  match DMAP_DATA_TYPES INT with Some (_, n) => n | None => 0 end.

(** The bytes that the loop
    [while bytearr[cursor + k] != 0 or cursor + k >= end: k += 1]
    of [read_data] visits, in order, up to the end of the buffer: a
    negative index counts from the end of the byte array and the walk
    goes on through index 0. The second disjunct never holds where the
    index is in range, so the loop stops at the first NUL byte and
    raises [IndexError] where there is none. *)
Definition scanned (buf : bytes) (cursor : Z) : result bytes :=
  if cursor <? 0 then
    if cursor + blen buf <? 0 then Err PyIndexError
    else Ok (drop (Z.to_nat (cursor + blen buf)) buf ++ buf)
  else Ok (drop (Z.to_nat cursor) buf).

Definition scan_nul (buf : bytes) (cursor : Z) : result Z :=
  s ← scanned buf cursor;
  match list_find (fun b => b = 0) s with
  | Some (k, _) => Ok (Z.of_nat k)
  | None => Err PyIndexError
  end.

Definition read_data (buf : bytes) (data_type_fmt : string)
    (data_fmt_bytes : Z) (cursor : Z) : result (pyval * Z) :=
  if dmap_end_bytes buf <=? cursor then Err CursorError
  else
    let cursor_offset := dmap_end_bytes buf - cursor in
    if cursor_offset <? data_fmt_bytes then Err CursorError
    else if decide (data_type_fmt = "c") then
      data ← py_getitem buf cursor;
      Ok (VInt data, cursor + data_fmt_bytes)
    else if decide (data_type_fmt = "s") then
      byte_counter ← scan_nul buf cursor;
      bytes_check (cursor + byte_counter) (dmap_end_bytes buf);;
      data ← unpack_slice byte_counter buf cursor;
      Ok (VStr (bytes_to_string data), cursor + byte_counter + 1)
    else
      data ← struct_unpack_from data_type_fmt buf cursor;
      d0 ← py_getitem data 0;
      Ok (d0, cursor + data_fmt_bytes).

(** The value read is used as an int, or as a str. *)
Definition expect_int (v : pyval) : result Z :=
  match v with VInt z => Ok z | _ => Err PyTypeError end.
Definition expect_str (v : pyval) : result string :=
  match v with VStr s => Ok s | _ => Err PyTypeError end.

Definition read_int (buf : bytes) (cursor : Z) : result (Z * Z) :=
  '(v, cursor) ← read_data buf "i" 4 cursor;
  z ← expect_int v;
  Ok (z, cursor).

Definition read_name (buf : bytes) (cursor : Z) : result (string * Z) :=
  '(v, cursor) ← read_data buf "s" 1 cursor;
  s ← expect_str v;
  Ok (s, cursor).

Definition read_type (buf : bytes) (cursor : Z) : result (Z * Z) :=
  '(v, cursor) ← read_data buf "c" 1 cursor;
  z ← expect_int v;
  Ok (z, cursor).

(** The body of the [while] loop of [test_initial_data_integrity],
    iterated; every turn moves the cursor forward, so as many turns as
    the buffer has bytes left are enough (see
    [test_initial_data_integrity_fuel]). *)
Fixpoint integrity_loop (fuel : nat) (buf : bytes)
    (cursor total_block_size : Z) : result (Z * Z) :=
  if cursor <? dmap_end_bytes buf then
    match fuel with
    | O => Err OutOfFuel
    | S fuel' =>
        let cursor := cursor + 4 in
        '(block_size, cursor) ← read_int buf cursor;
        zero_negative_check block_size;;
        let total_block_size := total_block_size + block_size in
        bytes_check total_block_size (dmap_end_bytes buf);;
        let cursor := cursor + block_size - 2 * INT_bytes in
        integrity_loop fuel' buf cursor total_block_size
    end
  else Ok (cursor, total_block_size).

(** Returns the cursor it leaves. The last [raise] of the source
    reads [self.data_file], an attribute that [DmapRead] does not
    have. *)
Definition test_initial_data_integrity (buf : bytes) (cursor : Z)
  : result Z :=
  let total_block_size := 0 in
  if negb (cursor =? 0) then Err CursorError
  else
    '(cursor, total_block_size) ←
      integrity_loop (Z.to_nat (dmap_end_bytes buf - cursor)) buf cursor
        total_block_size;
    if negb (total_block_size =? dmap_end_bytes buf) then Err PyAttributeError
    else Ok 0.

Definition read_scalar (buf : bytes) (cursor : Z)
  : result (DmapScalar.t * Z) :=
  '(scalar_name, cursor) ← read_name buf cursor;
  '(scalar_type, cursor) ← read_type buf cursor;
  check_data_type scalar_type;;
  '(scalar_type_fmt, scalar_fmt_byte) ← type_entry scalar_type;
  if str_ne_int scalar_type_fmt DMAP then
    '(scalar_value, cursor) ← read_data buf scalar_type_fmt scalar_fmt_byte cursor;
    Ok (DmapScalar.Build scalar_name scalar_value scalar_type scalar_type_fmt,
        cursor)
  else Err DmapDataError.

(** [[self.read_data('i', 4) for i in range(0, n)]] *)
Fixpoint read_ints (n : nat) (buf : bytes) (cursor : Z)
  : result (list Z * Z) :=
  match n with
  | O => Ok ([], cursor)
  | S n' =>
      '(x, cursor) ← read_int buf cursor;
      '(xs, cursor) ← read_ints n' buf cursor;
      Ok (x :: xs, cursor)
  end.

(** [for i in range(n): data.append(self.read_data(fmt, bytes))] *)
Fixpoint read_items (n : nat) (buf : bytes) (fmt : string) (size : Z)
    (data : list pyval) (cursor : Z) : result (list pyval * Z) :=
  match n with
  | O => Ok (data, cursor)
  | S n' =>
      '(v, cursor) ← read_data buf fmt size cursor;
      read_items n' buf fmt size (data ++ [v]) cursor
  end.

(** The outer loop [for dim_size in shape]. *)
Fixpoint read_string_items (shape : list Z) (buf : bytes) (fmt : string)
    (size : Z) (data : list pyval) (cursor : Z) : result (list pyval * Z) :=
  match shape with
  | [] => Ok (data, cursor)
  | dim_size :: shape' =>
      '(data, cursor) ← read_items (Z.to_nat dim_size) buf fmt size data cursor;
      read_string_items shape' buf fmt size data cursor
  end.

Definition read_string_array (buf : bytes) (shape : list Z)
    (array_type_fmt : string) (array_fmt_bytes : Z) (cursor : Z)
  : result (ndarray * Z) :=
  '(data, cursor) ←
    read_string_items shape buf array_type_fmt array_fmt_bytes [] cursor;
  a ← np_array data;
  Ok (a, cursor).

Definition read_numerical_array (buf : bytes) (data_type_fmt : string)
    (total_number_cells data_fmt_bytes : Z) (cursor : Z)
  : result (ndarray * Z) :=
  array ← np_frombuffer buf data_type_fmt data_fmt_bytes
            total_number_cells cursor;
  Ok (array, cursor + total_number_cells * data_fmt_bytes).

(** [for i in range(array_dimension): if array_shape[i] >= record_size] *)
Definition shape_exceeds (array_shape : list Z) (record_size : Z) : bool :=
  existsb (fun x => record_size <=? x) array_shape.

(** [total_num_cells = 1; for i in array_shape: total_num_cells *= i] *)
Definition total_cells (array_shape : list Z) : Z :=
  foldl Z.mul 1 array_shape.

(** The message of the second branch of the shape test is built with
    [.format(dim=..., cursor=...)] from a template that asks for
    [{shape}]: building it raises [KeyError]. *)
Definition read_array (buf : bytes) (record_size : Z) (cursor : Z)
  : result (DmapArray.t * Z) :=
  '(array_name, cursor) ← read_name buf cursor;
  '(array_type, cursor) ← read_type buf cursor;
  check_data_type array_type;;
  '(array_type_fmt, array_fmt_bytes) ← type_entry array_type;
  '(array_dimension, cursor) ← read_int buf cursor;
  bytes_check array_dimension record_size;;
  zero_negative_check array_dimension;;
  '(array_shape, cursor) ← read_ints (Z.to_nat array_dimension) buf cursor;
  let array_shape := reverse array_shape in
  (if negb (blen array_shape =? array_dimension) then Err DmapDataError
   else if existsb (fun x => x <=? 0) array_shape
           && negb (bool_decide (array_name = "slist"))
   then Err PyKeyError
   else Ok ());;
  (if shape_exceeds array_shape record_size then Err DmapDataError
   else Ok ());;
  let total_num_cells := total_cells array_shape in
  bytes_check total_num_cells record_size;;
  let total_num_cells_bytes := total_num_cells * array_fmt_bytes in
  bytes_check total_num_cells_bytes record_size;;
  '(array_value, cursor) ←
    (if bool_decide (array_type_fmt = "s") || bool_decide (array_type_fmt = "c")
     then read_string_array buf array_shape array_type_fmt array_fmt_bytes cursor
     else if array_type =? DMAP then Err DmapDataError
     else read_numerical_array buf array_type_fmt total_num_cells
            array_fmt_bytes cursor);
  Ok (DmapArray.Build array_name array_value array_type array_type_fmt
        array_dimension array_shape, cursor).

(** [for i in range(num_scalars): ...; record[scalar.name] = scalar] *)
Fixpoint read_scalars (n : nat) (buf : bytes) (record : DmapRecord)
    (cursor : Z) : result (DmapRecord * Z) :=
  match n with
  | O => Ok (record, cursor)
  | S n' =>
      '(scalar, cursor) ← read_scalar buf cursor;
      read_scalars n' buf (od_set record (DmapScalar.name scalar) (Scalar scalar))
        cursor
  end.

(** [for i in range(num_arrays): ...; record[array.name] = array] *)
Fixpoint read_arrays (n : nat) (buf : bytes) (block_size : Z)
    (record : DmapRecord) (cursor : Z) : result (DmapRecord * Z) :=
  match n with
  | O => Ok (record, cursor)
  | S n' =>
      '(array, cursor) ← read_array buf block_size cursor;
      read_arrays n' buf block_size
        (od_set record (DmapArray.name array) (Array array)) cursor
  end.

Definition read_record (buf : bytes) (cursor : Z)
  : result (DmapRecord * Z) :=
  let start_cursor_value := cursor in
  let cursor := cursor + 4 in
  '(block_size, cursor) ← read_int buf cursor;
  let remaining_bytes := dmap_end_bytes buf - cursor + 2 * INT_bytes in
  bytes_check block_size remaining_bytes;;
  zero_negative_check block_size;;
  '(num_scalars, cursor) ← read_int buf cursor;
  '(num_arrays, cursor) ← read_int buf cursor;
  zero_negative_check num_scalars;;
  zero_negative_check num_arrays;;
  bytes_check (num_scalars + num_arrays) block_size;;
  '(record, cursor) ← read_scalars (Z.to_nat num_scalars) buf [] cursor;
  '(record, cursor) ← read_arrays (Z.to_nat num_arrays) buf block_size record cursor;
  if negb (cursor - start_cursor_value =? block_size) then Err CursorError
  else Ok (record, cursor).

(** The [while] loop of [read_records]; a record that is read moves
    the cursor forward, so as many turns as the buffer has bytes left
    are enough (see [read_records_fuel]). *)
Fixpoint read_records_loop (fuel : nat) (buf : bytes)
    (dmap_records : list DmapRecord) (cursor : Z)
  : result (list DmapRecord * Z) :=
  if cursor <? dmap_end_bytes buf then
    match fuel with
    | O => Err OutOfFuel
    | S fuel' =>
        '(new_record, cursor) ← read_record buf cursor;
        read_records_loop fuel' buf (dmap_records ++ [new_record]) cursor
    end
  else Ok (dmap_records, cursor).

Definition read_records (buf : bytes) (dmap_records : list DmapRecord)
    (cursor : Z) : result (list DmapRecord * Z) :=
  '(dmap_records, cursor) ←
    read_records_loop (Z.to_nat (dmap_end_bytes buf - cursor)) buf
      dmap_records cursor;
  bytes_check cursor (dmap_end_bytes buf);;
  Ok (dmap_records, cursor).

(** [DmapRead(stream, True).read_records()] *)
Definition decode (stream : bytes) : result (list DmapRecord) :=
  '(buf, cursor) ← init stream;
  '(dmap_records, _) ← read_records buf [] cursor;
  Ok dmap_records.

End DmapRead.

(** ** [DmapWrite] *)

(** [chr(cp).encode('utf-8')]: [chr] takes a C int (of 32 bits) and
    raises [OverflowError] outside its range, [ValueError] outside the
    code points. *)
Definition chr_encode_utf8 (cp : Z) : result bytes :=
  if (cp <? - 2 ^ 31) || (2 ^ 31 - 1 <? cp) then Err PyOverflowError
  else if (cp <? 0) || (1114111 <? cp) then Err PyValueError
  else if cp <? 128 then Ok [cp]
  else if cp <? 2048 then Ok [192 + cp / 64; 128 + cp mod 64]
  else if cp <? 65536 then
    if (55296 <=? cp) && (cp <=? 57343) then Err PyUnicodeError
    else Ok [224 + cp / 4096; 128 + (cp / 64) mod 64; 128 + cp mod 64]
  else Ok [240 + cp / 262144; 128 + (cp / 4096) mod 64;
           128 + (cp / 64) mod 64; 128 + cp mod 64].

(** [s.encode('utf-8')] for the characters of the model, which are
    below U+0100: one byte below U+0080, two bytes from there. *)
Definition utf8_encode (s : string) : bytes :=
  mjoin ((fun c => if c <? 128 then [c] else [192 + c / 64; 128 + c mod 64])
           <$> string_to_bytes s).

(** [struct.pack('<n>s', b)]: the first [n] bytes of [b], padded with
    NUL bytes when [b] is shorter. *)
Definition struct_pack_s (n : nat) (b : bytes) : bytes :=
  take n (b ++ replicate n 0).

(** [struct.pack('c', b)]: [b] must be one byte. *)
Definition struct_pack_char (b : bytes) : result bytes :=
  match b with
  | [_] => Ok b
  | _ => Err StructError
  end.

(** The schema tables of [superdarn_formats], which the writer takes as
    static configuration: a field group maps a field name to the format
    character of its type. *)
Record Formats : Type := {
  Iqdat_types : gmap string string;
  Rawacf_types : gmap string string;
  Fitacf_types : gmap string string;
  Grid_types : gmap string string;
  Grid_extra_fields : gmap string string;
  Map_types : gmap string string;
  Map_extra_fields : gmap string string;
  Map_fit_fields : gmap string string;
  Map_model_fields : gmap string string;
  Map_hmb_fields : gmap string string
}.

Module DmapWrite.

(** The instance. *)
Record t : Type := Build
  { dmap_records : list DmapRecord; dmap_bytearr : bytes; filename : string }.

Definition set_records (self : t) (records : list DmapRecord) : t :=
  Build records (dmap_bytearr self) (filename self).

Definition extend (self : t) (b : bytes) : t :=
  Build (dmap_records self) (dmap_bytearr self ++ b) (filename self).

(** [l == []] and [l != []] on lists. *)
Definition is_empty_list {A} (l : list A) : bool :=
  match l with [] => true | _ => false end.

Definition empty_record_check (self : t) : result unit :=
  if is_empty_list (dmap_records self) then Err DmapDataError else Ok ().

Definition record_keys (record : DmapRecord) : gset string :=
  list_to_set (od_keys record).

(** [set(dict1) - set(dict2)] *)
Definition dict_key_diff (dict1 dict2 : gset string) : gset string :=
  dict1 ∖ dict2.

(** [set.union( *sets)] needs one set at least. *)
Definition dict_list2set (dict_list : list (gmap string string))
  : result (gset string) :=
  let sets := dom <$> dict_list in
  match sets with
  | [] => Err PyTypeError
  | s :: sets' => Ok (foldl (∪) s sets')
  end.

(** The loop of [missing_field_check] over the field groups. *)
Fixpoint missing_fields_loop (file_struct_list : list (gmap string string))
    (record : DmapRecord) (complete_set missing_fields : gset string)
  : gset string :=
  match file_struct_list with
  | [] => missing_fields
  | file_struct :: rest =>
      let diff_fields :=
        dict_key_diff (dom file_struct) (record_keys record ∩ complete_set) in
      let missing_fields :=
        if negb ((size diff_fields =? 0)%nat
                 || (size diff_fields =? size file_struct)%nat)
        then missing_fields ∪ diff_fields
        else missing_fields in
      missing_fields_loop rest record complete_set missing_fields
  end.

Definition missing_field_check (file_struct_list : list (gmap string string))
    (record : DmapRecord) (rec_num : nat) : result unit :=
  complete_set ← dict_list2set file_struct_list;
  let missing_fields :=
    missing_fields_loop file_struct_list record complete_set ∅ in
  if (0 <? size missing_fields)%nat
  then Err (SuperDARNFieldMissing rec_num missing_fields)
  else Ok ().

Definition extra_field_check (file_struct_list : list (gmap string string))
    (record : DmapRecord) (rec_num : nat) : result unit :=
  file_struct ← dict_list2set file_struct_list;
  let extra_fields := dict_key_diff (record_keys record) file_struct in
  if (0 <? size extra_fields)%nat
  then Err (SuperDARNFieldExtra rec_num extra_fields)
  else Ok ().

(** [complete_dict.update(file_struct)] for every group: a later group
    wins. *)
Definition complete_dict (file_struct_list : list (gmap string string))
  : gmap string string :=
  foldl (fun acc file_struct => file_struct ∪ acc) ∅ file_struct_list.

(** The dict comprehension of [incorrect_types_check]; a field that the
    schema does not have is a [KeyError]. *)
Fixpoint incorrect_types (complete : gmap string string)
    (record : DmapRecord) (acc : gmap string string)
  : result (gmap string string) :=
  match record with
  | [] => Ok acc
  | (param, data_info) :: rest =>
      match complete !! param with
      | None => Err PyKeyError
      | Some fmt =>
          if bool_decide (field_fmt data_info = fmt)
          then incorrect_types complete rest acc
          else incorrect_types complete rest (<[param := fmt]> acc)
      end
  end.

Definition incorrect_types_check (file_struct_list : list (gmap string string))
    (record : DmapRecord) (rec_num : nat) : result unit :=
  incorrect ← incorrect_types (complete_dict file_struct_list) record ∅;
  if (0 <? size incorrect)%nat
  then Err (SuperDARNDataFormatError incorrect rec_num)
  else Ok ().

(** [struct.pack('{0}s'.format(len(text)), text.encode('utf-8'))] for
    [text = "{0}\0".format(name)]: the count is the number of CHARACTERS
    of the name and of the NUL, so the encoded name followed by NUL is
    cut to that many bytes. For an ASCII name this is the name followed
    by NUL; a name with a character from U+0080, which takes two bytes,
    loses its last bytes and the NUL. *)
Definition name_bytes (name : string) : bytes :=
  struct_pack_s (String.length name + 1) (utf8_encode name ++ [0]).

Definition type_bytes (data_type : Z) : result bytes :=
  b ← chr_encode_utf8 data_type;
  struct_pack_char b.

(** Under the format 's' the value goes through ["{0}\0".format]: a
    str is written as it is and an int in decimal. The text of a float
    is outside the model (floating point), which reports [PyTypeError]
    for it; no property below depends on that case. *)
Definition dmap_scalar_to_bytes (scalar : DmapScalar.t) : result bytes :=
  let scalar_name_bytes := name_bytes (DmapScalar.name scalar) in
  scalar_type_bytes ← type_bytes (DmapScalar.data_type scalar);
  let scalar_type_fmt := DmapScalar.data_type_fmt scalar in
  scalar_data_bytes ←
    (if decide (scalar_type_fmt = "s") then
       match DmapScalar.value scalar with
       | VStr s => Ok (name_bytes s)
       | VInt z => Ok (name_bytes (pretty z))
       | VFloat _ => Err PyTypeError
       end
     else if decide (scalar_type_fmt = "c") then
       match DmapScalar.value scalar with
       | VInt z => chr_encode_utf8 z
       | _ => Err PyTypeError
       end
     else struct_pack scalar_type_fmt (DmapScalar.value scalar));
  Ok (scalar_name_bytes ++ scalar_type_bytes ++ scalar_data_bytes).

(** [for size in array.shape: array_shape_bytes += struct.pack('i', size)] *)
Fixpoint shape_bytes (shape : list Z) : result bytes :=
  match shape with
  | [] => Ok []
  | size :: shape' =>
      b ← struct_pack "i" (VInt size);
      bs ← shape_bytes shape';
      Ok (b ++ bs)
  end.

Definition dmap_array_to_bytes (array : DmapArray.t) : result bytes :=
  let array_name_bytes := name_bytes (DmapArray.name array) in
  array_type_bytes ← type_bytes (DmapArray.data_type array);
  array_dim_bytes ← struct_pack "i" (VInt (DmapArray.dimension array));
  array_shape_bytes ← shape_bytes (DmapArray.shape array);
  let array_data_bytes := tostring (DmapArray.value array) in
  Ok (array_name_bytes ++ array_type_bytes ++ array_dim_bytes
      ++ array_shape_bytes ++ array_data_bytes).

(** The loop of [__dmap_record_to_bytes] over [record.items()]. *)
Fixpoint record_items_to_bytes (items : DmapRecord)
    (num_scalars num_arrays : Z) (data_bytearray : bytes)
  : result (Z * Z * bytes) :=
  match items with
  | [] => Ok (num_scalars, num_arrays, data_bytearray)
  | (_, Scalar data_info) :: rest =>
      b ← dmap_scalar_to_bytes data_info;
      record_items_to_bytes rest (num_scalars + 1) num_arrays
        (data_bytearray ++ b)
  | (_, Array data_info) :: rest =>
      b ← dmap_array_to_bytes data_info;
      record_items_to_bytes rest num_scalars (num_arrays + 1)
        (data_bytearray ++ b)
  end.

Definition dmap_record_to_bytes (self : t) (record : DmapRecord) : result t :=
  let encoding_identifier := 65537 in
  '(num_scalars, num_arrays, data_bytearray) ←
    record_items_to_bytes record 0 0 [];
  let block_size := blen data_bytearray + 16 in
  b1 ← struct_pack "i" (VInt encoding_identifier);
  b2 ← struct_pack "i" (VInt block_size);
  b3 ← struct_pack "i" (VInt num_scalars);
  b4 ← struct_pack "i" (VInt num_arrays);
  Ok (extend self (b1 ++ b2 ++ b3 ++ b4 ++ data_bytearray)).

(** [for record in self.dmap_records] *)
Fixpoint records_to_bytes_loop (self : t) (records : list DmapRecord)
  : result t :=
  match records with
  | [] => Ok self
  | record :: rest =>
      self ← dmap_record_to_bytes self record;
      records_to_bytes_loop self rest
  end.

Definition dmap_records_to_bytes (self : t) : result t :=
  records_to_bytes_loop self (dmap_records self).

(** [for rec_num in range(len(self.dmap_records))] *)
Fixpoint file_structure_loop (file_struct_list : list (gmap string string))
    (self : t) (rec_num : nat) (records : list DmapRecord) : result t :=
  match records with
  | [] => Ok self
  | record :: rest =>
      extra_field_check file_struct_list record rec_num;;
      missing_field_check file_struct_list record rec_num;;
      incorrect_types_check file_struct_list record rec_num;;
      self ← dmap_record_to_bytes self record;
      file_structure_loop file_struct_list self (S rec_num) rest
  end.

Definition superDARN_file_structure_to_bytes
    (file_struct_list : list (gmap string string)) (self : t) : result t :=
  file_structure_loop file_struct_list self 0 (dmap_records self).

(** The stream writers return the instance they leave and the byte
    array. *)
Definition write_dmap_stream (self : t) (dmap_records : list DmapRecord)
  : result (t * bytes) :=
  let self :=
    if is_empty_list (DmapWrite.dmap_records self)
    then set_records self dmap_records else self in
  empty_record_check self;;
  self ← dmap_records_to_bytes self;
  Ok (self, dmap_bytearr self).

(** The shape of the five product stream writers. *)
Definition write_product_stream (file_struct_list : list (gmap string string))
    (self : t) (data : list DmapRecord) : result (t * bytes) :=
  let self :=
    if negb (is_empty_list data) then set_records self data else self in
  empty_record_check self;;
  self ← superDARN_file_structure_to_bytes file_struct_list self;
  Ok (self, dmap_bytearr self).

Section Products.
Variable superdarn_formats : Formats.

Definition write_rawacf_stream :=
  write_product_stream [Rawacf_types superdarn_formats].

Definition write_fitacf_stream :=
  write_product_stream [Fitacf_types superdarn_formats].

Definition write_grid_stream :=
  write_product_stream [Grid_types superdarn_formats;
                        Grid_extra_fields superdarn_formats].

Definition write_map_stream :=
  write_product_stream [Map_types superdarn_formats;
                        Map_extra_fields superdarn_formats;
                        Map_fit_fields superdarn_formats;
                        Map_model_fields superdarn_formats;
                        Map_hmb_fields superdarn_formats].
End Products.

(** [DmapWrite(records).write_dmap_stream()]: the raw mode encoder. *)
Definition encode (records : list DmapRecord) : result bytes :=
  '(_, b) ← write_dmap_stream (Build records [] "") [];
  Ok b.

(** *** The file writers and the constructor

    The file system is a map from file names to contents; opening a
    file for writing is taken to succeed, and [f.write] replaces the
    content of the file. *)

(** [__filename_check]: a file name given to the call replaces the file
    name of the instance. *)
Definition filename_check (self : t) (filename : string) : result t :=
  if bool_decide (DmapWrite.filename self = "") && bool_decide (filename = "")
  then Err FilenameRequiredError
  else if negb (bool_decide (filename = ""))
  then Ok (Build (dmap_records self) (dmap_bytearr self) filename)
  else Ok self.

(** [with open(self.filename, 'wb') as f: f.write(self.dmap_bytearr)] *)
Definition write_file (self : t) (fs : gmap string bytes) : gmap string bytes :=
  <[DmapWrite.filename self := dmap_bytearr self]> fs.

(** The shape of the five product file writers. *)
Definition write_product (file_struct_list : list (gmap string string))
    (self : t) (filename : string) (fs : gmap string bytes)
  : result (t * gmap string bytes) :=
  empty_record_check self;;
  self ← filename_check self filename;
  self ← superDARN_file_structure_to_bytes file_struct_list self;
  Ok (self, write_file self fs).

Definition write_dmap (self : t) (filename : string) (fs : gmap string bytes)
  : result (t * gmap string bytes) :=
  empty_record_check self;;
  self ← filename_check self filename;
  self ← dmap_records_to_bytes self;
  Ok (self, write_file self fs).

Section Constructor.
Variable superdarn_formats : Formats.

Definition write_iqdat :=
  write_product [Iqdat_types superdarn_formats].

Definition write_rawacf :=
  write_product [Rawacf_types superdarn_formats].

Definition write_fitacf :=
  write_product [Fitacf_types superdarn_formats].

Definition write_grid :=
  write_product [Grid_types superdarn_formats;
                 Grid_extra_fields superdarn_formats].

Definition write_map :=
  write_product [Map_types superdarn_formats;
                 Map_extra_fields superdarn_formats;
                 Map_fit_fields superdarn_formats;
                 Map_model_fields superdarn_formats;
                 Map_hmb_fields superdarn_formats].

(** [__init__]: the instance, and the file system after the write that
    the format asks for. *)
Definition init (dmap_records : list DmapRecord) (filename : string)
    (dmap_file_fmt : string) (fs : gmap string bytes)
  : result (t * gmap string bytes) :=
  let self := Build dmap_records [] filename in
  if decide (dmap_file_fmt = "") then Ok (self, fs)
  else if decide (dmap_file_fmt = "iqdat") then write_iqdat self "" fs
  else if decide (dmap_file_fmt = "rawacf") then write_rawacf self "" fs
  else if decide (dmap_file_fmt = "fitacf") then write_fitacf self "" fs
  else if decide (dmap_file_fmt = "grid") then write_grid self "" fs
  else if decide (dmap_file_fmt = "map") then write_map self "" fs
  else if decide (dmap_file_fmt = "dmap") then write_dmap self "" fs
  else if decide (dmap_file_fmt = "stream") then
    '(self, _) ← write_dmap_stream self [];
    Ok (self, fs)
  else Err DmapFileFormatType.

End Constructor.

End DmapWrite.

(** * Sample data *)

(** The record of the round trip scenario: an int16 scalar and a
    float32 array of shape [2, 2] holding 1, 2, 3, 4. *)
Definition float32_array (bits : list Z) : ndarray :=
  NdArray (DtFmt "f") (mjoin (le_bytes 4 <$> bits)).

Definition sample_stid : DmapScalar.t :=
  DmapScalar.Build "stid" (VInt 7) SHORT "h".

Definition sample_values : ndarray :=
  float32_array [1065353216; 1073741824; 1077936128; 1082130432].

Definition sample_data : DmapArray.t :=
  DmapArray.Build "data" sample_values FLOAT "f" 2 [2; 2].

Definition sample_record : DmapRecord :=
  [("stid", Scalar sample_stid); ("data", Array sample_data)].

(** The 58 bytes of [sample_record]. *)
Definition sample_bytes : bytes :=
  [1; 0; 1; 0; 58; 0; 0; 0; 1; 0; 0; 0; 1; 0; 0; 0;
   115; 116; 105; 100; 0; 2; 7; 0;
   100; 97; 116; 97; 0; 4; 2; 0; 0; 0; 2; 0; 0; 0; 2; 0; 0; 0;
   0; 0; 128; 63; 0; 0; 0; 64; 0; 0; 64; 64; 0; 0; 128; 64].

(** The same bytes with the block size 57 in the header. *)
Definition short_block_bytes : bytes := <[4%nat := 57]> (sample_bytes : list Z).

(** A header that announces no scalar. *)
Definition no_scalar_bytes : bytes :=
  [1; 0; 1; 0; 16; 0; 0; 0; 0; 0; 0; 0; 1; 0; 0; 0].

(** A scalar called "a" of the reserved type 0, followed by one byte. *)
Definition reserved_scalar_bytes : bytes := [97; 0; 0; 7].

(** A schema with a required group and an optional group, and a record
    that has one field of the optional group only. *)
Definition sample_types : gmap string string :=
  {["stid" := "h"; "data" := "f"]}.

Definition sample_extra_fields : gmap string string :=
  {["pwr" := "f"; "wdt" := "f"]}.

Definition sample_pwr : DmapScalar.t :=
  DmapScalar.Build "pwr" (VFloat 1065353216) FLOAT "f".

Definition partial_record : DmapRecord :=
  sample_record ++ [("pwr", Scalar sample_pwr)].

(** A record whose array has the shape [2, 3], and the same record with
    the shape [3, 2]. *)
Definition wide_values : ndarray :=
  float32_array [1065353216; 1073741824; 1077936128; 1082130432;
                 1084227584; 1086324736].

Definition wide_data : DmapArray.t :=
  DmapArray.Build "data" wide_values FLOAT "f" 2 [2; 3].

Definition wide_record : DmapRecord :=
  [("stid", Scalar sample_stid); ("data", Array wide_data)].

Definition wide_data_swapped : DmapArray.t :=
  DmapArray.Build "data" wide_values FLOAT "f" 2 [3; 2].

Definition wide_record_swapped : DmapRecord :=
  [("stid", Scalar sample_stid); ("data", Array wide_data_swapped)].

(** * Vocabulary of the properties *)

(** Every exception that [r] can raise is one of [P]. *)
Definition raises {A} (P : error → Prop) (r : result A) : Prop :=
  ∀ e, r = Err e → P e.

(** The exceptions of [read_data]. *)
Definition read_error (e : error) : Prop :=
  e = CursorError ∨ e = PyIndexError ∨ e = MismatchByteError ∨
  e = StructError ∨ e = PyTypeError.

(** The exceptions of [read_scalar]. *)
Definition scalar_error (e : error) : Prop :=
  read_error e ∨ e = DmapDataTypeError ∨ e = PyKeyError.

(** The total field set of a schema, and for one of its field groups the
    fields of the group that the record does not have. A group is partly
    present when that difference is neither empty nor the whole group. *)
Definition total_field_set (file_struct_list : list (gmap string string))
  : gset string :=
  ⋃ (dom <$> file_struct_list).

Definition group_diff (record : DmapRecord) (complete_set : gset string)
    (file_struct : gmap string string) : gset string :=
  dom file_struct ∖ (DmapWrite.record_keys record ∩ complete_set).

Definition partly_present (record : DmapRecord) (complete_set : gset string)
    (file_struct : gmap string string) : Prop :=
  group_diff record complete_set file_struct ≠ ∅ ∧
  group_diff record complete_set file_struct ≠ dom file_struct.

(** The range of the struct format 'i'. *)
Definition int32 (z : Z) : Prop := - 2 ^ 31 ≤ z < 2 ^ 31.

(** The block sizes that the integrity scan follows from [cursor] to
    [stop]: every block starts with four bytes that are skipped and the
    block size, which leads to the next block. *)
Fixpoint block_chain (buf : bytes) (cursor : Z) (sizes : list Z) (stop : Z)
  : Prop :=
  match sizes with
  | [] => cursor = stop
  | block_size :: sizes' =>
      DmapRead.read_int buf (cursor + 4) = Ok (block_size, cursor + 8) ∧
      0 < block_size ∧
      block_chain buf (cursor + block_size) sizes' stop
  end.

(** The exceptions of the integrity scan. *)
Definition integrity_error (e : error) : Prop :=
  e = CursorError ∨ e = ZeroByteError ∨ e = NegativeByteError ∨
  e = MismatchByteError.

(** Two records, and the two records with the block size of the second
    one raised by one. *)
Definition two_records_bytes : bytes := sample_bytes ++ sample_bytes.

Definition corrupt_size_bytes : bytes :=
  sample_bytes ++ <[4%nat := 59]> (sample_bytes : list Z).


(** An array called "slist" with one dimension of length zero, on the
    wire, and the same bytes under the name "alist". *)
Definition empty_slist_bytes : bytes :=
  [115; 108; 105; 115; 116; 0; 2; 1; 0; 0; 0; 0; 0; 0; 0].

Definition empty_alist_bytes : bytes :=
  [97; 108; 105; 115; 116; 0; 2; 1; 0; 0; 0; 0; 0; 0; 0].

Definition empty_slist : DmapArray.t :=
  DmapArray.Build "slist" (NdArray (DtFmt "h") []) SHORT "h" 1 [0].



(** The numerical types: those that [read_array] reads with
    [read_numerical_array]. *)
Definition numeric_type (ty : Z) : Prop :=
  ty ∈ [SHORT; INT; FLOAT; DOUBLE; LONG; UCHAR; USHORT; UINT; ULONG].

(** An array "slist" of type [ty] with one dimension of length zero, on
    the wire. *)
Definition empty_slist_wire (ty : Z) : bytes :=
  [115; 108; 105; 115; 116; 0; ty; 1; 0; 0; 0; 0; 0; 0; 0].

(** The buffer truncated to its first [L] bytes. *)
Definition cut (L : Z) (buf : bytes) : bytes := take (Z.to_nat L) buf.

(** The arrays of a record. *)
Definition arrays_of (record : DmapRecord) : list DmapArray.t :=
  omap (fun kv => match kv.2 with Array a => Some a | Scalar _ => None end)
    record.

(** A record read at [cursor] is plain when it holds as many arrays as
    its header announces (no array has taken the place of an array of
    the same name) and no array of it has a negative dimension. *)
Definition plain_record (buf : bytes) (cursor : Z) (record : DmapRecord)
  : Prop :=
  DmapRead.read_int buf (cursor + 12)
    = Ok (Z.of_nat (length (arrays_of record)), cursor + 16)
  ∧ Forall (fun a => Forall (fun x => 0 ≤ x) (DmapArray.shape a))
      (arrays_of record).

(** The plain records that the reader meets from [cursor] to [stop]. *)
Fixpoint record_chain (buf : bytes) (cursor : Z) (records : list DmapRecord)
    (stop : Z) : Prop :=
  match records with
  | [] => cursor = stop
  | record :: records' =>
      ∃ c', DmapRead.read_record buf cursor = Ok (record, c')
            ∧ plain_record buf cursor record
            ∧ record_chain buf c' records' stop
  end.

(** The exceptions of the model that are exceptions of Python. *)
Definition python_error (e : error) : Prop := e ≠ OutOfFuel.

(** The three field checks of the writer, in the order in which
    [superDARN_file_structure_to_bytes] runs them on a record. *)
Definition field_checks (file_struct_list : list (gmap string string))
    (record : DmapRecord) (rec_num : nat) : result unit :=
  DmapWrite.extra_field_check file_struct_list record rec_num;;
  DmapWrite.missing_field_check file_struct_list record rec_num;;
  DmapWrite.incorrect_types_check file_struct_list record rec_num.

(** The scalars of a record. *)
Definition scalars_of (record : DmapRecord) : list DmapScalar.t :=
  omap (fun kv => match kv.2 with Scalar s => Some s | Array _ => None end)
    record.

(** The bytes of a field, of the fields of a record one after the other
    (the payload of its block), the block of a record and the blocks of
    a list of records, as the writer lays them out. *)
Definition field_to_bytes (f : field) : result bytes :=
  match f with
  | Scalar s => DmapWrite.dmap_scalar_to_bytes s
  | Array a => DmapWrite.dmap_array_to_bytes a
  end.

Fixpoint fields_to_bytes (record : DmapRecord) : result bytes :=
  match record with
  | [] => Ok []
  | (_, f) :: rest =>
      b ← field_to_bytes f;
      bs ← fields_to_bytes rest;
      Ok (b ++ bs)
  end.

Definition record_block (record : DmapRecord) : result bytes :=
  payload ← fields_to_bytes record;
  size ← struct_pack "i" (VInt (blen payload + 16));
  Ok (le_bytes 4 65537 ++ size
      ++ le_bytes 4 (Z.of_nat (length (scalars_of record)))
      ++ le_bytes 4 (Z.of_nat (length (arrays_of record)))
      ++ payload).

Fixpoint record_blocks (records : list DmapRecord) : result bytes :=
  match records with
  | [] => Ok []
  | record :: rest =>
      b ← record_block record;
      bs ← record_blocks rest;
      Ok (b ++ bs)
  end.

(** The sample record with its scalar "stid" given as an int32. *)
Definition wrong_type_record : DmapRecord :=
  [("stid", Scalar (DmapScalar.Build "stid" (VInt 7) INT "i"));
   ("data", Array sample_data)].

(** The type code of a field, and the Python type that a value read
    under a format has: [str] for 's', [float] for 'f' and 'd', [int]
    for the others. *)
Definition field_type (f : field) : Z :=
  match f with
  | Scalar s => DmapScalar.data_type s
  | Array a => DmapArray.data_type a
  end.

Definition value_of_format (fmt : string) (v : pyval) : Prop :=
  match v with
  | VStr _ => fmt = "s"
  | VFloat _ => fmt_float fmt = true
  | VInt _ => fmt ≠ "s" ∧ fmt_float fmt = false
  end.

(** What holds of a field of a record that was read, under the key
    [k]. *)
Definition field_sound (k : string) (f : field) : Prop :=
  field_name f = k
  ∧ (∃ size, DMAP_DATA_TYPES (field_type f) = Some (field_fmt f, size))
  ∧ match f with
    | Scalar s =>
        DmapScalar.data_type s ≠ DMAP
        ∧ value_of_format (DmapScalar.data_type_fmt s) (DmapScalar.value s)
    | Array a =>
        0 < DmapArray.dimension a
        ∧ DmapArray.dimension a = Z.of_nat (length (DmapArray.shape a))
    end.

(** Text that DMAP holds as it is: ASCII without NUL. *)
Definition plain_text (s : string) : Prop :=
  Forall (fun b => 0 < b < 128) (string_to_bytes s).

(** A floating point number of [size] bytes, by its bit pattern; the
    patterns that are not a number are left out. *)
Definition float_number (size bits : Z) : Prop :=
  0 ≤ bits < 2 ^ (8 * size)
  ∧ bits mod 2 ^ (8 * size - 1)
    ≤ (if size =? 4 then 2139095040 else 9218868437227405312).

(** The values that a format of [size] bytes holds exactly: plain text
    under 's', a char from 0 to 127 under 'c', an integer of the range
    of the format, a floating point number. *)
Definition value_exact (fmt : string) (size : Z) (v : pyval) : Prop :=
  match v with
  | VStr s => fmt = "s" ∧ plain_text s
  | VInt z =>
      (fmt = "c" ∧ 0 ≤ z < 128)
      ∨ (fmt_signed fmt = true
         ∧ - 2 ^ (8 * size - 1) ≤ z < 2 ^ (8 * size - 1))
      ∨ (fmt_unsigned fmt = true ∧ 0 ≤ z < 2 ^ (8 * size))
  | VFloat bits => fmt_float fmt = true ∧ float_number size bits
  end.

(** A scalar whose name is plain text, whose format is the one of its
    type and whose value the format holds exactly. *)
Definition scalar_exact (s : DmapScalar.t) : Prop :=
  plain_text (DmapScalar.name s)
  ∧ ∃ size,
      DMAP_DATA_TYPES (DmapScalar.data_type s)
      = Some (DmapScalar.data_type_fmt s, size)
      ∧ value_exact (DmapScalar.data_type_fmt s) size (DmapScalar.value s).

(** The bytes of the value of a scalar, as [dmap_scalar_to_bytes]
    computes them. *)
Definition scalar_data_bytes (fmt : string) (v : pyval) : result bytes :=
  if decide (fmt = "s") then
    match v with
    | VStr s => Ok (DmapWrite.name_bytes s)
    | VInt z => Ok (DmapWrite.name_bytes (pretty z))
    | VFloat _ => Err PyTypeError
    end
  else if decide (fmt = "c") then
    match v with
    | VInt z => chr_encode_utf8 z
    | _ => Err PyTypeError
    end
  else struct_pack fmt v.

(** What [struct.unpack_from] makes of the bytes of one value. *)
Definition struct_value (fmt : string) (raw : bytes) : pyval :=
  if fmt_signed fmt then VInt (le_signed raw)
  else if fmt_unsigned fmt then VInt (le_unsigned raw)
  else VFloat (le_unsigned raw).

(** A char scalar. *)
Definition char_scalar (name : string) (z : Z) : DmapScalar.t :=
  DmapScalar.Build name (VInt z) CHAR "c".

(** An array of a numerical type whose name is plain text, whose format
    is the one of its type, whose dimension is the length of its shape,
    with one dimension at least and every length above zero, and whose
    value holds as many items of its format as the shape says. *)
Definition array_exact (a : DmapArray.t) : Prop :=
  plain_text (DmapArray.name a)
  ∧ numeric_type (DmapArray.data_type a)
  ∧ ∃ size,
      DMAP_DATA_TYPES (DmapArray.data_type a)
      = Some (DmapArray.data_type_fmt a, size)
      ∧ DmapArray.dimension a = Z.of_nat (length (DmapArray.shape a))
      ∧ DmapArray.shape a ≠ []
      ∧ Forall (fun d => 0 < d) (DmapArray.shape a)
      ∧ nd_dtype (DmapArray.value a) = DtFmt (DmapArray.data_type_fmt a)
      ∧ blen (nd_raw (DmapArray.value a))
        = DmapRead.total_cells (DmapArray.shape a) * size.

(** The array with its shape in the opposite order. *)
Definition reverse_shape (a : DmapArray.t) : DmapArray.t :=
  DmapArray.Build (DmapArray.name a) (DmapArray.value a)
    (DmapArray.data_type a) (DmapArray.data_type_fmt a)
    (DmapArray.dimension a) (reverse (DmapArray.shape a)).

(** The items of a record for a list of scalars and for a list of
    arrays, each under its own name. *)
Definition scalar_items (scalars : list DmapScalar.t) : DmapRecord :=
  (fun s => (DmapScalar.name s, Scalar s)) <$> scalars.

Definition array_items (arrays : list DmapArray.t) : DmapRecord :=
  (fun a => (DmapArray.name a, Array a)) <$> arrays.

(** A record that holds its scalars before its arrays, each under its
    own name, one scalar and one array at least, no name twice, and
    whose scalars and arrays are exact. *)
Definition record_exact (record : DmapRecord) : Prop :=
  record = scalar_items (scalars_of record) ++ array_items (arrays_of record)
  ∧ scalars_of record ≠ [] ∧ arrays_of record ≠ []
  ∧ NoDup (od_keys record)
  ∧ Forall scalar_exact (scalars_of record)
  ∧ Forall array_exact (arrays_of record).

(** The record with the shape of every array in the opposite order. *)
Definition reverse_shapes (record : DmapRecord) : DmapRecord :=
  (fun kv => (kv.1, match kv.2 with
                    | Array a => Array (reverse_shape a)
                    | Scalar s => Scalar s
                    end)) <$> record.

(** The 66 bytes of [wide_record]. *)
Definition wide_bytes : bytes :=
  [1; 0; 1; 0; 66; 0; 0; 0; 1; 0; 0; 0; 1; 0; 0; 0;
   115; 116; 105; 100; 0; 2; 7; 0;
   100; 97; 116; 97; 0; 4; 2; 0; 0; 0; 2; 0; 0; 0; 3; 0; 0; 0;
   0; 0; 128; 63; 0; 0; 0; 64; 0; 0; 64; 64; 0; 0; 128; 64;
   0; 0; 160; 64; 0; 0; 192; 64].

(** The file that a file writer writes to: the name given to the call,
    or that of the instance when none is given. *)
Definition target_file (self : DmapWrite.t) (filename : string) : string :=
  if decide (filename = "") then DmapWrite.filename self else filename.

(** The formats that make the constructor write a file. *)
Definition file_formats : list string :=
  ["iqdat"; "rawacf"; "fitacf"; "grid"; "map"; "dmap"].

(** A writer that holds the sample record, and the same writer after
    [write_dmap] to the file "out.dmap". *)
Definition sample_writer : DmapWrite.t :=
  DmapWrite.Build [sample_record] [] "".

Definition sample_written : DmapWrite.t :=
  DmapWrite.Build [sample_record] sample_bytes "out.dmap".

(** The header of an array "slist" of type [ty] with one dimension of
    length [d], on the wire. *)
Definition slist_wire (ty d : Z) : bytes :=
  DmapWrite.name_bytes "slist" ++ [ty] ++ le_bytes 4 1 ++ le_bytes 4 d.


(** What it is for a call [run] of a stream writer on the instance
    [self] to encode the records [written], given the field checks
    [checked] of the writer ([True] for the raw writer). When the call
    returns, the checks have passed, the instance holds [written] and
    the bytes returned are the byte array that the instance had followed
    by the blocks of [written]; from a byte array that was empty the
    reader decodes them to [written], with the shapes reversed, when
    these records are exact. The call does return when [written] is not
    empty, the checks pass and the blocks can be written, and it raises
    [DmapDataError] when [written] is empty. *)
Definition writes_records (run : result (DmapWrite.t * bytes))
    (self : DmapWrite.t) (written : list DmapRecord) (checked : Prop) : Prop :=
  (∀ self' b, run = Ok (self', b) →
     checked
     ∧ DmapWrite.dmap_records self' = written
     ∧ ∃ blocks,
         record_blocks written = Ok blocks
         ∧ b = DmapWrite.dmap_bytearr self ++ blocks
         ∧ (DmapWrite.dmap_bytearr self = [] → Forall record_exact written →
            DmapRead.decode b = Ok (reverse_shapes <$> written)))
  ∧ (written ≠ [] → checked →
     ∀ blocks, record_blocks written = Ok blocks →
       ∃ self', run = Ok (self', DmapWrite.dmap_bytearr self ++ blocks))
  ∧ (written = [] → run = Err DmapDataError).

(** The product stream writers with their field groups. *)
Definition product_stream_writers (superdarn_formats : Formats)
  : list ((DmapWrite.t → list DmapRecord → result (DmapWrite.t * bytes))
          * list (gmap string string)) :=
  [(DmapWrite.write_rawacf_stream superdarn_formats,
    [Rawacf_types superdarn_formats]);
   (DmapWrite.write_fitacf_stream superdarn_formats,
    [Fitacf_types superdarn_formats]);
   (DmapWrite.write_grid_stream superdarn_formats,
    [Grid_types superdarn_formats;
     Grid_extra_fields superdarn_formats]);
   (DmapWrite.write_map_stream superdarn_formats,
    [Map_types superdarn_formats;
     Map_extra_fields superdarn_formats;
     Map_fit_fields superdarn_formats;
     Map_model_fields superdarn_formats;
     Map_hmb_fields superdarn_formats])].

(** A record with the scalar "stid" only. *)
Definition stid_record : DmapRecord := [("stid", Scalar sample_stid)].

(** * Properties *)

(** ** The exception monad *)

Lemma bind_Ok {A B} (m : result A) (k : A → result B) (b : B) :
  m ≫= k = Ok b ↔ ∃ a, m = Ok a ∧ k a = Ok b.
Proof.
  destruct m as [a|e]; simpl; split.
  - eauto.
  - by intros (a' & [= ->] & ?).
  - done.
  - by intros (? & ? & ?).
Qed.

Lemma bind_Err {A B} (m : result A) (k : A → result B) (e : error) :
  m ≫= k = Err e ↔ m = Err e ∨ ∃ a, m = Ok a ∧ k a = Err e.
Proof.
  destruct m as [a|e']; simpl; split.
  - intros H. right. by exists a.
  - intros [?|(a' & [= ->] & ?)]; done.
  - intros [= ->]. by left.
  - intros [[= ->]|(? & ? & ?)]; done.
Qed.

Lemma bind_ret {A B} (a : A) (k : A → result B) : Ok a ≫= k = k a.
Proof. done. Qed.

(** ** Plain text on the wire *)

Lemma plain_text_no_nul (s : string) :
  plain_text s → Forall (fun b => b ≠ 0) (string_to_bytes s).
Proof. intros H. eapply Forall_impl; [done|]. cbn. lia. Qed.

Lemma string_to_bytes_length (s : string) :
  length (string_to_bytes s) = String.length s.
Proof.
  unfold string_to_bytes. rewrite length_fmap.
  induction s as [|a s IH]; cbn; [done|]. by rewrite IH.
Qed.

Lemma utf8_encode_plain (s : string) :
  plain_text s → utf8_encode s = string_to_bytes s.
Proof.
  unfold plain_text, utf8_encode.
  induction 1 as [|c l Hc _ IH]; [done|]. rewrite fmap_cons.
  change (mjoin (?x :: ?xs)) with (x ++ mjoin xs). rewrite IH.
  by destruct (Z.ltb_spec c 128); [|lia].
Qed.

(** The name bytes are as many as the name has characters, and one. *)
Lemma name_bytes_length (s : string) :
  length (DmapWrite.name_bytes s) = (String.length s + 1)%nat.
Proof.
  unfold DmapWrite.name_bytes, struct_pack_s.
  rewrite length_take, !length_app, length_replicate. lia.
Qed.

(** For plain text they are the text followed by NUL. *)
Lemma name_bytes_plain (s : string) :
  plain_text s → DmapWrite.name_bytes s = string_to_bytes s ++ [0].
Proof.
  intros Hs. unfold DmapWrite.name_bytes, struct_pack_s.
  rewrite (utf8_encode_plain s Hs). apply take_app_length'.
  rewrite length_app, string_to_bytes_length. cbn [length]. lia.
Qed.

(** ** The checks of the reader *)

Section Checks.
Import DmapRead.

Lemma zero_negative_check_Ok (x : Z) :
  zero_negative_check x = Ok () ↔ 0 < x.
Proof.
  unfold zero_negative_check.
  destruct (Z.eqb_spec x 0); [|destruct (Z.ltb_spec x 0)]; split;
    (done || lia).
Qed.

Lemma zero_negative_check_Err (x : Z) :
  x ≤ 0 → ∃ e, zero_negative_check x = Err e ∧ ZeroOrNegativeLength e.
Proof.
  intros Hx. unfold zero_negative_check, ZeroOrNegativeLength.
  destruct (Z.eqb_spec x 0); [|destruct (Z.ltb_spec x 0)]; eauto; lia.
Qed.

Lemma bytes_check_Ok (x y : Z) : bytes_check x y = Ok () ↔ x ≤ y.
Proof.
  unfold bytes_check. destruct (Z.ltb_spec y x); split; (done || lia).
Qed.

Lemma bytes_check_Err (x y : Z) :
  y < x → bytes_check x y = Err MismatchByteError.
Proof.
  intros Hx. unfold bytes_check. destruct (Z.ltb_spec y x); [done|lia].
Qed.

End Checks.

(** ** The header of a record *)

Section RecordHeader.
Import DmapRead.

(** What a record that [read_record] returns went through. *)
Lemma read_record_inv (buf : bytes) (cursor : Z) (rec : DmapRecord) (c' : Z) :
  read_record buf cursor = Ok (rec, c') →
  ∃ block_size c1 num_scalars c2 num_arrays c3 r1 c4,
    read_int buf (cursor + 4) = Ok (block_size, c1) ∧
    block_size ≤ dmap_end_bytes buf - c1 + 8 ∧ 0 < block_size ∧
    read_int buf c1 = Ok (num_scalars, c2) ∧
    read_int buf c2 = Ok (num_arrays, c3) ∧
    0 < num_scalars ∧ 0 < num_arrays ∧
    num_scalars + num_arrays ≤ block_size ∧
    read_scalars (Z.to_nat num_scalars) buf [] c3 = Ok (r1, c4) ∧
    read_arrays (Z.to_nat num_arrays) buf block_size r1 c4 = Ok (rec, c') ∧
    c' - cursor = block_size.
Proof.
  unfold read_record. intros H.
  apply bind_Ok in H as ([block_size c1] & H1 & H).
  apply bind_Ok in H as ([] & H2 & H).
  apply bind_Ok in H as ([] & H3 & H).
  apply bind_Ok in H as ([num_scalars c2] & H4 & H).
  apply bind_Ok in H as ([num_arrays c3] & H5 & H).
  apply bind_Ok in H as ([] & H6 & H).
  apply bind_Ok in H as ([] & H7 & H).
  apply bind_Ok in H as ([] & H8 & H).
  apply bind_Ok in H as ([r1 c4] & H9 & H).
  apply bind_Ok in H as ([r2 c5] & H10 & H).
  apply bytes_check_Ok in H2, H8.
  apply zero_negative_check_Ok in H3, H6, H7.
  destruct (Z.eqb_spec (c5 - cursor) block_size) as [Heq|]; [|done].
  simpl in H. injection H as <- <-.
  change (2 * INT_bytes) with 8 in H2.
  exists block_size, c1, num_scalars, c2, num_arrays, c3, r1, c4.
  repeat split; (done || lia).
Qed.

End RecordHeader.

(** C8: in [read_record], once the block size has been read and
    accepted, a number of scalars or a number of arrays that is zero or
    negative raises [ZeroByteError] or [NegativeByteError], and a sum of
    the two above the block size raises [MismatchByteError]; so a record
    that is returned has at least one scalar and one array. *)
Theorem read_record_counts (buf : bytes)
    (cursor block_size c1 num_scalars c2 num_arrays c3 : Z) :
  DmapRead.read_int buf (cursor + 4) = Ok (block_size, c1) →
  0 < block_size ≤ DmapRead.dmap_end_bytes buf - c1 + 8 →
  DmapRead.read_int buf c1 = Ok (num_scalars, c2) →
  DmapRead.read_int buf c2 = Ok (num_arrays, c3) →
  (num_scalars ≤ 0 ∨ num_arrays ≤ 0 →
     ∃ e, DmapRead.read_record buf cursor = Err e ∧ ZeroOrNegativeLength e)
  ∧ (0 < num_scalars → 0 < num_arrays →
     block_size < num_scalars + num_arrays →
     ∃ e, DmapRead.read_record buf cursor = Err e ∧ SizeMismatch e)
  ∧ (is_ok (DmapRead.read_record buf cursor) →
     0 < num_scalars ∧ 0 < num_arrays ∧
     num_scalars + num_arrays ≤ block_size).
Proof.
  intros H1 [Hpos Hrem] H2 H3.
  assert (Hrec : DmapRead.read_record buf cursor =
      (DmapRead.zero_negative_check num_scalars;;
       DmapRead.zero_negative_check num_arrays;;
       DmapRead.bytes_check (num_scalars + num_arrays) block_size;;
       '(record, c) ← DmapRead.read_scalars (Z.to_nat num_scalars) buf [] c3;
       '(record, c) ← DmapRead.read_arrays (Z.to_nat num_arrays) buf
                        block_size record c;
       if negb (c - cursor =? block_size) then Err CursorError
       else Ok (record, c))).
  { unfold DmapRead.read_record. rewrite H1. simpl.
    change (2 * DmapRead.INT_bytes) with 8.
    rewrite (proj2 (bytes_check_Ok _ _) Hrem). simpl.
    rewrite (proj2 (zero_negative_check_Ok _) Hpos). simpl.
    rewrite H2. simpl. rewrite H3. done. }
  split; [|split].
  - intros Hz. rewrite Hrec.
    destruct (Z_lt_le_dec 0 num_scalars) as [Hs|Hs].
    + rewrite (proj2 (zero_negative_check_Ok _) Hs). simpl.
      destruct (zero_negative_check_Err num_arrays) as (e & -> & He); [lia|].
      eauto.
    + destruct (zero_negative_check_Err num_scalars) as (e & -> & He); [lia|].
      eauto.
  - intros Hs Ha Hsum. rewrite Hrec.
    rewrite (proj2 (zero_negative_check_Ok _) Hs). simpl.
    rewrite (proj2 (zero_negative_check_Ok _) Ha). simpl.
    rewrite bytes_check_Err by done. unfold SizeMismatch. eauto.
  - destruct (DmapRead.read_record buf cursor) as [[rec c']|e] eqn:Hr; [|done].
    intros _. apply read_record_inv in Hr
      as (b & d1 & ns & d2 & na & d3 & r1 & d4 & E1 & _ & _ & E2 & E3 & Hr).
    rewrite H1 in E1. injection E1 as <- <-.
    rewrite H2 in E2. injection E2 as <- <-.
    rewrite H3 in E3. injection E3 as <- <-. lia.
Qed.

Lemma read_record_counts_witness :
  ∃ e, DmapRead.read_record no_scalar_bytes 0 = Err e ∧ ZeroOrNegativeLength e.
Proof.
  refine (proj1 (read_record_counts no_scalar_bytes 0 16 8 0 12 1 16 _ _ _ _) _).
  - reflexivity.
  - vm_compute. split; [reflexivity | discriminate].
  - reflexivity.
  - reflexivity.
  - left. lia.
Defined.

(** C9: in [read_record], once the header is accepted and the scalars
    and the arrays are read, the record is returned exactly when the
    cursor has moved by the block size from where the record started;
    otherwise [CursorError] is raised and no record is returned. Every
    record that [read_record] returns has moved the cursor by the block
    size of its header. *)
Theorem read_record_cursor_check (buf : bytes)
    (cursor block_size c1 num_scalars c2 num_arrays c3 c4 c5 : Z)
    (r1 r2 : DmapRecord) :
  DmapRead.read_int buf (cursor + 4) = Ok (block_size, c1) →
  0 < block_size ≤ DmapRead.dmap_end_bytes buf - c1 + 8 →
  DmapRead.read_int buf c1 = Ok (num_scalars, c2) →
  DmapRead.read_int buf c2 = Ok (num_arrays, c3) →
  0 < num_scalars → 0 < num_arrays →
  num_scalars + num_arrays ≤ block_size →
  DmapRead.read_scalars (Z.to_nat num_scalars) buf [] c3 = Ok (r1, c4) →
  DmapRead.read_arrays (Z.to_nat num_arrays) buf block_size r1 c4
    = Ok (r2, c5) →
  (c5 - cursor ≠ block_size →
     DmapRead.read_record buf cursor = Err CursorError)
  ∧ (c5 - cursor = block_size →
     DmapRead.read_record buf cursor = Ok (r2, c5))
  ∧ (∀ rec c', DmapRead.read_record buf cursor = Ok (rec, c') →
     c' - cursor = block_size).
Proof.
  intros H1 [Hpos Hrem] H2 H3 Hs Ha Hsum H4 H5.
  assert (Hrec : DmapRead.read_record buf cursor =
      if negb (c5 - cursor =? block_size) then Err CursorError
      else Ok (r2, c5)).
  { unfold DmapRead.read_record. rewrite H1. simpl.
    change (2 * DmapRead.INT_bytes) with 8.
    rewrite (proj2 (bytes_check_Ok _ _) Hrem). simpl.
    rewrite (proj2 (zero_negative_check_Ok _) Hpos). simpl.
    rewrite H2. simpl. rewrite H3. simpl.
    rewrite (proj2 (zero_negative_check_Ok _) Hs). simpl.
    rewrite (proj2 (zero_negative_check_Ok _) Ha). simpl.
    rewrite (proj2 (bytes_check_Ok _ _) Hsum). simpl.
    rewrite H4. simpl. rewrite H5. done. }
  split; [|split].
  - intros Hne. rewrite Hrec.
    destruct (Z.eqb_spec (c5 - cursor) block_size); [lia|done].
  - intros Heq. rewrite Hrec.
    destruct (Z.eqb_spec (c5 - cursor) block_size); [done|lia].
  - intros rec c' Hr. apply read_record_inv in Hr
      as (b & d1 & ns & d2 & na & d3 & q1 & d4 & E1 & _ & _ & _ & _
            & _ & _ & _ & _ & _ & Hr).
    rewrite H1 in E1. by injection E1 as <- <-.
Qed.

Lemma read_record_cursor_check_witness :
  DmapRead.read_record short_block_bytes 0 = Err CursorError.
Proof.
  refine (proj1 (read_record_cursor_check short_block_bytes
                   0 57 8 1 12 1 16 24 58
                   [("stid", Scalar sample_stid)] sample_record
                   _ _ _ _ _ _ _ _ _) _).
  - reflexivity.
  - vm_compute. split; [reflexivity | discriminate].
  - reflexivity.
  - reflexivity.
  - lia.
  - lia.
  - lia.
  - vm_compute. reflexivity.
  - vm_compute. reflexivity.
  - lia.
Defined.

(** ** The exceptions a method can raise *)

Lemma raises_bind {A B} (P : error → Prop) (m : result A) (k : A → result B) :
  raises P m → (∀ a, m = Ok a → raises P (k a)) → raises P (m ≫= k).
Proof.
  intros Hm Hk e [He|(a & Ha & He)]%bind_Err; [by apply Hm|by eapply Hk].
Qed.

Lemma raises_Ok {A} (P : error → Prop) (a : A) : raises P (Ok a).
Proof. by intros e. Qed.

Lemma raises_Err {A} (P : error → Prop) (e : error) :
  P e → raises (A:=A) P (Err e).
Proof. by intros He e' [= <-]. Qed.

Lemma raises_mono {A} (P Q : error → Prop) (r : result A) :
  (∀ e, P e → Q e) → raises P r → raises Q r.
Proof. intros HPQ Hr e He. eauto. Qed.

(** Walks through a method body; [solve_err] proves that a raised
    exception is in the set. *)
Ltac raises_walk solve_err :=
  repeat first
    [ apply raises_Ok
    | apply raises_Err; solve_err
    | apply raises_bind; [|intros ? ?]
    | progress (simpl in *)
    | match goal with
      | |- raises _ (let '(_, _) := ?p in _) => destruct p
      | |- raises _ (if ?b then _ else _) => destruct b eqn:?
      | |- raises _ (match ?x with _ => _ end) => destruct x eqn:?
      end ].

Lemma read_data_raises (buf : bytes) (fmt : string) (n c : Z) :
  raises read_error (DmapRead.read_data buf fmt n c).
Proof.
  unfold DmapRead.read_data, DmapRead.scan_nul, DmapRead.scanned, py_getitem,
    DmapRead.bytes_check, struct_unpack_from, unpack_slice.
  raises_walk ltac:(unfold read_error; tauto).
Qed.

Lemma read_int_raises (buf : bytes) (c : Z) :
  raises read_error (DmapRead.read_int buf c).
Proof.
  unfold DmapRead.read_int, DmapRead.expect_int.
  apply raises_bind; [apply read_data_raises|intros [v c'] _].
  raises_walk ltac:(unfold read_error; tauto).
Qed.

Lemma read_name_raises (buf : bytes) (c : Z) :
  raises read_error (DmapRead.read_name buf c).
Proof.
  unfold DmapRead.read_name, DmapRead.expect_str.
  apply raises_bind; [apply read_data_raises|intros [v c'] _].
  raises_walk ltac:(unfold read_error; tauto).
Qed.

Lemma read_type_raises (buf : bytes) (c : Z) :
  raises read_error (DmapRead.read_type buf c).
Proof.
  unfold DmapRead.read_type, DmapRead.expect_int.
  apply raises_bind; [apply read_data_raises|intros [v c'] _].
  raises_walk ltac:(unfold read_error; tauto).
Qed.

Lemma read_scalar_raises (buf : bytes) (c : Z) :
  raises scalar_error (DmapRead.read_scalar buf c).
Proof.
  unfold DmapRead.read_scalar, DmapRead.check_data_type, DmapRead.type_entry,
    str_ne_int.
  apply raises_bind;
    [eapply raises_mono, read_name_raises; unfold scalar_error; tauto
    |intros [name c1] _].
  apply raises_bind;
    [eapply raises_mono, read_type_raises; unfold scalar_error; tauto
    |intros [ty c2] _].
  apply raises_bind;
    [raises_walk ltac:(unfold scalar_error; tauto)|intros [] _].
  apply raises_bind;
    [raises_walk ltac:(unfold scalar_error; tauto)|intros [fmt n] _].
  apply raises_bind;
    [eapply raises_mono, read_data_raises; unfold scalar_error; tauto
    |intros [v c3] _].
  apply raises_Ok.
Qed.

Lemma read_type_inv (buf : bytes) (c t c' : Z) :
  DmapRead.read_type buf c = Ok (t, c') →
  c' = c + 1 ∧ - blen buf ≤ c < blen buf ∧ py_getitem buf c = Ok t.
Proof.
  unfold DmapRead.read_type, DmapRead.read_data, DmapRead.dmap_end_bytes.
  destruct (Z.leb_spec (blen buf) c); [done|].
  destruct (Z.ltb_spec (blen buf - c) 1); [done|]. simpl.
  destruct (py_getitem buf c) as [b|e] eqn:Hb; [|done]. simpl.
  intros [= <- <-]. split; [done|]. split; [|done].
  revert Hb. unfold py_getitem, blen in *.
  destruct (Z.ltb_spec c 0); [|intros _; lia].
  destruct (Z.ltb_spec (c + Z.of_nat (length buf)) 0); [done|intros _; lia].
Qed.

(** C7: a scalar whose type code on the wire is the reserved type 0
    ([DMAP]) is never returned, but the exception is not [DmapDataError]:
    the test [scalar_type_fmt != DMAP] compares a format string with an
    integer and always holds, so [read_data] is called with the empty
    format and the scalar fails with [IndexError] on the empty tuple that
    [struct.unpack_from] returns (or with [CursorError] when the type
    code is the last byte of the buffer). *)
Theorem read_scalar_reserved_type (buf : bytes) (c c1 c2 : Z) (name : string) :
  DmapRead.read_name buf c = Ok (name, c1) →
  DmapRead.read_type buf c1 = Ok (DMAP, c2) →
  (DmapRead.read_scalar buf c = Err PyIndexError
   ∨ DmapRead.read_scalar buf c = Err CursorError)
  ∧ DmapRead.read_scalar buf c ≠ Err DmapDataError.
Proof.
  intros Hn Ht.
  assert (Hs : DmapRead.read_scalar buf c = Err PyIndexError
             ∨ DmapRead.read_scalar buf c = Err CursorError).
  { unfold DmapRead.read_scalar. rewrite Hn. simpl. rewrite Ht. simpl.
    apply read_type_inv in Ht as (-> & Hc1 & _).
    unfold DmapRead.read_data, DmapRead.dmap_end_bytes.
    destruct (Z.leb_spec (blen buf) (c1 + 1)); [by right|].
    destruct (Z.ltb_spec (blen buf - (c1 + 1)) 0); [by right|].
    simpl. unfold struct_unpack_from. simpl.
    assert (∃ raw, unpack_slice 0 buf (c1 + 1) = Ok raw) as [raw ->];
      [|by left].
    unfold unpack_slice.
    destruct (Z.ltb_spec (c1 + 1) 0).
    - destruct (Z.ltb_spec 0 (c1 + 1 + 0)); [lia|].
      destruct (Z.ltb_spec (c1 + 1 + blen buf) 0); [lia|]. eauto.
    - destruct (Z.ltb_spec (blen buf - (c1 + 1)) 0); [lia|]. eauto. }
  split; [done|]. by destruct Hs as [-> | ->].
Qed.

Lemma read_scalar_reserved_type_witness :
  (DmapRead.read_scalar reserved_scalar_bytes 0 = Err PyIndexError
   ∨ DmapRead.read_scalar reserved_scalar_bytes 0 = Err CursorError)
  ∧ DmapRead.read_scalar reserved_scalar_bytes 0 ≠ Err DmapDataError.
Proof.
  apply (read_scalar_reserved_type reserved_scalar_bytes 0 2 3 "a");
    reflexivity.
Defined.

(** The failing input of C7, evaluated. *)
Example read_scalar_reserved_type_run :
  DmapRead.read_scalar reserved_scalar_bytes 0 = Err PyIndexError.
Proof. reflexivity. Qed.

(** No input makes [read_scalar] raise [DmapDataError]. *)
Lemma read_scalar_never_DmapDataError (buf : bytes) (c : Z) :
  DmapRead.read_scalar buf c ≠ Err DmapDataError.
Proof.
  intros H. apply read_scalar_raises in H.
  destruct H as [[?|[?|[?|[?|?]]]]|[?|?]]; discriminate.
Qed.

(** ** The field checks of the writer *)

Lemma foldl_union_list (s : gset string) (sets : list (gset string)) :
  foldl (∪) s sets = s ∪ ⋃ sets.
Proof.
  revert s. induction sets as [|t sets IH]; intros s; simpl.
  - set_solver.
  - rewrite IH. set_solver.
Qed.

Lemma dict_list2set_total (file_struct_list : list (gmap string string)) :
  file_struct_list ≠ [] →
  DmapWrite.dict_list2set file_struct_list
  = Ok (total_field_set file_struct_list).
Proof.
  unfold DmapWrite.dict_list2set, total_field_set.
  destruct file_struct_list as [|g l]; [done|]. intros _. simpl.
  by rewrite foldl_union_list.
Qed.

(** The test on the two sizes is the test that the group is partly
    present. *)
Lemma partly_present_sizes (record : DmapRecord) (complete_set : gset string)
    (file_struct : gmap string string) :
  let diff_fields := group_diff record complete_set file_struct in
  negb ((size diff_fields =? 0)%nat
        || (size diff_fields =? size file_struct)%nat) = true
  ↔ partly_present record complete_set file_struct.
Proof.
  intros diff_fields. unfold partly_present. fold diff_fields.
  assert (Hsub : diff_fields ⊆ dom file_struct)
    by (unfold diff_fields, group_diff; set_solver).
  rewrite negb_true_iff, orb_false_iff, !Nat.eqb_neq.
  rewrite <- (size_dom (D:=gset string) file_struct).
  split; intros [H0 H1]; split.
  - intros Heq. apply H0. rewrite Heq. apply size_empty.
  - intros Heq. apply H1. by rewrite Heq.
  - intros Hs. apply H0. by apply leibniz_equiv, size_empty_inv.
  - intros Hs. apply H1. apply set_subseteq_size_eq; [done|].
    rewrite Hs. done.
Qed.

Lemma missing_fields_loop_spec (file_struct_list : list (gmap string string))
    (record : DmapRecord) (complete_set missing_fields : gset string)
    (x : string) :
  x ∈ DmapWrite.missing_fields_loop file_struct_list record complete_set
        missing_fields
  ↔ x ∈ missing_fields
    ∨ ∃ g, g ∈ file_struct_list ∧ partly_present record complete_set g
           ∧ x ∈ group_diff record complete_set g.
Proof.
  revert missing_fields.
  induction file_struct_list as [|g l IH]; intros missing_fields; simpl.
  - split; [by left|]. intros [?|(g & Hg & _)]; [done|].
    by apply elem_of_nil in Hg.
  - rewrite IH. clear IH.
    fold (group_diff record complete_set g).
    pose proof (partly_present_sizes record complete_set g) as Hp.
    simpl in Hp.
    destruct (negb _) eqn:Hb.
    + apply proj1 in Hp. specialize (Hp eq_refl).
      rewrite elem_of_union. split.
      * intros [[?|?]|(g' & Hg' & ?)].
        -- by left.
        -- right. exists g. split; [apply elem_of_cons; by left|done].
        -- right. exists g'. split; [apply elem_of_cons; by right|done].
      * intros [?|(g' & Hg' & Hp' & Hx)]; [by left; left|].
        apply elem_of_cons in Hg' as [->|Hg'].
        -- left. by right.
        -- right. by exists g'.
    + assert (Hnp : ¬ partly_present record complete_set g).
      { intros Hpp. apply Hp in Hpp. done. }
      split.
      * intros [?|(g' & Hg' & ?)]; [by left|].
        right. exists g'. split; [apply elem_of_cons; by right|done].
      * intros [?|(g' & Hg' & Hp' & Hx)]; [by left|].
        apply elem_of_cons in Hg' as [->|Hg']; [done|].
        right. by exists g'.
Qed.

(** C4: [missing_field_check] over the field groups of a schema. For
    each group it takes the fields of the group that are not among the
    record's fields met with the schema's total field set. When some
    group is partly present (that difference is neither empty nor the
    whole group) it raises [SuperDARNFieldMissing] for the record, naming
    exactly the differing fields of the partly present groups. When every
    group is wholly present or wholly absent it raises nothing. *)
Theorem missing_field_check_groups (file_struct_list : list (gmap string string))
    (record : DmapRecord) (rec_num : nat) :
  file_struct_list ≠ [] →
  let complete_set := total_field_set file_struct_list in
  ((∃ g, g ∈ file_struct_list ∧ partly_present record complete_set g) →
     ∃ fields,
       DmapWrite.missing_field_check file_struct_list record rec_num
       = Err (SuperDARNFieldMissing rec_num fields)
       ∧ ∀ x, x ∈ fields ↔
           ∃ g, g ∈ file_struct_list ∧ partly_present record complete_set g
                ∧ x ∈ group_diff record complete_set g)
  ∧ ((∀ g, g ∈ file_struct_list →
        group_diff record complete_set g = ∅
        ∨ group_diff record complete_set g = dom g) →
     DmapWrite.missing_field_check file_struct_list record rec_num = Ok ()).
Proof.
  intros Hne complete_set. unfold DmapWrite.missing_field_check.
  rewrite dict_list2set_total by done. simpl. fold complete_set.
  set (missing := DmapWrite.missing_fields_loop file_struct_list record
                    complete_set ∅).
  assert (Hspec : ∀ x, x ∈ missing ↔
            ∃ g, g ∈ file_struct_list ∧ partly_present record complete_set g
                 ∧ x ∈ group_diff record complete_set g).
  { intros x. unfold missing. rewrite missing_fields_loop_spec.
    split; [intros [?|?]; [set_solver|done]|by right]. }
  split.
  - intros (g & Hg & Hp). exists missing. split; [|done].
    destruct (Nat.ltb_spec 0 (size missing)) as [|Hsz]; [done|].
    exfalso. pose proof Hp as [Hp1 _].
    apply set_choose_L in Hp1 as [x Hx].
    assert (Hin : x ∈ missing) by (apply Hspec; by exists g).
    assert (Hemp : missing = ∅)
      by (apply leibniz_equiv, size_empty_inv; lia).
    rewrite Hemp in Hin. set_solver.
  - intros Hall.
    destruct (Nat.ltb_spec 0 (size missing)) as [Hsz|]; [|done].
    exfalso. apply size_pos_elem_of in Hsz as [x Hx].
    apply Hspec in Hx as (g & Hg & [Hp1 Hp2] & _).
    destruct (Hall g Hg); done.
Qed.

Lemma missing_field_check_groups_witness :
  ∃ fields,
    DmapWrite.missing_field_check [sample_types; sample_extra_fields]
      partial_record 0
    = Err (SuperDARNFieldMissing 0 fields)
    ∧ ∀ x, x ∈ fields ↔
        ∃ g, g ∈ [sample_types; sample_extra_fields]
             ∧ partly_present partial_record
                 (total_field_set [sample_types; sample_extra_fields]) g
             ∧ x ∈ group_diff partial_record
                     (total_field_set [sample_types; sample_extra_fields]) g.
Proof.
  refine (proj1 (missing_field_check_groups [sample_types; sample_extra_fields]
                   partial_record 0 _) _).
  - discriminate.
  - exists sample_extra_fields. split.
    + apply elem_of_cons. right. apply elem_of_cons. by left.
    + split; apply (bool_decide_unpack _); vm_compute; reflexivity.
Defined.

(** The record that lacks "wdt" of the optional group is refused for
    "wdt"; the record without the optional group passes. *)
Example missing_field_check_partial :
  DmapWrite.missing_field_check [sample_types; sample_extra_fields]
    partial_record 0
  = Err (SuperDARNFieldMissing 0 {["wdt"]}).
Proof. vm_compute. reflexivity. Qed.

Example missing_field_check_absent :
  DmapWrite.missing_field_check [sample_types; sample_extra_fields]
    sample_record 0
  = Ok ().
Proof. vm_compute. reflexivity. Qed.

(** ** The encoder and the order of the dimensions *)

Lemma struct_pack_i_Ok (z : Z) (b : bytes) :
  struct_pack "i" (VInt z) = Ok b → int32 z ∧ b = le_bytes 4 z.
Proof.
  unfold struct_pack, int32.
  change (calcsize "i") with (Some 4). change (fmt_signed "i") with true.
  cbv beta iota. change (8 * 4 - 1) with 31. change (Z.to_nat 4) with 4%nat.
  destruct (Z.leb_spec (- 2 ^ 31) z), (Z.ltb_spec z (2 ^ 31));
    cbn [andb]; try done; intros [= <-]; split; (done || lia).
Qed.

Lemma struct_pack_i_int32 (z : Z) :
  int32 z → struct_pack "i" (VInt z) = Ok (le_bytes 4 z).
Proof.
  unfold struct_pack, int32.
  change (calcsize "i") with (Some 4). change (fmt_signed "i") with true.
  cbv beta iota. change (8 * 4 - 1) with 31. change (Z.to_nat 4) with 4%nat.
  intros Hz.
  destruct (Z.leb_spec (- 2 ^ 31) z), (Z.ltb_spec z (2 ^ 31));
    cbn [andb]; (done || lia).
Qed.

Lemma shape_bytes_Ok (shape : list Z) (b : bytes) :
  DmapWrite.shape_bytes shape = Ok b →
  Forall int32 shape ∧ b = mjoin (le_bytes 4 <$> shape).
Proof.
  revert b. induction shape as [|size shape IH]; intros b; simpl.
  - intros [= <-]. by split.
  - intros H. apply bind_Ok in H as (b1 & H1 & H).
    apply bind_Ok in H as (b2 & H2 & H). injection H as <-.
    apply struct_pack_i_Ok in H1 as [Hs ->].
    apply IH in H2 as [Hf ->]. split; [by constructor|done].
Qed.

(** C1: the round trip in raw mode. The record of the scenario, whose
    array has the shape [2, 2], comes back equal, in a block whose size
    is the length of the payload plus 16. A record whose array has the
    shape [2, 3] comes back with the shape [3, 2]: the encoder writes
    the dimensions in the order of [array.shape] and the decoder
    reverses them. *)
Theorem round_trip_shape :
  (b ← DmapWrite.encode [sample_record]; DmapRead.decode b)
    = Ok [sample_record]
  ∧ DmapWrite.encode [sample_record] = Ok sample_bytes
  ∧ DmapRead.read_int sample_bytes 4 = Ok (blen sample_bytes, 8)
  ∧ (b ← DmapWrite.encode [wide_record]; DmapRead.decode b)
    = Ok [wide_record_swapped]
  ∧ wide_record_swapped ≠ wide_record.
Proof.
  repeat split; try (vm_compute; reflexivity).
  intros H. discriminate H.
Qed.

(** ** The integrity scan *)

Lemma read_int_nonneg (buf : bytes) (c : Z) :
  0 ≤ c →
  DmapRead.read_int buf c
  = if blen buf - c <? 4 then Err CursorError
    else Ok (le_signed (take 4 (drop (Z.to_nat c) buf)), c + 4).
Proof.
  intros Hc. unfold DmapRead.read_int, DmapRead.read_data,
    DmapRead.dmap_end_bytes.
  destruct (Z.leb_spec (blen buf) c), (Z.ltb_spec (blen buf - c) 4);
    try done; try lia.
  destruct (decide ("i" = "c")); [done|].
  destruct (decide ("i" = "s")); [done|].
  unfold struct_unpack_from, unpack_slice.
  change (calcsize "i") with (Some 4). cbv beta iota.
  destruct (Z.ltb_spec c 0); [lia|].
  destruct (Z.ltb_spec (blen buf - c) 4); [lia|]. done.
Qed.

Lemma block_chain_le (buf : bytes) (sizes : list Z) (cursor stop : Z) :
  block_chain buf cursor sizes stop → cursor ≤ stop.
Proof.
  revert cursor. induction sizes as [|s sizes IH]; intros cursor; simpl.
  - lia.
  - intros (_ & Hs & Hc). apply IH in Hc. lia.
Qed.

Lemma block_chain_sum (buf : bytes) (sizes : list Z) (cursor stop : Z) :
  block_chain buf cursor sizes stop → cursor + foldr Z.add 0 sizes = stop.
Proof.
  revert cursor. induction sizes as [|s sizes IH]; intros cursor; simpl.
  - lia.
  - intros (_ & Hs & Hc). apply IH in Hc. lia.
Qed.

(** One turn of the loop of the integrity scan. *)
Lemma integrity_loop_turn (fuel : nat) (buf : bytes) (cursor total : Z) :
  0 ≤ cursor < blen buf →
  DmapRead.integrity_loop (S fuel) buf cursor total
  = if blen buf - (cursor + 4) <? 4 then Err CursorError
    else
      let block_size :=
        le_signed (take 4 (drop (Z.to_nat (cursor + 4)) buf)) in
      DmapRead.zero_negative_check block_size;;
      DmapRead.bytes_check (total + block_size) (blen buf);;
      DmapRead.integrity_loop fuel buf (cursor + block_size)
        (total + block_size).
Proof.
  intros Hc. simpl. unfold DmapRead.dmap_end_bytes.
  destruct (Z.ltb_spec cursor (blen buf)); [|lia].
  rewrite read_int_nonneg by lia.
  destruct (Z.ltb_spec (blen buf - (cursor + 4)) 4); [done|]. simpl.
  set (block_size := le_signed _).
  replace (cursor + 4 + 4 + block_size - 2 * DmapRead.INT_bytes)
    with (cursor + block_size)
    by (change DmapRead.INT_bytes with 4; lia).
  done.
Qed.

Lemma integrity_loop_stop (fuel : nat) (buf : bytes) (cursor total : Z) :
  blen buf ≤ cursor →
  DmapRead.integrity_loop fuel buf cursor total = Ok (cursor, total).
Proof.
  intros Hc. destruct fuel; simpl; unfold DmapRead.dmap_end_bytes;
    destruct (Z.ltb_spec cursor (blen buf)); (done || lia).
Qed.

(** The scan keeps the total equal to the cursor, and comes to an end
    exactly on the chains of blocks that fill the buffer. *)
Lemma integrity_loop_Ok (fuel : nat) (buf : bytes) (cursor c' t' : Z) :
  0 ≤ cursor ≤ blen buf →
  blen buf - cursor ≤ Z.of_nat fuel →
  DmapRead.integrity_loop fuel buf cursor cursor = Ok (c', t')
  ↔ c' = blen buf ∧ t' = blen buf
    ∧ ∃ sizes, block_chain buf cursor sizes (blen buf).
Proof.
  revert cursor. induction fuel as [|fuel IH]; intros cursor Hc Hf.
  - assert (cursor = blen buf) as -> by lia.
    rewrite integrity_loop_stop by lia. split.
    + intros [= <- <-]. repeat split. by exists [].
    + by intros (-> & -> & _).
  - destruct (Z_lt_le_dec cursor (blen buf)) as [Hlt|Hge].
    + rewrite integrity_loop_turn by lia.
      destruct (Z.ltb_spec (blen buf - (cursor + 4)) 4) as [Hshort|Hlong].
      { split; [done|]. intros (_ & _ & [|s sizes] & Hch); simpl in Hch.
        - lia.
        - destruct Hch as (Hr & _). rewrite read_int_nonneg in Hr by lia.
          destruct (Z.ltb_spec (blen buf - (cursor + 4)) 4); [done|lia]. }
      cbv zeta. set (block_size := le_signed _).
      assert (Hread : DmapRead.read_int buf (cursor + 4)
                      = Ok (block_size, cursor + 8)).
      { rewrite read_int_nonneg by lia.
        destruct (Z.ltb_spec (blen buf - (cursor + 4)) 4); [lia|].
        unfold block_size. do 2 f_equal. lia. }
      split.
      * intros H. apply bind_Ok in H as ([] & Hz & H).
        apply bind_Ok in H as ([] & Hb & H).
        apply zero_negative_check_Ok in Hz. apply bytes_check_Ok in Hb.
        apply IH in H as (-> & -> & sizes & Hch); [|lia|lia].
        repeat split. exists (block_size :: sizes). simpl. done.
      * intros (-> & -> & [|s sizes] & Hch); simpl in Hch; [lia|].
        destruct Hch as (Hr & Hs & Hch). rewrite Hread in Hr.
        injection Hr as <-. pose proof (block_chain_le _ _ _ _ Hch).
        rewrite (proj2 (zero_negative_check_Ok _) Hs). simpl.
        rewrite (proj2 (bytes_check_Ok _ _)) by lia. simpl.
        apply IH; [lia|lia|]. repeat split. by exists sizes.
    + assert (cursor = blen buf) as -> by lia.
      rewrite integrity_loop_stop by lia. split.
      * intros [= <- <-]. repeat split. by exists [].
      * by intros (-> & -> & _).
Qed.

(** The scan never runs out of fuel, and raises nothing but the
    exceptions of [read_data], [zero_negative_check] and [bytes_check]. *)
Lemma integrity_loop_raises (fuel : nat) (buf : bytes) (cursor total : Z) :
  0 ≤ cursor →
  blen buf - cursor ≤ Z.of_nat fuel →
  raises integrity_error (DmapRead.integrity_loop fuel buf cursor total).
Proof.
  revert cursor total. induction fuel as [|fuel IH]; intros cursor total Hc Hf.
  - rewrite integrity_loop_stop by lia. apply raises_Ok.
  - destruct (Z_lt_le_dec cursor (blen buf)) as [Hlt|Hge].
    + rewrite integrity_loop_turn by lia.
      destruct (Z.ltb_spec (blen buf - (cursor + 4)) 4).
      { apply raises_Err. unfold integrity_error. tauto. }
      cbv zeta. set (block_size := le_signed _).
      apply raises_bind.
      { intros e He.
        destruct (Z_lt_le_dec 0 block_size) as [Hp|Hp].
        - apply zero_negative_check_Ok in Hp. congruence.
        - apply zero_negative_check_Err in Hp as (e' & He' & Hk).
          rewrite He' in He. injection He as <-.
          unfold integrity_error. destruct Hk; tauto. }
      intros [] Hz%zero_negative_check_Ok.
      apply raises_bind.
      { unfold DmapRead.bytes_check.
        destruct (_ <? _); [apply raises_Err|apply raises_Ok].
        unfold integrity_error. tauto. }
      intros [] _. apply IH; lia.
    + rewrite integrity_loop_stop by lia. apply raises_Ok.
Qed.

(** A block whose size leads past the end of the buffer stops the scan
    with [MismatchByteError]. *)
Lemma integrity_loop_overshoot (buf : bytes) (sizes : list Z)
    (fuel : nat) (cursor c block_size : Z) :
  0 ≤ cursor →
  blen buf - cursor ≤ Z.of_nat fuel →
  block_chain buf cursor sizes c →
  DmapRead.read_int buf (c + 4) = Ok (block_size, c + 8) →
  0 < block_size → blen buf < c + block_size →
  DmapRead.integrity_loop fuel buf cursor cursor = Err MismatchByteError.
Proof.
  intros Hc Hf Hch Hr Hs Hover.
  revert fuel cursor Hc Hf Hch.
  induction sizes as [|s sizes IH]; intros fuel cursor Hc Hf Hch; simpl in Hch.
  - subst c.
    assert (Hlt : cursor < blen buf).
    { rewrite read_int_nonneg in Hr by lia.
      destruct (Z.ltb_spec (blen buf - (cursor + 4)) 4); [done|lia]. }
    destruct fuel as [|fuel]; [lia|].
    rewrite integrity_loop_turn by lia.
    rewrite read_int_nonneg in Hr by lia.
    destruct (Z.ltb_spec (blen buf - (cursor + 4)) 4); [done|].
    injection Hr as Hr. cbv zeta. rewrite Hr.
    rewrite (proj2 (zero_negative_check_Ok _) Hs). simpl.
    by rewrite bytes_check_Err by lia.
  - destruct Hch as (Hr' & Hs' & Hch).
    pose proof (block_chain_le _ _ _ _ Hch) as Hle.
    assert (Hc8 : c + 8 ≤ blen buf).
    { rewrite read_int_nonneg in Hr by lia.
      destruct (Z.ltb_spec (blen buf - (c + 4)) 4); [done|lia]. }
    destruct fuel as [|fuel]; [lia|].
    rewrite integrity_loop_turn by lia.
    rewrite read_int_nonneg in Hr' by lia.
    destruct (Z.ltb_spec (blen buf - (cursor + 4)) 4); [done|].
    injection Hr' as Hr'. cbv zeta. rewrite Hr'.
    rewrite (proj2 (zero_negative_check_Ok _) Hs'). simpl.
    rewrite (proj2 (bytes_check_Ok _ _)) by lia. simpl.
    apply IH; (done || lia).
Qed.

Lemma test_initial_data_integrity_loop (buf : bytes) :
  DmapRead.test_initial_data_integrity buf 0
  = ('(_, _) ← DmapRead.integrity_loop (Z.to_nat (blen buf)) buf 0 0; Ok 0).
Proof.
  unfold DmapRead.test_initial_data_integrity, DmapRead.dmap_end_bytes.
  simpl. rewrite Z.sub_0_r.
  destruct (DmapRead.integrity_loop _ buf 0 0) as [[c' t']|e] eqn:Hl; [|done].
  simpl. apply integrity_loop_Ok in Hl as (_ & -> & _); [|unfold blen; lia..].
  by rewrite Z.eqb_refl.
Qed.

(** The scan stops within its fuel. *)
Lemma test_initial_data_integrity_fuel (buf : bytes) (cursor : Z) :
  DmapRead.test_initial_data_integrity buf cursor ≠ Err OutOfFuel.
Proof.
  destruct (Z.eq_dec cursor 0) as [->|Hc].
  - rewrite test_initial_data_integrity_loop. intros H.
    apply bind_Err in H as [H|([c t] & _ & H)]; [|done].
    apply integrity_loop_raises in H; [|unfold blen; lia..].
    destruct H as [?|[?|[?|?]]]; discriminate.
  - unfold DmapRead.test_initial_data_integrity.
    destruct (Z.eqb_spec cursor 0); done.
Qed.

(** C5, as the code has it: the integrity scan raises [CursorError]
    when the cursor is not at 0. From 0 it succeeds exactly when the
    block sizes it follows lead to the end of the buffer, and their sum
    is then the length of the buffer. A block size that takes the total
    past the length of the buffer (the block size of the last record
    raised by one, for instance) raises [MismatchByteError] in the loop.
    The scan raises nothing but [CursorError], [ZeroByteError],
    [NegativeByteError] and [MismatchByteError]: the test of the total
    after the loop never fails. *)
Theorem test_initial_data_integrity_spec (buf : bytes) :
  (∀ cursor, cursor ≠ 0 →
     DmapRead.test_initial_data_integrity buf cursor = Err CursorError)
  ∧ (DmapRead.test_initial_data_integrity buf 0 = Ok 0
     ↔ ∃ sizes, block_chain buf 0 sizes (blen buf))
  ∧ (∀ sizes, block_chain buf 0 sizes (blen buf) →
     foldr Z.add 0 sizes = blen buf)
  ∧ (∀ sizes c block_size,
       block_chain buf 0 sizes c →
       DmapRead.read_int buf (c + 4) = Ok (block_size, c + 8) →
       0 < block_size → blen buf < c + block_size →
       DmapRead.test_initial_data_integrity buf 0 = Err MismatchByteError)
  ∧ raises integrity_error (DmapRead.test_initial_data_integrity buf 0).
Proof.
  assert (Hlen : 0 ≤ blen buf) by (unfold blen; lia).
  split; [|split; [|split; [|split]]].
  - intros cursor Hc. unfold DmapRead.test_initial_data_integrity.
    destruct (Z.eqb_spec cursor 0); done.
  - rewrite test_initial_data_integrity_loop. split.
    + intros H. apply bind_Ok in H as ([c t] & H & _).
      apply integrity_loop_Ok in H as (_ & _ & H); [done|lia..].
    + intros Hch.
      assert (DmapRead.integrity_loop (Z.to_nat (blen buf)) buf 0 0
              = Ok (blen buf, blen buf)) as ->; [|done].
      apply integrity_loop_Ok; [lia..|done].
  - intros sizes Hch. apply block_chain_sum in Hch. lia.
  - intros sizes c block_size Hch Hr Hs Hover.
    rewrite test_initial_data_integrity_loop.
    erewrite integrity_loop_overshoot; [done|lia|lia|done..].
  - rewrite test_initial_data_integrity_loop.
    apply raises_bind; [apply integrity_loop_raises; lia|].
    intros [c t] _. apply raises_Ok.
Qed.

Lemma test_initial_data_integrity_spec_witness :
  DmapRead.test_initial_data_integrity corrupt_size_bytes 0
  = Err MismatchByteError.
Proof.
  refine (proj1 (proj2 (proj2 (proj2
            (test_initial_data_integrity_spec corrupt_size_bytes))))
            [58] 58 59 _ _ _ _).
  - vm_compute. repeat split; reflexivity.
  - vm_compute. reflexivity.
  - lia.
  - vm_compute. reflexivity.
Defined.

(** C5 as stated fails: with the block size of the last of two records
    raised by one, the scan raises [MismatchByteError] ([SizeMismatch]),
    not [DmapDataError] ([CorruptFile]); the two records as they are
    pass. *)
Lemma test_initial_data_integrity_counterexample :
  DmapRead.test_initial_data_integrity two_records_bytes 0 = Ok 0
  ∧ DmapRead.test_initial_data_integrity corrupt_size_bytes 0
    = Err MismatchByteError
  ∧ DmapRead.test_initial_data_integrity corrupt_size_bytes 0
    ≠ Err DmapDataError.
Proof.
  assert (H : DmapRead.test_initial_data_integrity corrupt_size_bytes 0
              = Err MismatchByteError) by (vm_compute; reflexivity).
  split; [vm_compute; reflexivity|]. split; [done|]. by rewrite H.
Qed.

(** ** Arrays and their dimensions *)

(** What an array that [read_array] returns went through. *)
Lemma read_array_inv (buf : bytes) (record_size c : Z) (a : DmapArray.t)
    (c' : Z) :
  DmapRead.read_array buf record_size c = Ok (a, c') →
  ∃ name c1 ty c2 fmt size dim c3 dims c4 value,
    DmapRead.read_name buf c = Ok (name, c1) ∧
    DmapRead.read_type buf c1 = Ok (ty, c2) ∧
    DMAP_DATA_TYPES ty = Some (fmt, size) ∧
    DmapRead.read_int buf c2 = Ok (dim, c3) ∧
    0 < dim ≤ record_size ∧
    DmapRead.read_ints (Z.to_nat dim) buf c3 = Ok (dims, c4) ∧
    (existsb (fun x => x <=? 0) (reverse dims) = false ∨ name = "slist") ∧
    DmapRead.shape_exceeds (reverse dims) record_size = false ∧
    DmapRead.total_cells (reverse dims) ≤ record_size ∧
    DmapRead.total_cells (reverse dims) * size ≤ record_size ∧
    (if bool_decide (fmt = "s") || bool_decide (fmt = "c")
     then DmapRead.read_string_array buf (reverse dims) fmt size c4
     else if ty =? DMAP then Err DmapDataError
     else DmapRead.read_numerical_array buf fmt
            (DmapRead.total_cells (reverse dims)) size c4)
    = Ok (value, c') ∧
    a = DmapArray.Build name value ty fmt dim (reverse dims).
Proof.
  unfold DmapRead.read_array. intros H.
  apply bind_Ok in H as ([name c1] & Hname & H).
  apply bind_Ok in H as ([ty c2] & Hty & H).
  apply bind_Ok in H as ([] & Hck & H).
  apply bind_Ok in H as ([fmt size] & Hentry & H).
  apply bind_Ok in H as ([dim c3] & Hdim & H).
  apply bind_Ok in H as ([] & Hb1 & H).
  apply bind_Ok in H as ([] & Hz & H).
  apply bind_Ok in H as ([dims c4] & Hdims & H).
  apply bind_Ok in H as ([] & Hshape & H).
  apply bind_Ok in H as ([] & Hex & H).
  apply bind_Ok in H as ([] & Hb2 & H).
  apply bind_Ok in H as ([] & Hb3 & H).
  apply bind_Ok in H as ([value c5] & Hval & H).
  injection H as <- <-.
  apply bytes_check_Ok in Hb1, Hb2, Hb3.
  apply zero_negative_check_Ok in Hz.
  unfold DmapRead.type_entry in Hentry.
  destruct (DMAP_DATA_TYPES ty) as [[fmt' size']|] eqn:Htab; [|done].
  injection Hentry as -> ->.
  exists name, c1, ty, c2, fmt, size, dim, c3, dims, c4, value.
  repeat split; try done; try lia.
  - destruct (negb (blen (reverse dims) =? dim)); [done|].
    destruct (existsb _ _); [|by left].
    destruct (bool_decide_reflect (name = "slist")); [by right|done].
  - by destruct (DmapRead.shape_exceeds _ _).
Qed.





(** ** Reading at the end of a prefix *)

Lemma blen_app (x y : bytes) : blen (x ++ y) = blen x + blen y.
Proof. unfold blen. rewrite length_app. lia. Qed.

Lemma blen_nonneg (x : bytes) : 0 ≤ blen x.
Proof. unfold blen. lia. Qed.

Lemma to_nat_blen (x : bytes) : Z.to_nat (blen x) = length x.
Proof. unfold blen. apply Nat2Z.id. Qed.

Lemma drop_blen_app (pre x : bytes) :
  drop (Z.to_nat (blen pre)) (pre ++ x) = x.
Proof. unfold blen. rewrite Nat2Z.id. apply drop_app_length. Qed.

Lemma list_find_nul (sb rest : bytes) :
  Forall (fun b => b ≠ 0) sb →
  list_find (fun b => b = 0) (sb ++ 0 :: rest) = Some (length sb, 0).
Proof.
  induction 1 as [|b sb Hb Hsb IH]; simpl.
  - by destruct (decide (0 = 0)).
  - destruct (decide (b = 0)); [done|]. by rewrite IH.
Qed.

Lemma read_name_at (pre sb rest : bytes) :
  Forall (fun b => b ≠ 0) sb →
  DmapRead.read_name (pre ++ sb ++ 0 :: rest) (blen pre)
  = Ok (bytes_to_string sb, blen (pre ++ sb ++ [0])).
Proof.
  intros Hsb. pose proof (blen_nonneg pre). pose proof (blen_nonneg sb).
  pose proof (blen_nonneg rest).
  assert (Hlen : blen (pre ++ sb ++ 0 :: rest)
                 = blen pre + blen sb + 1 + blen rest).
  { rewrite !blen_app. change (0 :: rest) with ([0] ++ rest).
    rewrite blen_app. change (blen [0]) with 1. lia. }
  unfold DmapRead.read_name, DmapRead.read_data, DmapRead.dmap_end_bytes.
  rewrite Hlen.
  destruct (Z.leb_spec (blen pre + blen sb + 1 + blen rest) (blen pre));
    [lia|].
  destruct (Z.ltb_spec (blen pre + blen sb + 1 + blen rest - blen pre) 1);
    [lia|].
  destruct (decide ("s" = "c")); [done|].
  destruct (decide ("s" = "s")); [|done].
  unfold DmapRead.scan_nul, DmapRead.scanned.
  destruct (Z.ltb_spec (blen pre) 0); [lia|].
  rewrite drop_blen_app, bind_ret.
  rewrite list_find_nul by done. rewrite bind_ret.
  rewrite (proj2 (bytes_check_Ok _ _)) by (unfold blen; lia).
  rewrite bind_ret. unfold unpack_slice. rewrite Hlen.
  destruct (Z.ltb_spec (blen pre) 0); [lia|].
  destruct (Z.ltb_spec (blen pre + blen sb + 1 + blen rest - blen pre)
              (Z.of_nat (length sb))); [unfold blen in *; lia|].
  rewrite drop_blen_app, Nat2Z.id, take_app_length.
  rewrite !bind_ret. cbn [DmapRead.expect_str]. rewrite bind_ret.
  do 2 f_equal.
  rewrite app_assoc, blen_app, blen_app. change (blen [0]) with 1.
  unfold blen. lia.
Qed.

Lemma read_type_at (pre rest : bytes) (ty : Z) :
  DmapRead.read_type (pre ++ ty :: rest) (blen pre)
  = Ok (ty, blen (pre ++ [ty])).
Proof.
  pose proof (blen_nonneg pre). pose proof (blen_nonneg rest).
  assert (Hlen : blen (pre ++ ty :: rest) = blen pre + 1 + blen rest).
  { change (ty :: rest) with ([ty] ++ rest). rewrite !blen_app.
    change (blen [ty]) with 1. lia. }
  unfold DmapRead.read_type, DmapRead.read_data, DmapRead.dmap_end_bytes.
  rewrite Hlen.
  destruct (Z.leb_spec (blen pre + 1 + blen rest) (blen pre)); [lia|].
  destruct (Z.ltb_spec (blen pre + 1 + blen rest - blen pre) 1); [lia|].
  destruct (decide ("c" = "c")); [|done].
  unfold py_getitem.
  destruct (Z.ltb_spec (blen pre) 0); [lia|].
  destruct (Z.ltb_spec (blen pre) 0); [lia|].
  rewrite to_nat_blen.
  rewrite lookup_app_r by lia. rewrite Nat.sub_diag.
  cbn [lookup list_lookup]. rewrite !bind_ret.
  cbn [DmapRead.expect_int]. rewrite bind_ret, blen_app. done.
Qed.

Lemma read_int_at (pre rest : bytes) (b0 b1 b2 b3 : Z) :
  DmapRead.read_int (pre ++ b0 :: b1 :: b2 :: b3 :: rest) (blen pre)
  = Ok (le_signed [b0; b1; b2; b3], blen (pre ++ [b0; b1; b2; b3])).
Proof.
  pose proof (blen_nonneg pre). pose proof (blen_nonneg rest).
  assert (Hlen : blen (pre ++ b0 :: b1 :: b2 :: b3 :: rest)
                 = blen pre + 4 + blen rest).
  { change (b0 :: b1 :: b2 :: b3 :: rest) with ([b0; b1; b2; b3] ++ rest).
    rewrite !blen_app. change (blen [b0; b1; b2; b3]) with 4. lia. }
  rewrite read_int_nonneg by done. rewrite Hlen.
  destruct (Z.ltb_spec (blen pre + 4 + blen rest - blen pre) 4); [lia|].
  rewrite drop_blen_app, blen_app. done.
Qed.

(** An array "slist" of a numerical type with one dimension of length
    zero is read, wherever it stands in the buffer. *)
Lemma read_array_empty_slist (pre post : bytes) (ty record_size : Z) :
  numeric_type ty → 1 ≤ record_size →
  ∃ fmt size,
    DMAP_DATA_TYPES ty = Some (fmt, size) ∧
    DmapRead.read_array (pre ++ empty_slist_wire ty ++ post) record_size
      (blen pre)
    = Ok (DmapArray.Build "slist" (NdArray (DtFmt fmt) []) ty fmt 1 [0],
          blen pre + 15).
Proof.
  intros Hty Hrs.
  assert (Hfmt : ∃ fmt size, DMAP_DATA_TYPES ty = Some (fmt, size)
            ∧ bool_decide (fmt = "s") || bool_decide (fmt = "c") = false
            ∧ (ty =? DMAP) = false).
  { unfold numeric_type in Hty.
    repeat (apply elem_of_cons in Hty as [->|Hty];
            [eexists _, _; repeat split; reflexivity|]).
    by apply elem_of_nil in Hty. }
  destruct Hfmt as (fmt & size & Htab & Hnum & Hnd).
  exists fmt, size. split; [done|].
  set (buf := pre ++ empty_slist_wire ty ++ post).
  set (p1 := pre ++ [115; 108; 105; 115; 116] ++ [0]).
  set (p2 := p1 ++ [ty]).
  set (p3 := p2 ++ [1; 0; 0; 0]).
  set (p4 := p3 ++ [0; 0; 0; 0]).
  assert (Hp4 : buf = p4 ++ post).
  { unfold buf, p4, p3, p2, p1. by rewrite <- !app_assoc. }
  assert (H1 : DmapRead.read_name buf (blen pre) = Ok ("slist", blen p1)).
  { unfold buf, p1.
    change (empty_slist_wire ty ++ post)
      with ([115; 108; 105; 115; 116] ++ 0 :: ty :: [1; 0; 0; 0]
              ++ [0; 0; 0; 0] ++ post).
    rewrite read_name_at; [done|]. repeat constructor; done. }
  assert (H2 : DmapRead.read_type buf (blen p1) = Ok (ty, blen p2)).
  { replace buf with (p1 ++ ty :: [1; 0; 0; 0] ++ [0; 0; 0; 0] ++ post)
      by (unfold buf, p1; by rewrite <- !app_assoc).
    apply read_type_at. }
  assert (H3 : DmapRead.read_int buf (blen p2) = Ok (1, blen p3)).
  { replace buf with (p2 ++ 1 :: 0 :: 0 :: 0 :: [0; 0; 0; 0] ++ post)
      by (unfold buf, p2, p1; by rewrite <- !app_assoc).
    apply read_int_at. }
  assert (H4 : DmapRead.read_int buf (blen p3) = Ok (0, blen p4)).
  { replace buf with (p3 ++ 0 :: 0 :: 0 :: 0 :: post)
      by (unfold buf, p3, p2, p1; by rewrite <- !app_assoc).
    apply read_int_at. }
  assert (Hlen4 : blen p4 = blen pre + 15).
  { unfold p4, p3, p2, p1. rewrite !blen_app.
    change (blen [115; 108; 105; 115; 116]) with 5.
    change (blen [0]) with 1. change (blen [ty]) with 1.
    change (blen [1; 0; 0; 0]) with 4. change (blen [0; 0; 0; 0]) with 4.
    lia. }
  unfold DmapRead.read_array.
  rewrite H1, bind_ret. cbv beta iota.
  rewrite H2, bind_ret. cbv beta iota.
  unfold DmapRead.check_data_type, DmapRead.type_entry.
  rewrite Htab, !bind_ret. cbv beta iota.
  rewrite H3, bind_ret. cbv beta iota.
  rewrite (proj2 (bytes_check_Ok _ _)) by done. rewrite bind_ret.
  rewrite (proj2 (zero_negative_check_Ok _)) by done. rewrite bind_ret.
  change (Z.to_nat 1) with 1%nat. cbn [DmapRead.read_ints].
  rewrite H4, !bind_ret. cbv beta iota. rewrite ?bind_ret.
  change (reverse [0]) with [0].
  change (negb (blen [0] =? 1)) with false.
  change (existsb (λ x : Z, x <=? 0) [0]) with true.
  change (bool_decide ("slist" = "slist")) with true.
  cbn [negb andb]. rewrite bind_ret.
  unfold DmapRead.shape_exceeds. cbn [existsb].
  destruct (Z.leb_spec record_size 0); [lia|]. cbn [orb]. rewrite bind_ret.
  change (DmapRead.total_cells [0]) with 0.
  rewrite (proj2 (bytes_check_Ok _ _)) by lia. rewrite bind_ret.
  rewrite (proj2 (bytes_check_Ok _ _)) by lia. rewrite bind_ret.
  rewrite Hnum, Hnd.
  unfold DmapRead.read_numerical_array, np_frombuffer.
  pose proof (blen_nonneg p4). pose proof (blen_nonneg post).
  rewrite Hp4, blen_app.
  destruct (Z.ltb_spec (blen p4) 0); [lia|].
  destruct (Z.ltb_spec (blen p4 + blen post) (blen p4)); [lia|].
  cbn [orb].
  destruct (Z.ltb_spec (blen p4 + blen post - blen p4) (0 * size)); [lia|].
  change (0 <? 0) with false. cbv iota.
  rewrite bind_ret. rewrite bind_ret. cbv beta iota.
  change (Z.to_nat (0 * size)) with 0%nat.
  rewrite take_0. do 2 f_equal. lia.
Qed.

Lemma chr_encode_utf8_ascii (z : Z) :
  0 ≤ z < 128 → chr_encode_utf8 z = Ok [z].
Proof.
  intros Hz. unfold chr_encode_utf8.
  destruct (Z.ltb_spec z (- 2 ^ 31)); [lia|].
  destruct (Z.ltb_spec (2 ^ 31 - 1) z); [lia|]. cbn [orb].
  destruct (Z.ltb_spec z 0); [lia|].
  destruct (Z.ltb_spec 1114111 z); [lia|]. cbn [orb].
  destruct (Z.ltb_spec z 128); [done|lia].
Qed.

Lemma type_bytes_ascii (ty : Z) :
  0 ≤ ty < 128 → DmapWrite.type_bytes ty = Ok [ty].
Proof.
  intros Hty. unfold DmapWrite.type_bytes, chr_encode_utf8.
  destruct (Z.ltb_spec ty (- 2 ^ 31)); [lia|].
  destruct (Z.ltb_spec (2 ^ 31 - 1) ty); [lia|]. cbn [orb].
  destruct (Z.ltb_spec ty 0); [lia|].
  destruct (Z.ltb_spec 1114111 ty); [lia|]. cbn [orb].
  destruct (Z.ltb_spec ty 128); [done|lia].
Qed.


(** The reader on a dimension of length zero: "slist" is read, the same
    bytes under the name "alist" are refused. *)
Example read_array_empty_slist_run :
  DmapRead.read_array empty_slist_bytes 16 0 = Ok (empty_slist, 15).
Proof. vm_compute. reflexivity. Qed.

Example read_array_empty_alist_run :
  DmapRead.read_array empty_alist_bytes 16 0 = Err PyKeyError.
Proof. vm_compute. reflexivity. Qed.

(** ** Reading from a truncated buffer

    A read that ends within the first [L] bytes of the buffer gives the
    same result on the buffer truncated to [L] bytes. *)

Lemma blen_cut (L : Z) (buf : bytes) :
  0 ≤ L ≤ blen buf → blen (cut L buf) = L.
Proof.
  intros HL. unfold cut, blen in *. rewrite length_take_le by lia. lia.
Qed.

Lemma take_drop_cut (L c : Z) (k : nat) (buf : bytes) :
  0 ≤ c → c + Z.of_nat k ≤ L →
  take k (drop (Z.to_nat c) (cut L buf)) = take k (drop (Z.to_nat c) buf).
Proof.
  intros Hc HL. unfold cut.
  rewrite !take_drop_commute, take_take. do 2 f_equal. lia.
Qed.

Lemma lookup_cut (L c : Z) (buf : bytes) :
  0 ≤ c < L → cut L buf !! Z.to_nat c = buf !! Z.to_nat c.
Proof. intros Hc. unfold cut. apply lookup_take_lt. lia. Qed.

Lemma list_find_take (l : bytes) (m k : nat) (x : Z) :
  list_find (fun b => b = 0) l = Some (k, x) → (k < m)%nat →
  list_find (fun b => b = 0) (take m l) = Some (k, x).
Proof.
  intros (Hl & Hx & Hmin)%list_find_Some Hk. apply list_find_Some.
  split; [by rewrite lookup_take_lt|]. split; [done|].
  intros j y Hj Hjk. apply (Hmin j y); [|done].
  rewrite lookup_take_lt in Hj by lia. done.
Qed.

Lemma read_int_cut (buf : bytes) (L c v c' : Z) :
  0 ≤ c → DmapRead.read_int buf c = Ok (v, c') →
  c' = c + 4
  ∧ (c' ≤ L ≤ blen buf → DmapRead.read_int (cut L buf) c = Ok (v, c')).
Proof.
  intros Hc H. rewrite read_int_nonneg in H by done.
  destruct (Z.ltb_spec (blen buf - c) 4); [done|].
  injection H as <- <-. split; [done|]. intros HL.
  rewrite read_int_nonneg by done. rewrite blen_cut by lia.
  destruct (Z.ltb_spec (L - c) 4); [lia|].
  by rewrite (take_drop_cut L c 4) by lia.
Qed.

Lemma read_type_cut (buf : bytes) (L c v c' : Z) :
  0 ≤ c → DmapRead.read_type buf c = Ok (v, c') →
  c' = c + 1
  ∧ (c' ≤ L ≤ blen buf → DmapRead.read_type (cut L buf) c = Ok (v, c')).
Proof.
  intros Hc H. pose proof H as (-> & Hb & Hget)%read_type_inv.
  split; [done|]. intros HL.
  unfold DmapRead.read_type, DmapRead.read_data, DmapRead.dmap_end_bytes.
  rewrite blen_cut by lia.
  destruct (Z.leb_spec L c); [lia|].
  destruct (Z.ltb_spec (L - c) 1); [lia|].
  destruct (decide ("c" = "c")); [|done].
  assert (py_getitem (cut L buf) c = Ok v) as ->; [|done].
  revert Hget. unfold py_getitem.
  destruct (Z.ltb_spec c 0); [lia|].
  destruct (Z.ltb_spec c 0); [lia|].
  by rewrite lookup_cut by lia.
Qed.

Lemma read_name_cut (buf : bytes) (L c c' : Z) (v : string) :
  0 ≤ c → DmapRead.read_name buf c = Ok (v, c') →
  c < c'
  ∧ (c' ≤ L ≤ blen buf → DmapRead.read_name (cut L buf) c = Ok (v, c')).
Proof.
  intros Hc. unfold DmapRead.read_name, DmapRead.read_data,
    DmapRead.dmap_end_bytes.
  destruct (Z.leb_spec (blen buf) c); [done|].
  destruct (Z.ltb_spec (blen buf - c) 1); [done|].
  destruct (decide ("s" = "c")); [done|].
  destruct (decide ("s" = "s")); [|done].
  unfold DmapRead.scan_nul, DmapRead.scanned.
  destruct (Z.ltb_spec c 0); [lia|]. rewrite bind_ret.
  destruct (list_find _ (drop _ buf)) as [[k x]|] eqn:Hfind; [|done].
  rewrite bind_ret. intros Hrd.
  apply bind_Ok in Hrd as ([s c1] & Hrd & Hs).
  apply bind_Ok in Hrd as ([] & Hbc & Hrd).
  apply bind_Ok in Hrd as (data & Hdata & Hrd). injection Hrd as <- <-.
  cbn [DmapRead.expect_str] in Hs. rewrite bind_ret in Hs.
  injection Hs as <- <-. split; [lia|]. intros HL.
  rewrite blen_cut by lia.
  destruct (Z.leb_spec L c); [lia|].
  destruct (Z.ltb_spec (L - c) 1); [lia|].
  rewrite bind_ret.
  assert (Hdrop : drop (Z.to_nat c) (cut L buf)
                  = take (Z.to_nat (L - c)) (drop (Z.to_nat c) buf)).
  { unfold cut. rewrite take_drop_commute. do 2 f_equal. lia. }
  rewrite Hdrop, (list_find_take _ _ k x Hfind) by lia.
  rewrite bind_ret.
  rewrite (proj2 (bytes_check_Ok _ _)) by lia. rewrite bind_ret.
  revert Hdata. unfold unpack_slice.
  destruct (Z.ltb_spec c 0); [lia|]. rewrite blen_cut by lia.
  destruct (Z.ltb_spec (blen buf - c) (Z.of_nat k)); [done|].
  destruct (Z.ltb_spec (L - c) (Z.of_nat k)); [lia|].
  intros [= <-]. rewrite bind_ret, Nat2Z.id.
  by rewrite (take_drop_cut L c k) by lia.
Qed.

Lemma read_name_data (buf : bytes) (c c' : Z) (v : pyval) :
  DmapRead.read_data buf "s" 1 c = Ok (v, c') →
  ∃ s, v = VStr s ∧ DmapRead.read_name buf c = Ok (s, c').
Proof.
  intros H. unfold DmapRead.read_name. rewrite H, bind_ret.
  revert H. unfold DmapRead.read_data.
  destruct (_ <=? _); [done|]. destruct (_ <? _); [done|].
  destruct (decide ("s" = "c")); [done|].
  destruct (decide ("s" = "s")); [|done].
  intros H. apply bind_Ok in H as (k & _ & H).
  apply bind_Ok in H as ([] & _ & H).
  apply bind_Ok in H as (data & _ & H). injection H as <- <-.
  by eexists.
Qed.

Lemma read_type_data (buf : bytes) (c c' : Z) (v : pyval) :
  DmapRead.read_data buf "c" 1 c = Ok (v, c') →
  ∃ z, v = VInt z ∧ DmapRead.read_type buf c = Ok (z, c').
Proof.
  intros H. unfold DmapRead.read_type. rewrite H, bind_ret.
  revert H. unfold DmapRead.read_data.
  destruct (_ <=? _); [done|]. destruct (_ <? _); [done|].
  destruct (decide ("c" = "c")); [|done].
  intros H. apply bind_Ok in H as (data & _ & H). injection H as <- <-.
  by eexists.
Qed.

Lemma read_name_data_inv (buf : bytes) (c c' : Z) (s : string) :
  DmapRead.read_name buf c = Ok (s, c') →
  DmapRead.read_data buf "s" 1 c = Ok (VStr s, c').
Proof.
  unfold DmapRead.read_name. intros H.
  apply bind_Ok in H as ([v c1] & Hd & H).
  destruct (read_name_data _ _ _ _ Hd) as (s' & -> & _).
  cbn [DmapRead.expect_str] in H. rewrite bind_ret in H.
  by injection H as <- <-.
Qed.

Lemma read_type_data_inv (buf : bytes) (c c' z : Z) :
  DmapRead.read_type buf c = Ok (z, c') →
  DmapRead.read_data buf "c" 1 c = Ok (VInt z, c').
Proof.
  unfold DmapRead.read_type. intros H.
  apply bind_Ok in H as ([v c1] & Hd & H).
  destruct (read_type_data _ _ _ _ Hd) as (z' & -> & _).
  cbn [DmapRead.expect_int] in H. rewrite bind_ret in H.
  by injection H as <- <-.
Qed.

Lemma unpack_slice_cut (buf : bytes) (L c n : Z) :
  0 ≤ c → 0 ≤ n → c + n ≤ L ≤ blen buf →
  unpack_slice n (cut L buf) c = unpack_slice n buf c.
Proof.
  intros Hc Hn HL. unfold unpack_slice. rewrite blen_cut by lia.
  destruct (Z.ltb_spec c 0); [lia|].
  destruct (Z.ltb_spec (L - c) n), (Z.ltb_spec (blen buf - c) n); try lia.
  by rewrite (take_drop_cut L c (Z.to_nat n)) by lia.
Qed.

(** The formats that [read_data] hands to [struct]. *)
Lemma read_data_struct_cut (buf : bytes) (L c c' n : Z) (fmt : string)
    (v : pyval) :
  calcsize fmt = Some n → fmt ≠ "c" → fmt ≠ "s" → 0 ≤ n →
  0 ≤ c → DmapRead.read_data buf fmt n c = Ok (v, c') →
  c ≤ c'
  ∧ (c' ≤ L ≤ blen buf → DmapRead.read_data (cut L buf) fmt n c = Ok (v, c')).
Proof.
  intros Hcalc Hnc Hns Hn Hc.
  unfold DmapRead.read_data, DmapRead.dmap_end_bytes.
  destruct (Z.leb_spec (blen buf) c); [done|].
  destruct (Z.ltb_spec (blen buf - c) n); [done|].
  destruct (decide (fmt = "c")); [done|].
  destruct (decide (fmt = "s")); [done|].
  intros Hrd. pose proof Hrd as Hrd'.
  apply bind_Ok in Hrd' as (data & _ & Hrd').
  apply bind_Ok in Hrd' as (d0 & _ & Hrd'). injection Hrd' as <- <-.
  split; [lia|]. intros HL. rewrite blen_cut by lia.
  destruct (Z.leb_spec L c).
  { exfalso. assert (n = 0) as -> by lia.
    revert Hrd. unfold struct_unpack_from. rewrite Hcalc.
    destruct (unpack_slice 0 buf c) as [raw|]; [|done]. rewrite bind_ret.
    revert Hcalc. unfold calcsize.
    repeat (destruct (decide _); [try done; (by intros [=])|]). done. }
  destruct (Z.ltb_spec (L - c) n); [lia|].
  revert Hrd. unfold struct_unpack_from. rewrite Hcalc.
  by rewrite unpack_slice_cut by lia.
Qed.

(** Reading a value of a DMAP type. *)
Lemma read_data_cut (buf : bytes) (L ty c c' n : Z) (fmt : string)
    (v : pyval) :
  DMAP_DATA_TYPES ty = Some (fmt, n) →
  0 ≤ c → DmapRead.read_data buf fmt n c = Ok (v, c') →
  c ≤ c'
  ∧ (c' ≤ L ≤ blen buf → DmapRead.read_data (cut L buf) fmt n c = Ok (v, c')).
Proof.
  intros Htab Hc H.
  assert (Hcases : (fmt = "c" ∧ n = 1) ∨ (fmt = "s" ∧ n = 1)
            ∨ (calcsize fmt = Some n ∧ fmt ≠ "c" ∧ fmt ≠ "s" ∧ 0 ≤ n)).
  { revert Htab. unfold DMAP_DATA_TYPES.
    repeat (destruct (decide _);
            [intros [= <- <-]; (by left) || (by right; left)
                               || (by right; right)|]). done. }
  destruct Hcases as [[-> ->]|[[-> ->]|(Hcalc & Hnc & Hns & Hn)]].
  - destruct (read_type_data _ _ _ _ H) as (z & -> & Ht).
    destruct (read_type_cut buf L c z c' Hc Ht) as [-> Hcut].
    split; [lia|]. intros HL. by apply read_type_data_inv, Hcut.
  - destruct (read_name_data _ _ _ _ H) as (s & -> & Ht).
    destruct (read_name_cut buf L c c' s Hc Ht) as [Hlt Hcut].
    split; [lia|]. intros HL. by apply read_name_data_inv, Hcut.
  - by apply read_data_struct_cut.
Qed.

Lemma read_scalar_cut (buf : bytes) (L c c' : Z) (s : DmapScalar.t) :
  0 ≤ c → DmapRead.read_scalar buf c = Ok (s, c') →
  c < c'
  ∧ (c' ≤ L ≤ blen buf → DmapRead.read_scalar (cut L buf) c = Ok (s, c')).
Proof.
  intros Hc. unfold DmapRead.read_scalar. intros Hrd.
  apply bind_Ok in Hrd as ([name c1] & Hname & Hrd).
  apply bind_Ok in Hrd as ([ty c2] & Hty & Hrd).
  apply bind_Ok in Hrd as ([] & Hck & Hrd).
  apply bind_Ok in Hrd as ([fmt n] & Hentry & Hrd).
  cbn [str_ne_int] in Hrd.
  apply bind_Ok in Hrd as ([v c3] & Hval & Hrd). injection Hrd as <- <-.
  destruct (read_name_cut buf L c c1 name Hc Hname) as [Hlt1 Hcut1].
  destruct (read_type_cut buf L c1 ty c2 ltac:(lia) Hty) as [-> Hcut2].
  assert (Htab : DMAP_DATA_TYPES ty = Some (fmt, n)).
  { revert Hentry. unfold DmapRead.type_entry.
    destruct (DMAP_DATA_TYPES ty); [by intros [= ->]|done]. }
  destruct (read_data_cut buf L ty (c1 + 1) c3 n fmt v Htab ltac:(lia) Hval)
    as [Hle3 Hcut3].
  split; [lia|]. intros HL.
  rewrite Hcut1, bind_ret by lia. rewrite Hcut2, bind_ret by lia.
  rewrite Hck, bind_ret, Hentry, bind_ret. cbn [str_ne_int].
  by rewrite Hcut3, bind_ret by lia.
Qed.

Lemma read_ints_cut (n : nat) (buf : bytes) (L c c' : Z) (xs : list Z) :
  0 ≤ c → DmapRead.read_ints n buf c = Ok (xs, c') →
  c ≤ c'
  ∧ (c' ≤ L ≤ blen buf → DmapRead.read_ints n (cut L buf) c = Ok (xs, c')).
Proof.
  revert c xs. induction n as [|n IH]; intros c xs Hc; cbn [DmapRead.read_ints].
  - intros [= <- <-]. split; [lia|done].
  - intros Hrd. apply bind_Ok in Hrd as ([x c1] & Hx & Hrd).
    apply bind_Ok in Hrd as ([ys c2] & Hys & Hrd). injection Hrd as <- <-.
    destruct (read_int_cut buf L c x c1 Hc Hx) as [-> Hcut1].
    destruct (IH (c + 4) ys ltac:(lia) Hys) as [Hle Hcut2].
    split; [lia|]. intros HL.
    rewrite Hcut1, bind_ret by lia. by rewrite Hcut2, bind_ret by lia.
Qed.

Lemma read_items_cut (n : nat) (buf : bytes) (L ty size c c' : Z)
    (fmt : string) (data data' : list pyval) :
  DMAP_DATA_TYPES ty = Some (fmt, size) →
  0 ≤ c → DmapRead.read_items n buf fmt size data c = Ok (data', c') →
  c ≤ c'
  ∧ (c' ≤ L ≤ blen buf →
     DmapRead.read_items n (cut L buf) fmt size data c = Ok (data', c')).
Proof.
  intros Htab. revert c data.
  induction n as [|n IH]; intros c data Hc; cbn [DmapRead.read_items].
  - intros [= <- <-]. split; [lia|done].
  - intros Hrd. apply bind_Ok in Hrd as ([v c1] & Hv & Hrd).
    destruct (read_data_cut buf L ty c c1 size fmt v Htab Hc Hv)
      as [Hle1 Hcut1].
    destruct (IH c1 (data ++ [v]) ltac:(lia) Hrd) as [Hle Hcut2].
    split; [lia|]. intros HL.
    rewrite Hcut1, bind_ret by lia. by apply Hcut2.
Qed.

Lemma read_string_items_cut (shape : list Z) (buf : bytes)
    (L ty size c c' : Z) (fmt : string) (data data' : list pyval) :
  DMAP_DATA_TYPES ty = Some (fmt, size) →
  0 ≤ c →
  DmapRead.read_string_items shape buf fmt size data c = Ok (data', c') →
  c ≤ c'
  ∧ (c' ≤ L ≤ blen buf →
     DmapRead.read_string_items shape (cut L buf) fmt size data c
     = Ok (data', c')).
Proof.
  intros Htab. revert c data.
  induction shape as [|d shape IH]; intros c data Hc;
    cbn [DmapRead.read_string_items].
  - intros [= <- <-]. split; [lia|done].
  - intros Hrd. apply bind_Ok in Hrd as ([data1 c1] & Hit & Hrd).
    destruct (read_items_cut _ buf L ty size c c1 fmt data data1 Htab Hc Hit)
      as [Hle1 Hcut1].
    destruct (IH c1 data1 ltac:(lia) Hrd) as [Hle Hcut2].
    split; [lia|]. intros HL.
    rewrite Hcut1, bind_ret by lia. by apply Hcut2.
Qed.

Lemma read_string_array_cut (buf : bytes) (shape : list Z)
    (L ty size c c' : Z) (fmt : string) (value : ndarray) :
  DMAP_DATA_TYPES ty = Some (fmt, size) →
  0 ≤ c →
  DmapRead.read_string_array buf shape fmt size c = Ok (value, c') →
  c ≤ c'
  ∧ (c' ≤ L ≤ blen buf →
     DmapRead.read_string_array (cut L buf) shape fmt size c
     = Ok (value, c')).
Proof.
  intros Htab Hc. unfold DmapRead.read_string_array. intros Hrd.
  apply bind_Ok in Hrd as ([data c1] & Hit & Hrd).
  apply bind_Ok in Hrd as (a & Ha & Hrd). injection Hrd as <- <-.
  destruct (read_string_items_cut shape buf L ty size c c1 fmt [] data
              Htab Hc Hit) as [Hle Hcut].
  split; [done|]. intros HL.
  rewrite Hcut, bind_ret by done. by rewrite Ha, bind_ret.
Qed.

Lemma read_numerical_array_cut (buf : bytes) (L size total c c' : Z)
    (fmt : string) (value : ndarray) :
  0 ≤ size → 0 ≤ total → 0 ≤ c →
  DmapRead.read_numerical_array buf fmt total size c = Ok (value, c') →
  c ≤ c'
  ∧ (c' ≤ L ≤ blen buf →
     DmapRead.read_numerical_array (cut L buf) fmt total size c
     = Ok (value, c')).
Proof.
  intros Hsize Htotal Hc. unfold DmapRead.read_numerical_array, np_frombuffer.
  destruct (Z.ltb_spec c 0); [lia|].
  destruct (Z.ltb_spec (blen buf) c); [done|]. cbn [orb].
  destruct (Z.ltb_spec total 0); [lia|].
  destruct (Z.ltb_spec (blen buf - c) (total * size)); [done|].
  rewrite bind_ret. intros [= <- <-]. split; [nia|]. intros HL.
  rewrite blen_cut by nia.
  destruct (Z.ltb_spec L c); [nia|]. cbn [orb].
  destruct (Z.ltb_spec (L - c) (total * size)); [lia|].
  rewrite bind_ret.
  by rewrite (take_drop_cut L c (Z.to_nat (total * size))) by nia.
Qed.

Lemma foldl_mul_nonneg (shape : list Z) (acc : Z) :
  0 ≤ acc → Forall (fun x => 0 ≤ x) shape → 0 ≤ foldl Z.mul acc shape.
Proof.
  intros Hacc Hs. revert acc Hacc.
  induction Hs as [|x shape Hx Hs IH]; intros acc Hacc; simpl; [done|].
  apply IH. nia.
Qed.

Lemma total_cells_nonneg (shape : list Z) :
  Forall (fun x => 0 ≤ x) shape → 0 ≤ DmapRead.total_cells shape.
Proof. intros Hs. unfold DmapRead.total_cells. by apply foldl_mul_nonneg. Qed.

Lemma DMAP_DATA_TYPES_size (ty size : Z) (fmt : string) :
  DMAP_DATA_TYPES ty = Some (fmt, size) → 0 ≤ size.
Proof.
  unfold DMAP_DATA_TYPES.
  repeat (destruct (decide _); [intros [= <- <-]; lia|]). done.
Qed.

Lemma read_array_cut (buf : bytes) (L record_size c c' : Z) (a : DmapArray.t) :
  0 ≤ c → DmapRead.read_array buf record_size c = Ok (a, c') →
  Forall (fun x => 0 ≤ x) (DmapArray.shape a) →
  c < c'
  ∧ (c' ≤ L ≤ blen buf →
     DmapRead.read_array (cut L buf) record_size c = Ok (a, c')).
Proof.
  intros Hc Hrd Hshape0. unfold DmapRead.read_array in Hrd.
  apply bind_Ok in Hrd as ([name c1] & Hname & Hrd).
  apply bind_Ok in Hrd as ([ty c2] & Hty & Hrd).
  apply bind_Ok in Hrd as ([] & Hck & Hrd).
  apply bind_Ok in Hrd as ([fmt size] & Hentry & Hrd).
  apply bind_Ok in Hrd as ([dim c3] & Hdim & Hrd).
  apply bind_Ok in Hrd as ([] & Hb1 & Hrd).
  apply bind_Ok in Hrd as ([] & Hz & Hrd).
  apply bind_Ok in Hrd as ([dims c4] & Hdims & Hrd).
  apply bind_Ok in Hrd as ([] & Hshape & Hrd).
  apply bind_Ok in Hrd as ([] & Hex & Hrd).
  apply bind_Ok in Hrd as ([] & Hb2 & Hrd).
  apply bind_Ok in Hrd as ([] & Hb3 & Hrd).
  apply bind_Ok in Hrd as ([value c5] & Hval & Hrd).
  injection Hrd as <- <-. cbn [DmapArray.shape] in Hshape0.
  assert (Htab : DMAP_DATA_TYPES ty = Some (fmt, size)).
  { revert Hentry. unfold DmapRead.type_entry.
    destruct (DMAP_DATA_TYPES ty); [by intros [= ->]|done]. }
  destruct (read_name_cut buf L c c1 name Hc Hname) as [Hlt1 Hcut1].
  destruct (read_type_cut buf L c1 ty c2 ltac:(lia) Hty) as [-> Hcut2].
  destruct (read_int_cut buf L (c1 + 1) dim c3 ltac:(lia) Hdim) as [-> Hcut3].
  destruct (read_ints_cut _ buf L (c1 + 1 + 4) c4 dims ltac:(lia) Hdims)
    as [Hle4 Hcut4].
  assert (Hvalue : c4 ≤ c5 ∧ (c5 ≤ L ≤ blen buf →
    (if bool_decide (fmt = "s") || bool_decide (fmt = "c")
     then DmapRead.read_string_array (cut L buf) (reverse dims) fmt size c4
     else if ty =? DMAP then Err DmapDataError
     else DmapRead.read_numerical_array (cut L buf) fmt
            (DmapRead.total_cells (reverse dims)) size c4)
    = Ok (value, c5))).
  { revert Hval.
    destruct (bool_decide (fmt = "s") || bool_decide (fmt = "c")).
    - intros Hval.
      apply (read_string_array_cut buf (reverse dims) L ty size c4 c5 fmt);
        (done || lia).
    - destruct (ty =? DMAP); [done|]. intros Hval.
      apply read_numerical_array_cut; try done; try lia.
      + by apply (DMAP_DATA_TYPES_size ty size fmt).
      + by apply total_cells_nonneg. }
  destruct Hvalue as [Hle5 Hcut5].
  split; [lia|]. intros HL. unfold DmapRead.read_array.
  rewrite Hcut1, bind_ret by lia. rewrite Hcut2, bind_ret by lia.
  rewrite Hck, bind_ret, Hentry, bind_ret.
  rewrite Hcut3, bind_ret by lia.
  rewrite Hb1, bind_ret, Hz, bind_ret.
  rewrite Hcut4, bind_ret by lia.
  cbv zeta. rewrite Hshape, bind_ret, Hex, bind_ret, Hb2, bind_ret.
  rewrite Hb3, bind_ret. by rewrite Hcut5, bind_ret by lia.
Qed.

Lemma read_scalars_cut (n : nat) (buf : bytes) (L c c' : Z)
    (r0 r : DmapRecord) :
  0 ≤ c → DmapRead.read_scalars n buf r0 c = Ok (r, c') →
  c ≤ c'
  ∧ (c' ≤ L ≤ blen buf →
     DmapRead.read_scalars n (cut L buf) r0 c = Ok (r, c')).
Proof.
  revert c r0. induction n as [|n IH]; intros c r0 Hc;
    cbn [DmapRead.read_scalars].
  - intros [= <- <-]. split; [lia|done].
  - intros Hrd. apply bind_Ok in Hrd as ([s c1] & Hs & Hrd).
    destruct (read_scalar_cut buf L c c1 s Hc Hs) as [Hlt Hcut1].
    destruct (IH c1 _ ltac:(lia) Hrd) as [Hle Hcut2].
    split; [lia|]. intros HL.
    rewrite Hcut1, bind_ret by lia. by apply Hcut2.
Qed.

(** ** The arrays of a record that is read *)

Lemma arrays_of_od_set (r : DmapRecord) (k : string) (a : DmapArray.t) :
  a ∈ arrays_of (od_set r k (Array a))
  ∧ (length (arrays_of (od_set r k (Array a))) ≤ length (arrays_of r) + 1)%nat
  ∧ (length (arrays_of (od_set r k (Array a))) = length (arrays_of r) + 1
     → ∀ x, x ∈ arrays_of r → x ∈ arrays_of (od_set r k (Array a)))%nat.
Proof.
  induction r as [|[k' v'] r (IHin & IHle & IHsub)]; cbn [od_set].
  - split; [apply elem_of_cons; by left|]. split; [done|].
    intros _ x Hx. by apply elem_of_nil in Hx.
  - destruct (decide (k' = k)) as [->|Hne].
    + unfold arrays_of. cbn [omap list_omap snd].
      fold (arrays_of r). destruct v' as [s|a'].
      * split; [apply elem_of_cons; by left|]. split; [simpl; lia|].
        intros _ x Hx. apply elem_of_cons. by right.
      * split; [apply elem_of_cons; by left|]. split; [simpl; lia|].
        simpl. lia.
    + unfold arrays_of. cbn [omap list_omap snd].
      fold (arrays_of r). fold (arrays_of (od_set r k (Array a))).
      destruct v' as [s|a'].
      * done.
      * split; [apply elem_of_cons; by right|]. split; [simpl; lia|].
        simpl. intros Hlen x [->|Hx]%elem_of_cons;
          apply elem_of_cons; [by left|right].
        apply IHsub; [lia|done].
Qed.

Lemma read_arrays_count (n : nat) (buf : bytes) (block_size c c' : Z)
    (r0 r : DmapRecord) :
  DmapRead.read_arrays n buf block_size r0 c = Ok (r, c') →
  (length (arrays_of r) ≤ length (arrays_of r0) + n)%nat
  ∧ (length (arrays_of r) = length (arrays_of r0) + n →
     ∀ x, x ∈ arrays_of r0 → x ∈ arrays_of r)%nat.
Proof.
  revert c r0. induction n as [|n IH]; intros c r0;
    cbn [DmapRead.read_arrays].
  - intros [= <- <-]. split; [lia|done].
  - intros Hrd. apply bind_Ok in Hrd as ([a c1] & Ha & Hrd).
    destruct (IH _ _ Hrd) as [Hle Hsub].
    destruct (arrays_of_od_set r0 (DmapArray.name a) a) as (_ & Hle1 & Hsub1).
    split; [lia|]. intros Hlen x Hx.
    apply Hsub; [lia|]. apply Hsub1; [lia|done].
Qed.

Lemma read_arrays_cut (n : nat) (buf : bytes) (L block_size c c' : Z)
    (r0 r : DmapRecord) :
  0 ≤ c → DmapRead.read_arrays n buf block_size r0 c = Ok (r, c') →
  (length (arrays_of r) = length (arrays_of r0) + n)%nat →
  Forall (fun a => Forall (fun x => 0 ≤ x) (DmapArray.shape a))
    (arrays_of r) →
  c ≤ c'
  ∧ (c' ≤ L ≤ blen buf →
     DmapRead.read_arrays n (cut L buf) block_size r0 c = Ok (r, c')).
Proof.
  revert c r0. induction n as [|n IH]; intros c r0 Hc;
    cbn [DmapRead.read_arrays].
  - intros [= <- <-]. split; [lia|done].
  - intros Hrd Hlen Hplain.
    apply bind_Ok in Hrd as ([a c1] & Ha & Hrd).
    destruct (read_arrays_count _ _ _ _ _ _ _ Hrd) as [Hle Hsub].
    destruct (arrays_of_od_set r0 (DmapArray.name a) a) as (Hin & Hle1 & _).
    assert (Hshape : Forall (fun x => 0 ≤ x) (DmapArray.shape a)).
    { rewrite Forall_forall in Hplain. apply Hplain, Hsub; [lia|done]. }
    destruct (read_array_cut buf L block_size c c1 a Hc Ha Hshape)
      as [Hlt Hcut1].
    destruct (IH c1 _ ltac:(lia) Hrd ltac:(lia) Hplain) as [Hle2 Hcut2].
    split; [lia|]. intros HL.
    rewrite Hcut1, bind_ret by lia. by apply Hcut2.
Qed.

Lemma arrays_of_od_set_scalar (r : DmapRecord) (k : string) (s : DmapScalar.t) :
  arrays_of r = [] → arrays_of (od_set r k (Scalar s)) = [].
Proof.
  induction r as [|[k' v'] r IH]; cbn [od_set]; [done|].
  unfold arrays_of. cbn [omap list_omap snd]. fold (arrays_of r).
  destruct v' as [s'|a']; [|done]. intros Hr.
  destruct (decide (k' = k)) as [->|Hne].
  - cbn [omap list_omap snd]. by fold (arrays_of r).
  - cbn [omap list_omap snd]. fold (arrays_of (od_set r k (Scalar s))).
    by apply IH.
Qed.

Lemma read_scalars_arrays (n : nat) (buf : bytes) (c c' : Z)
    (r0 r : DmapRecord) :
  DmapRead.read_scalars n buf r0 c = Ok (r, c') →
  arrays_of r0 = [] → arrays_of r = [].
Proof.
  revert c r0. induction n as [|n IH]; intros c r0;
    cbn [DmapRead.read_scalars].
  - by intros [= <- <-].
  - intros Hrd Hr0. apply bind_Ok in Hrd as ([s c1] & Hs & Hrd).
    apply (IH _ _ Hrd). by apply arrays_of_od_set_scalar.
Qed.

(** The steps of [read_record], put together. *)
Lemma read_record_intro (buf : bytes)
    (cursor block_size c1 num_scalars c2 num_arrays c3 c4 c5 : Z)
    (r1 r2 : DmapRecord) :
  DmapRead.read_int buf (cursor + 4) = Ok (block_size, c1) →
  0 < block_size ≤ DmapRead.dmap_end_bytes buf - c1 + 8 →
  DmapRead.read_int buf c1 = Ok (num_scalars, c2) →
  DmapRead.read_int buf c2 = Ok (num_arrays, c3) →
  0 < num_scalars → 0 < num_arrays →
  num_scalars + num_arrays ≤ block_size →
  DmapRead.read_scalars (Z.to_nat num_scalars) buf [] c3 = Ok (r1, c4) →
  DmapRead.read_arrays (Z.to_nat num_arrays) buf block_size r1 c4
    = Ok (r2, c5) →
  c5 - cursor = block_size →
  DmapRead.read_record buf cursor = Ok (r2, c5).
Proof.
  intros H1 [Hpos Hrem] H2 H3 Hs Ha Hsum H4 H5 Hend.
  unfold DmapRead.read_record. rewrite H1, bind_ret.
  change (2 * DmapRead.INT_bytes) with 8.
  rewrite (proj2 (bytes_check_Ok _ _) Hrem), bind_ret.
  rewrite (proj2 (zero_negative_check_Ok _) Hpos), bind_ret.
  rewrite H2, bind_ret, H3, bind_ret.
  rewrite (proj2 (zero_negative_check_Ok _) Hs), bind_ret.
  rewrite (proj2 (zero_negative_check_Ok _) Ha), bind_ret.
  rewrite (proj2 (bytes_check_Ok _ _) Hsum), bind_ret.
  rewrite H4, bind_ret, H5, bind_ret.
  destruct (Z.eqb_spec (c5 - cursor) block_size); [done|lia].
Qed.

(** A plain record that ends within the first [L] bytes is read from
    the truncated buffer as it is from the whole buffer. *)
Lemma read_record_cut (buf : bytes) (L c c' : Z) (r : DmapRecord) :
  0 ≤ c → DmapRead.read_record buf c = Ok (r, c') →
  plain_record buf c r →
  c + 16 ≤ c'
  ∧ (c' ≤ L ≤ blen buf →
     DmapRead.read_record (cut L buf) c = Ok (r, c')
     ∧ plain_record (cut L buf) c r).
Proof.
  intros Hc Hrd [Hcount Hshapes].
  apply read_record_inv in Hrd
    as (bs & c1 & ns & c2 & na & c3 & r1 & c4 & H1 & Hrem & Hpos & H2 & H3
        & Hs & Ha & Hsum & H4 & H5 & Hend).
  destruct (read_int_cut buf L (c + 4) bs c1 ltac:(lia) H1) as [E1 Hcut1].
  destruct (read_int_cut buf L c1 ns c2 ltac:(lia) H2) as [E2 Hcut2].
  destruct (read_int_cut buf L c2 na c3 ltac:(lia) H3) as [E3 Hcut3].
  assert (c2 = c + 12) as -> by lia.
  rewrite Hcount in H3. injection H3 as Hna Hc3.
  destruct (read_scalars_cut _ buf L c3 c4 [] r1 ltac:(lia) H4)
    as [Hle4 Hcut4].
  pose proof (read_scalars_arrays _ _ _ _ _ _ H4 eq_refl) as Hr1.
  assert (Hlen : (length (arrays_of r)
                  = length (arrays_of r1) + Z.to_nat na)%nat).
  { rewrite Hr1. simpl. lia. }
  destruct (read_arrays_cut _ buf L bs c4 c' r1 r ltac:(lia) H5 Hlen Hshapes)
    as [Hle5 Hcut5].
  split; [lia|]. intros HL.
  assert (Hcount' : DmapRead.read_int (cut L buf) (c + 12)
                    = Ok (Z.of_nat (length (arrays_of r)), c + 16)).
  { rewrite Hna, Hc3. apply Hcut3. lia. }
  split; [|by split].
  apply (read_record_intro (cut L buf) c bs c1 ns (c + 12) na c3 c4 c' r1 r);
    try done; try lia.
  - apply Hcut1. lia.
  - unfold DmapRead.dmap_end_bytes. rewrite blen_cut by lia. lia.
  - apply Hcut2. lia.
  - apply Hcut3. lia.
  - apply Hcut4. lia.
  - apply Hcut5. lia.
Qed.

(** A record that the truncation cuts short is refused with
    [CursorError] or [MismatchByteError]. *)
Lemma read_record_short (buf : bytes) (L c : Z) :
  0 ≤ c < L → L ≤ blen buf →
  (L < c + 8
   ∨ ∃ block_size,
       DmapRead.read_int buf (c + 4) = Ok (block_size, c + 8)
       ∧ L < c + block_size) →
  DmapRead.read_record (cut L buf) c = Err CursorError
  ∨ DmapRead.read_record (cut L buf) c = Err MismatchByteError.
Proof.
  intros Hc HL Hshort. unfold DmapRead.read_record.
  unfold DmapRead.dmap_end_bytes.
  rewrite read_int_nonneg by lia. rewrite !blen_cut by lia.
  destruct (Z.ltb_spec (L - (c + 4)) 4) as [|Hlong]; [by left|].
  destruct Hshort as [|(bs & Hbs & Hlt)]; [lia|].
  rewrite read_int_nonneg in Hbs by lia.
  destruct (Z.ltb_spec (blen buf - (c + 4)) 4); [done|].
  injection Hbs as Hbs. rewrite bind_ret.
  rewrite (take_drop_cut L (c + 4) 4) by lia. rewrite Hbs.
  change (2 * DmapRead.INT_bytes) with 8.
  rewrite bytes_check_Err by lia. by right.
Qed.

Lemma record_chain_cut (buf : bytes) (L c s : Z) (records : list DmapRecord) :
  0 ≤ c → record_chain buf c records s →
  c ≤ s
  ∧ (s ≤ L ≤ blen buf → record_chain (cut L buf) c records s).
Proof.
  revert c. induction records as [|r records IH]; intros c Hc;
    cbn [record_chain].
  - intros ->. split; [lia|done].
  - intros (c' & Hrd & Hplain & Hch).
    destruct (read_record_cut buf L c c' r Hc Hrd Hplain) as [Hle Hcut].
    destruct (IH c' ltac:(lia) Hch) as [Hle' Hcut'].
    split; [lia|]. intros HL. exists c'.
    destruct Hcut as [Hrd' Hplain']; [lia|].
    split; [done|]. split; [done|]. by apply Hcut'.
Qed.

(** The loop of [read_records] goes through a chain of records. *)
Lemma read_records_loop_chain (buf : bytes) (records : list DmapRecord)
    (s : Z) (c : Z) (acc : list DmapRecord) (fuel : nat) :
  0 ≤ c → record_chain buf c records s →
  blen buf - c ≤ Z.of_nat fuel →
  ∃ fuel', blen buf - s ≤ Z.of_nat fuel'
    ∧ DmapRead.read_records_loop fuel buf acc c
      = DmapRead.read_records_loop fuel' buf (acc ++ records) s.
Proof.
  revert c acc fuel. induction records as [|r records IH];
    intros c acc fuel Hc; cbn [record_chain].
  - intros -> Hf. exists fuel. by rewrite app_nil_r.
  - intros (c' & Hrd & _ & Hch) Hf.
    pose proof Hrd as Hinv. apply read_record_inv in Hinv
      as (bs & c1 & ns & c2 & na & c3 & r1 & c4 & H1 & _ & Hpos & _ & _
          & _ & _ & _ & _ & _ & Hend).
    assert (Hlt : c < blen buf).
    { rewrite read_int_nonneg in H1 by lia.
      destruct (Z.ltb_spec (blen buf - (c + 4)) 4); [done|lia]. }
    destruct fuel as [|fuel]; [lia|].
    destruct (IH c' (acc ++ [r]) fuel ltac:(lia) Hch ltac:(lia))
      as (fuel' & Hf' & Hloop).
    exists fuel'. split; [done|].
    cbn [DmapRead.read_records_loop]. unfold DmapRead.dmap_end_bytes.
    destruct (Z.ltb_spec c (blen buf)); [|lia].
    rewrite Hrd, bind_ret. rewrite Hloop. by rewrite <- app_assoc.
Qed.

Lemma read_records_loop_stop (fuel : nat) (buf : bytes)
    (acc : list DmapRecord) (c : Z) :
  blen buf ≤ c → DmapRead.read_records_loop fuel buf acc c = Ok (acc, c).
Proof.
  intros Hc. destruct fuel; cbn [DmapRead.read_records_loop];
    unfold DmapRead.dmap_end_bytes;
    destruct (Z.ltb_spec c (blen buf)); (done || lia).
Qed.

(** What [read_records] gives on the truncated buffer once the records
    before the cut are passed. *)
Lemma read_records_cut (buf : bytes) (before : list DmapRecord) (s L : Z) :
  record_chain buf 0 before s → s ≤ L ≤ blen buf →
  ∃ fuel, L - s ≤ Z.of_nat fuel
    ∧ DmapRead.read_records (cut L buf) [] 0
      = ('(dmap_records, cursor) ←
           DmapRead.read_records_loop fuel (cut L buf) before s;
         DmapRead.bytes_check cursor L;;
         Ok (dmap_records, cursor)).
Proof.
  intros Hch HL.
  destruct (record_chain_cut buf L 0 s before ltac:(lia) Hch) as [Hs Hcut].
  specialize (Hcut HL).
  destruct (read_records_loop_chain (cut L buf) before s 0 []
              (Z.to_nat (blen (cut L buf) - 0)) ltac:(lia) Hcut ltac:(lia))
    as (fuel & Hfuel & Hloop).
  rewrite blen_cut in Hfuel by lia. exists fuel. split; [done|].
  unfold DmapRead.read_records, DmapRead.dmap_end_bytes.
  rewrite Hloop. by rewrite blen_cut by lia.
Qed.

(** C6, as the code has it. Take a buffer that starts with a chain of
    plain records ending at [s], and truncate it to [L] bytes, [s ≤ L].
    When the cut falls on the record boundary [s], decode returns the
    records before the cut, with no exception (and raises
    [EmptyFileError] when nothing is left). When the cut falls strictly
    inside the record that the buffer holds from [s], decode raises
    [CursorError] or [MismatchByteError]. *)
Theorem truncated_decode (buf : bytes) (before : list DmapRecord) (s L : Z) :
  record_chain buf 0 before s → s ≤ L ≤ blen buf →
  (L = 0 → DmapRead.decode (cut L buf) = Err EmptyFileError)
  ∧ (s = L → 0 < L → DmapRead.decode (cut L buf) = Ok before)
  ∧ (∀ r s', DmapRead.read_record buf s = Ok (r, s') → s < L < s' →
       DmapRead.decode (cut L buf) = Err CursorError
       ∨ DmapRead.decode (cut L buf) = Err MismatchByteError).
Proof.
  intros Hch HL.
  destruct (record_chain_cut buf L 0 s before ltac:(lia) Hch) as [Hs _].
  destruct (read_records_cut buf before s L Hch HL) as (fuel & Hfuel & Hrd).
  unfold DmapRead.decode, DmapRead.init. rewrite blen_cut by lia.
  split; [|split].
  - intros ->. done.
  - intros -> HL0. destruct (Z.eqb_spec L 0); [lia|].
    rewrite bind_ret. cbv beta iota. rewrite Hrd.
    rewrite read_records_loop_stop by (rewrite blen_cut; lia).
    rewrite bind_ret. cbv beta iota.
    by rewrite (proj2 (bytes_check_Ok _ _)) by lia.
  - intros r s' Hr Hin. destruct (Z.eqb_spec L 0); [lia|].
    rewrite bind_ret. cbv beta iota. rewrite Hrd.
    assert (Hshort : DmapRead.read_record (cut L buf) s = Err CursorError
                   ∨ DmapRead.read_record (cut L buf) s
                     = Err MismatchByteError).
    { apply read_record_short; [lia..|]. right.
      apply read_record_inv in Hr
        as (bs & c1 & ns & c2 & na & c3 & r1 & c4 & H1 & _ & _ & _ & _
            & _ & _ & _ & _ & _ & Hend).
      destruct (read_int_cut buf L (s + 4) bs c1 ltac:(lia) H1) as [E1 _].
      exists bs. split; [|lia]. rewrite H1. do 2 f_equal. lia. }
    destruct fuel as [|fuel]; [lia|].
    cbn [DmapRead.read_records_loop]. unfold DmapRead.dmap_end_bytes.
    rewrite blen_cut by lia.
    destruct (Z.ltb_spec s L); [|lia].
    destruct Hshort as [-> | ->]; [by left|by right].
Qed.

Lemma truncated_decode_witness :
  DmapRead.decode (cut 100 two_records_bytes) = Err CursorError
  ∨ DmapRead.decode (cut 100 two_records_bytes) = Err MismatchByteError.
Proof.
  refine (proj2 (proj2 (truncated_decode two_records_bytes [sample_record]
                          58 100 _ _)) sample_record 116 _ _).
  - exists 58. vm_compute. repeat split; try reflexivity.
    repeat constructor; discriminate.
  - vm_compute. split; discriminate.
  - vm_compute. reflexivity.
  - lia.
Defined.

(** C6 as stated fails: the two records truncated by the 58 bytes of
    the second one decode to the first record alone, with no exception;
    truncated by all their bytes they raise [EmptyFileError]. *)
Lemma truncated_decode_counterexample :
  DmapRead.decode two_records_bytes = Ok [sample_record; sample_record]
  ∧ cut 58 two_records_bytes
    = take (length two_records_bytes - 58) two_records_bytes
  ∧ DmapRead.decode (cut 58 two_records_bytes) = Ok [sample_record]
  ∧ DmapRead.decode (cut 0 two_records_bytes) = Err EmptyFileError.
Proof. repeat split; vm_compute; reflexivity. Qed.

(** ** The loop of [read_records] stops within its fuel *)

Lemma raises_python_read {A} (r : result A) :
  raises read_error r → raises python_error r.
Proof.
  apply raises_mono. intros e [?|[?|[?|[?|?]]]]; subst e; discriminate.
Qed.

Lemma read_ints_raises (n : nat) (buf : bytes) (c : Z) :
  raises python_error (DmapRead.read_ints n buf c).
Proof.
  revert c. induction n as [|n IH]; intros c; cbn [DmapRead.read_ints].
  - apply raises_Ok.
  - apply raises_bind; [apply raises_python_read, read_int_raises|].
    intros [x c1] _. apply raises_bind; [apply IH|].
    intros [xs c2] _. apply raises_Ok.
Qed.

Lemma read_items_raises (n : nat) (buf : bytes) (fmt : string) (size c : Z)
    (data : list pyval) :
  raises python_error (DmapRead.read_items n buf fmt size data c).
Proof.
  revert c data. induction n as [|n IH]; intros c data;
    cbn [DmapRead.read_items].
  - apply raises_Ok.
  - apply raises_bind; [apply raises_python_read, read_data_raises|].
    intros [v c1] _. apply IH.
Qed.

Lemma read_string_items_raises (shape : list Z) (buf : bytes) (fmt : string)
    (size c : Z) (data : list pyval) :
  raises python_error (DmapRead.read_string_items shape buf fmt size data c).
Proof.
  revert c data. induction shape as [|d shape IH]; intros c data;
    cbn [DmapRead.read_string_items].
  - apply raises_Ok.
  - apply raises_bind; [apply read_items_raises|].
    intros [data1 c1] _. apply IH.
Qed.

Lemma read_array_raises (buf : bytes) (record_size c : Z) :
  raises python_error (DmapRead.read_array buf record_size c).
Proof.
  unfold DmapRead.read_array.
  apply raises_bind; [apply raises_python_read, read_name_raises|].
  intros [name c1] _.
  apply raises_bind; [apply raises_python_read, read_type_raises|].
  intros [ty c2] _.
  apply raises_bind;
    [unfold DmapRead.check_data_type; raises_walk ltac:(discriminate)|].
  intros [] _.
  apply raises_bind;
    [unfold DmapRead.type_entry; raises_walk ltac:(discriminate)|].
  intros [fmt size] _.
  apply raises_bind; [apply raises_python_read, read_int_raises|].
  intros [dim c3] _.
  apply raises_bind;
    [unfold DmapRead.bytes_check; raises_walk ltac:(discriminate)|].
  intros [] _.
  apply raises_bind;
    [unfold DmapRead.zero_negative_check; raises_walk ltac:(discriminate)|].
  intros [] _.
  apply raises_bind; [apply read_ints_raises|]. intros [dims c4] _.
  cbv zeta.
  apply raises_bind; [raises_walk ltac:(discriminate)|]. intros [] _.
  apply raises_bind; [raises_walk ltac:(discriminate)|]. intros [] _.
  apply raises_bind;
    [unfold DmapRead.bytes_check; raises_walk ltac:(discriminate)|].
  intros [] _.
  apply raises_bind;
    [unfold DmapRead.bytes_check; raises_walk ltac:(discriminate)|].
  intros [] _.
  apply raises_bind; [|intros [value c5] _; apply raises_Ok].
  destruct (bool_decide (fmt = "s") || bool_decide (fmt = "c")).
  - unfold DmapRead.read_string_array.
    apply raises_bind; [apply read_string_items_raises|].
    intros [data c5] _.
    apply raises_bind;
      [unfold np_array; raises_walk ltac:(discriminate)|].
    intros a _. apply raises_Ok.
  - destruct (ty =? DMAP); [apply raises_Err; discriminate|].
    unfold DmapRead.read_numerical_array, np_frombuffer.
    raises_walk ltac:(discriminate).
Qed.

Lemma read_scalars_raises (n : nat) (buf : bytes) (r : DmapRecord) (c : Z) :
  raises python_error (DmapRead.read_scalars n buf r c).
Proof.
  revert c r. induction n as [|n IH]; intros c r; cbn [DmapRead.read_scalars].
  - apply raises_Ok.
  - apply raises_bind; [|intros [s c1] _; apply IH].
    eapply raises_mono, read_scalar_raises.
    intros e [[?|[?|[?|[?|?]]]]|[?|?]]; subst e; discriminate.
Qed.

Lemma read_arrays_raises (n : nat) (buf : bytes) (block_size : Z)
    (r : DmapRecord) (c : Z) :
  raises python_error (DmapRead.read_arrays n buf block_size r c).
Proof.
  revert c r. induction n as [|n IH]; intros c r; cbn [DmapRead.read_arrays].
  - apply raises_Ok.
  - apply raises_bind; [apply read_array_raises|intros [a c1] _; apply IH].
Qed.

Lemma read_record_raises (buf : bytes) (c : Z) :
  raises python_error (DmapRead.read_record buf c).
Proof.
  unfold DmapRead.read_record. cbv zeta.
  apply raises_bind; [apply raises_python_read, read_int_raises|].
  intros [bs c1] _.
  apply raises_bind;
    [unfold DmapRead.bytes_check; raises_walk ltac:(discriminate)|].
  intros [] _.
  apply raises_bind;
    [unfold DmapRead.zero_negative_check; raises_walk ltac:(discriminate)|].
  intros [] _.
  apply raises_bind; [apply raises_python_read, read_int_raises|].
  intros [ns c2] _.
  apply raises_bind; [apply raises_python_read, read_int_raises|].
  intros [na c3] _.
  apply raises_bind;
    [unfold DmapRead.zero_negative_check; raises_walk ltac:(discriminate)|].
  intros [] _.
  apply raises_bind;
    [unfold DmapRead.zero_negative_check; raises_walk ltac:(discriminate)|].
  intros [] _.
  apply raises_bind;
    [unfold DmapRead.bytes_check; raises_walk ltac:(discriminate)|].
  intros [] _.
  apply raises_bind; [apply read_scalars_raises|]. intros [r1 c4] _.
  apply raises_bind; [apply read_arrays_raises|]. intros [r2 c5] _.
  raises_walk ltac:(discriminate).
Qed.

Lemma read_records_loop_raises (fuel : nat) (buf : bytes)
    (acc : list DmapRecord) (c : Z) :
  blen buf - c ≤ Z.of_nat fuel →
  raises python_error (DmapRead.read_records_loop fuel buf acc c).
Proof.
  revert acc c. induction fuel as [|fuel IH]; intros acc c Hf.
  - rewrite read_records_loop_stop by lia. apply raises_Ok.
  - cbn [DmapRead.read_records_loop]. unfold DmapRead.dmap_end_bytes.
    destruct (Z.ltb_spec c (blen buf)); [|apply raises_Ok].
    apply raises_bind; [apply read_record_raises|].
    intros [r c'] Hr. apply IH.
    apply read_record_inv in Hr
      as (bs & c1 & ns & c2 & na & c3 & r1 & c4 & _ & _ & Hpos & _ & _
          & _ & _ & _ & _ & _ & Hend).
    lia.
Qed.

(** [read_records] stops within its fuel, whatever the buffer. *)
Lemma read_records_fuel (buf : bytes) (acc : list DmapRecord) (c : Z) :
  DmapRead.read_records buf acc c ≠ Err OutOfFuel.
Proof.
  intros H.
  assert (Hr : raises python_error (DmapRead.read_records buf acc c));
    [|by apply Hr in H].
  unfold DmapRead.read_records.
  apply raises_bind; [apply read_records_loop_raises|].
  - unfold DmapRead.dmap_end_bytes. lia.
  - intros [recs c'] _.
    unfold DmapRead.bytes_check. raises_walk ltac:(discriminate).
Qed.

(** ** What the reader makes of an encoded array *)

Lemma le_signed_le_bytes (x : Z) : int32 x → le_signed (le_bytes 4 x) = x.
Proof.
  unfold int32. intros Hx. unfold le_signed.
  change (blen (le_bytes 4 x)) with 4. change (2 ^ (8 * 4)) with 4294967296.
  change (4294967296 / 2) with 2147483648.
  change (2 ^ 31) with 2147483648 in Hx.
  assert (Hu : le_unsigned (le_bytes 4 x) = x mod 4294967296).
  { cbn [le_bytes le_unsigned]. Z.div_mod_to_equations. lia. }
  rewrite Hu.
  destruct (Z.ltb_spec (x mod 4294967296) 2147483648);
    Z.div_mod_to_equations; lia.
Qed.

Lemma type_bytes_Ok (ty : Z) (b : bytes) :
  DmapWrite.type_bytes ty = Ok b → b = [ty].
Proof.
  unfold DmapWrite.type_bytes, chr_encode_utf8.
  destruct ((ty <? - 2 ^ 31) || (2 ^ 31 - 1 <? ty)); [done|].
  destruct ((ty <? 0) || (1114111 <? ty)); [done|].
  destruct (ty <? 128); [by intros [= <-]|].
  destruct (ty <? 2048); [done|].
  destruct (ty <? 65536); [|done].
  by destruct ((55296 <=? ty) && (ty <=? 57343)).
Qed.

Lemma read_ints_at (xs : list Z) (pre rest : bytes) :
  Forall int32 xs →
  DmapRead.read_ints (length xs) (pre ++ mjoin (le_bytes 4 <$> xs) ++ rest)
    (blen pre)
  = Ok (xs, blen (pre ++ mjoin (le_bytes 4 <$> xs))).
Proof.
  intros Hxs. revert pre.
  induction Hxs as [|x xs Hx Hxs IH]; intros pre.
  - cbn [length DmapRead.read_ints fmap list_fmap mjoin list_join].
    by rewrite app_nil_r.
  - cbn [length DmapRead.read_ints fmap list_fmap mjoin list_join].
    fold (fmap (M:=list) (le_bytes 4) xs).
    fold (mjoin (M:=list) (le_bytes 4 <$> xs)).
    rewrite <- (app_assoc (le_bytes 4 x)).
    change (le_bytes 4 x ++ mjoin (le_bytes 4 <$> xs) ++ rest)
      with (x mod 256 :: (x / 256) mod 256 :: (x / 256 / 256) mod 256
            :: (x / 256 / 256 / 256) mod 256
            :: mjoin (le_bytes 4 <$> xs) ++ rest).
    rewrite read_int_at, bind_ret. cbv beta iota.
    change [x mod 256; (x / 256) mod 256; (x / 256 / 256) mod 256;
            (x / 256 / 256 / 256) mod 256] with (le_bytes 4 x).
    rewrite le_signed_le_bytes by done.
    replace (pre ++ x mod 256 :: (x / 256) mod 256 :: (x / 256 / 256) mod 256
             :: (x / 256 / 256 / 256) mod 256
             :: mjoin (le_bytes 4 <$> xs) ++ rest)
      with ((pre ++ le_bytes 4 x) ++ mjoin (le_bytes 4 <$> xs) ++ rest)
      by (by rewrite <- app_assoc).
    rewrite IH, bind_ret. cbv beta iota. by rewrite <- !app_assoc.
Qed.

(** C2: what the encoder writes for an array is the name, the type
    code, the number of dimensions and then the dimension sizes in the
    order of [array.shape], not in the reverse order. [read_array]
    reverses what it reads, so every array that is encoded and then
    decoded comes back with the reverse of its shape: the array of shape
    [2, 3] comes back with the shape [3, 2]. *)
Theorem dmap_array_to_bytes_shape_order (array : DmapArray.t) (b : bytes) :
  DmapWrite.dmap_array_to_bytes array = Ok b →
  b = DmapWrite.name_bytes (DmapArray.name array)
      ++ [DmapArray.data_type array]
      ++ le_bytes 4 (DmapArray.dimension array)
      ++ mjoin (le_bytes 4 <$> DmapArray.shape array)
      ++ tostring (DmapArray.value array)
  ∧ (∀ pre post record_size a' c',
       plain_text (DmapArray.name array) →
       DmapArray.dimension array
         = Z.of_nat (length (DmapArray.shape array)) →
       DmapRead.read_array (pre ++ b ++ post) record_size (blen pre)
         = Ok (a', c') →
       DmapArray.shape a' = reverse (DmapArray.shape array))
  ∧ (b' ← DmapWrite.dmap_array_to_bytes wide_data;
     '(a, _) ← DmapRead.read_array b' 58 0;
     Ok (DmapArray.shape a)) = Ok [3; 2].
Proof.
  intros H. unfold DmapWrite.dmap_array_to_bytes in H.
  apply bind_Ok in H as (ty & Hty & H).
  apply bind_Ok in H as (dim & Hdim & H).
  apply bind_Ok in H as (sh & Hsh & H). injection H as <-.
  apply type_bytes_Ok in Hty as ->.
  apply struct_pack_i_Ok in Hdim as [Hdim32 ->].
  apply shape_bytes_Ok in Hsh as [Hsh32 ->].
  split; [done|]. split; [|by vm_compute].
  intros pre post record_size a' c' Hplain Hlen Hrd.
  pose proof (plain_text_no_nul _ Hplain) as Hname.
  rewrite (name_bytes_plain _ Hplain) in Hrd.
  set (sb := string_to_bytes (DmapArray.name array)) in *.
  set (t := DmapArray.data_type array) in *.
  set (d := DmapArray.dimension array) in *.
  set (shape := DmapArray.shape array) in *.
  set (raw := tostring (DmapArray.value array)) in *.
  set (p1 := pre ++ sb ++ [0]).
  set (p2 := p1 ++ [t]).
  set (p3 := p2 ++ le_bytes 4 d).
  set (buf := pre ++ ((sb ++ [0]) ++ [t]
                      ++ le_bytes 4 d ++ mjoin (le_bytes 4 <$> shape) ++ raw)
              ++ post) in *.
  assert (H1 : buf = pre ++ sb ++ 0 :: t :: le_bytes 4 d
                     ++ mjoin (le_bytes 4 <$> shape) ++ raw ++ post).
  { unfold buf. by rewrite <- !app_assoc. }
  assert (H2 : buf = p1 ++ t :: le_bytes 4 d
                     ++ mjoin (le_bytes 4 <$> shape) ++ raw ++ post).
  { rewrite H1. unfold p1. by rewrite <- !app_assoc. }
  assert (H3 : buf = p2 ++ d mod 256 :: (d / 256) mod 256
                     :: (d / 256 / 256) mod 256
                     :: (d / 256 / 256 / 256) mod 256
                     :: mjoin (le_bytes 4 <$> shape) ++ raw ++ post).
  { rewrite H2. unfold p2. by rewrite <- !app_assoc. }
  assert (H4 : buf = p3 ++ mjoin (le_bytes 4 <$> shape) ++ raw ++ post).
  { rewrite H3. unfold p3. by rewrite <- !app_assoc. }
  apply read_array_inv in Hrd
    as (name' & c1 & ty' & c2 & fmt & size & dim' & c3 & dims & c4 & value
        & Rname & Rty & _ & Rdim & _ & Rdims & _ & _ & _ & _ & _ & ->).
  cbn [DmapArray.shape]. f_equal.
  rewrite H1, read_name_at in Rname by done. injection Rname as _ <-.
  fold p1 in Rty. rewrite H2, read_type_at in Rty. injection Rty as _ <-.
  fold p2 in Rdim. rewrite H3, read_int_at in Rdim. injection Rdim as <- <-.
  change [d mod 256; (d / 256) mod 256; (d / 256 / 256) mod 256;
          (d / 256 / 256 / 256) mod 256] with (le_bytes 4 d) in Rdims.
  fold p3 in Rdims. rewrite le_signed_le_bytes in Rdims by done.
  rewrite Hlen, Nat2Z.id, H4, read_ints_at in Rdims by done.
  by injection Rdims as <- _.
Qed.

Lemma dmap_array_to_bytes_shape_order_witness :
  (string_to_bytes "data" ++ [0]) ++ [4] ++ [2; 0; 0; 0]
    ++ ([2; 0; 0; 0] ++ [3; 0; 0; 0] ++ []) ++ tostring wide_values
  = DmapWrite.name_bytes "data" ++ [FLOAT] ++ le_bytes 4 2
    ++ mjoin (le_bytes 4 <$> [2; 3]) ++ tostring wide_values.
Proof.
  exact (proj1 (dmap_array_to_bytes_shape_order wide_data _ eq_refl)).
Defined.

(** * Further properties of the writer *)

(** ** The extra-field and the type checks *)

Lemma record_keys_elem (record : DmapRecord) (x : string) :
  x ∈ DmapWrite.record_keys record ↔ ∃ f, (x, f) ∈ record.
Proof.
  unfold DmapWrite.record_keys, od_keys.
  rewrite elem_of_list_to_set, list_elem_of_fmap. split.
  - intros ([k f] & -> & Hin). by exists f.
  - intros (f & Hin). by exists (x, f).
Qed.

Lemma total_field_set_elem (file_struct_list : list (gmap string string))
    (x : string) :
  x ∈ total_field_set file_struct_list
  ↔ ∃ g, g ∈ file_struct_list ∧ is_Some (g !! x).
Proof.
  unfold total_field_set. rewrite elem_of_union_list. split.
  - intros (X & HX & Hx). apply list_elem_of_fmap in HX as (g & -> & Hg).
    exists g. split; [done|]. by apply elem_of_dom.
  - intros (g & Hg & Hx). exists (dom g). split.
    + apply list_elem_of_fmap. by exists g.
    + by apply elem_of_dom.
Qed.

(** X1: [extra_field_check] passes exactly when every field of the
    record is declared by some group of the schema; otherwise it raises
    [SuperDARNFieldExtra] for the record number, naming exactly the
    fields of the record that no group declares. *)
Theorem extra_field_check_fields (file_struct_list : list (gmap string string))
    (record : DmapRecord) (rec_num : nat) :
  file_struct_list ≠ [] →
  ((∀ x f, (x, f) ∈ record →
      ∃ g, g ∈ file_struct_list ∧ is_Some (g !! x))
   → DmapWrite.extra_field_check file_struct_list record rec_num = Ok ())
  ∧ (∀ x f, (x, f) ∈ record →
       (∀ g, g ∈ file_struct_list → g !! x = None) →
       ∃ fields,
         DmapWrite.extra_field_check file_struct_list record rec_num
         = Err (SuperDARNFieldExtra rec_num fields)
         ∧ ∀ y, y ∈ fields ↔
             (∃ f', (y, f') ∈ record)
             ∧ ∀ g, g ∈ file_struct_list → g !! y = None).
Proof.
  intros Hne. unfold DmapWrite.extra_field_check, DmapWrite.dict_key_diff.
  rewrite dict_list2set_total by done. rewrite bind_ret.
  set (extra := DmapWrite.record_keys record ∖ total_field_set file_struct_list).
  assert (Hextra : ∀ y, y ∈ extra ↔
            (∃ f', (y, f') ∈ record)
            ∧ ∀ g, g ∈ file_struct_list → g !! y = None).
  { intros y. unfold extra.
    rewrite elem_of_difference, record_keys_elem, total_field_set_elem.
    split; intros [Hin Hno]; (split; [done|]).
    - intros g Hg. destruct (g !! y) eqn:Hy; [|done].
      exfalso. apply Hno. exists g. split; [done|]. by rewrite Hy.
    - intros (g & Hg & [v Hy]). specialize (Hno g Hg). congruence. }
  split.
  - intros Hall.
    destruct (Nat.ltb_spec 0 (size extra)) as [Hsz|]; [|done].
    exfalso. apply size_pos_elem_of in Hsz as [y Hy].
    apply Hextra in Hy as [(f' & Hin) Hno].
    destruct (Hall y f' Hin) as (g & Hg & [v Hv]).
    specialize (Hno g Hg). congruence.
  - intros x f Hin Hno. exists extra. split; [|done].
    destruct (Nat.ltb_spec 0 (size extra)) as [|Hsz]; [done|].
    exfalso. assert (Hx : x ∈ extra) by (apply Hextra; eauto).
    assert (Hemp : extra = ∅) by (apply leibniz_equiv, size_empty_inv; lia).
    rewrite Hemp in Hx. by apply not_elem_of_empty in Hx.
Qed.

Lemma extra_field_check_fields_witness :
  ∃ fields,
    DmapWrite.extra_field_check [sample_types; sample_extra_fields]
      (sample_record ++ [("nope", Scalar sample_stid)]) 3
    = Err (SuperDARNFieldExtra 3 fields)
    ∧ ∀ y, y ∈ fields ↔
        (∃ f', (y, f') ∈ sample_record ++ [("nope", Scalar sample_stid)])
        ∧ ∀ g, g ∈ [sample_types; sample_extra_fields] → g !! y = None.
Proof.
  refine (proj2 (extra_field_check_fields [sample_types; sample_extra_fields]
                   (sample_record ++ [("nope", Scalar sample_stid)]) 3 _)
            "nope" (Scalar sample_stid) _ _).
  - discriminate.
  - apply elem_of_app. right. apply elem_of_cons. by left.
  - intros g Hg.
    repeat (apply elem_of_cons in Hg as [->|Hg]; [by vm_compute|]).
    by apply elem_of_nil in Hg.
Defined.

Lemma complete_dict_snoc (l : list (gmap string string))
    (g : gmap string string) :
  DmapWrite.complete_dict (l ++ [g]) = g ∪ DmapWrite.complete_dict l.
Proof. unfold DmapWrite.complete_dict. by rewrite foldl_snoc. Qed.

(** The format that the schema declares for a field is that of the last
    group that declares the field. *)
Lemma complete_dict_lookup (l : list (gmap string string)) (k fmt : string) :
  DmapWrite.complete_dict l !! k = Some fmt
  ↔ ∃ l1 g l2, l = l1 ++ g :: l2 ∧ g !! k = Some fmt
               ∧ ∀ g', g' ∈ l2 → g' !! k = None.
Proof.
  induction l as [|g l IH] using rev_ind.
  - split; [done|]. intros (l1 & g & l2 & Hl & _). by destruct l1.
  - rewrite complete_dict_snoc, lookup_union_Some_raw, IH. split.
    + intros [Hg|[Hg (l1 & g' & l2 & -> & Hg' & Hl2)]].
      * exists l, g, []. split; [done|]. split; [done|].
        intros g' Hin. by apply elem_of_nil in Hin.
      * exists l1, g', (l2 ++ [g]). split; [by rewrite <- app_assoc|].
        split; [done|]. intros g'' [Hin|Hin]%elem_of_app; [by apply Hl2|].
        apply elem_of_cons in Hin as [->|Hin]; [done|].
        by apply elem_of_nil in Hin.
    + intros (l1 & g' & l2 & Hl & Hg' & Hl2).
      destruct l2 as [|g2 l2 _] using rev_ind.
      * apply app_inj_tail in Hl as [-> ->]. by left.
      * rewrite app_comm_cons, app_assoc in Hl.
        apply app_inj_tail in Hl as [-> ->]. right. split.
        -- apply Hl2. apply elem_of_app. right. apply elem_of_cons. by left.
        -- exists l1, g', l2. split; [done|]. split; [done|].
           intros g'' Hin. apply Hl2. apply elem_of_app. by left.
Qed.

Lemma incorrect_types_spec (complete : gmap string string)
    (record : DmapRecord) (acc : gmap string string) :
  acc ⊆ complete →
  (∀ k f, (k, f) ∈ record → is_Some (complete !! k)) →
  ∃ m, DmapWrite.incorrect_types complete record acc = Ok m
       ∧ m ⊆ complete
       ∧ ∀ k, is_Some (m !! k)
              ↔ is_Some (acc !! k)
                ∨ ∃ f fmt, (k, f) ∈ record ∧ complete !! k = Some fmt
                           ∧ field_fmt f ≠ fmt.
Proof.
  revert acc. induction record as [|[k f] record IH]; intros acc Hacc Hkeys;
    cbn [DmapWrite.incorrect_types].
  - exists acc. split; [done|]. split; [done|]. intros k. split; [by left|].
    intros [?|(f & fmt & Hin & _)]; [done|]. by apply elem_of_nil in Hin.
  - destruct (Hkeys k f ltac:(apply elem_of_cons; by left)) as [fmt Hfmt].
    rewrite Hfmt.
    assert (Hkeys' : ∀ k f, (k, f) ∈ record → is_Some (complete !! k)).
    { intros k' f' Hin. apply (Hkeys k' f'). apply elem_of_cons. by right. }
    destruct (bool_decide_reflect (field_fmt f = fmt)) as [Heq|Hne].
    + destruct (IH acc Hacc Hkeys') as (m & -> & Hm & Hdom).
      exists m. split; [done|]. split; [done|]. intros k'. rewrite Hdom.
      split; (intros [?|(f' & fmt' & Hin & Hc & Hd)]; [by left|right]).
      * exists f', fmt'. split; [apply elem_of_cons; by right|done].
      * apply elem_of_cons in Hin as [[= -> ->]|Hin]; [congruence|].
        by exists f', fmt'.
    + assert (Hacc' : <[k:=fmt]> acc ⊆ complete)
        by (by apply insert_subseteq_l).
      destruct (IH _ Hacc' Hkeys') as (m & -> & Hm & Hdom).
      exists m. split; [done|]. split; [done|]. intros k'. rewrite Hdom.
      rewrite lookup_insert_is_Some. split.
      * intros [[->|[_ ?]]|(f' & fmt' & Hin & Hc & Hd)].
        -- right. exists f, fmt. split; [apply elem_of_cons; by left|done].
        -- by left.
        -- right. exists f', fmt'. split; [apply elem_of_cons; by right|done].
      * intros [?|(f' & fmt' & Hin & Hc & Hd)].
        -- destruct (decide (k = k')); [by left; left|by left; right].
        -- apply elem_of_cons in Hin as [[= -> ->]|Hin]; [by left; left|].
           right. by exists f', fmt'.
Qed.

Lemma incorrect_types_KeyError (complete : gmap string string)
    (record : DmapRecord) (acc : gmap string string) (k : string) (f : field) :
  (k, f) ∈ record → complete !! k = None →
  DmapWrite.incorrect_types complete record acc = Err PyKeyError.
Proof.
  revert acc. induction record as [|[k' f'] record IH]; intros acc Hin Hk.
  - by apply elem_of_nil in Hin.
  - cbn [DmapWrite.incorrect_types].
    destruct (complete !! k') as [fmt|] eqn:Hk'; [|done].
    apply elem_of_cons in Hin as [[= -> ->]|Hin]; [congruence|].
    destruct (bool_decide _); by apply IH.
Qed.

(** X2: [incorrect_types_check] against the formats that the schema
    declares (the last group that declares a field wins). When every
    field of the record has the declared format it passes. When some
    field has another format it raises [SuperDARNDataFormatError] for
    the record number with the dictionary that maps exactly the fields
    of the wrong format to the format declared for them. A field that no
    group declares makes it raise [KeyError]. *)
Theorem incorrect_types_check_fields
    (file_struct_list : list (gmap string string))
    (record : DmapRecord) (rec_num : nat) :
  let declared := DmapWrite.complete_dict file_struct_list in
  ((∀ k f, (k, f) ∈ record → declared !! k = Some (field_fmt f)) →
     DmapWrite.incorrect_types_check file_struct_list record rec_num = Ok ())
  ∧ ((∀ k f, (k, f) ∈ record → is_Some (declared !! k)) →
     ∀ k f fmt, (k, f) ∈ record → declared !! k = Some fmt →
       field_fmt f ≠ fmt →
       ∃ incorrect,
         DmapWrite.incorrect_types_check file_struct_list record rec_num
         = Err (SuperDARNDataFormatError incorrect rec_num)
         ∧ ∀ k' fmt', incorrect !! k' = Some fmt'
             ↔ declared !! k' = Some fmt'
               ∧ ∃ f', (k', f') ∈ record ∧ field_fmt f' ≠ fmt')
  ∧ (∀ k f, (k, f) ∈ record → declared !! k = None →
     DmapWrite.incorrect_types_check file_struct_list record rec_num
     = Err PyKeyError)
  ∧ (∀ k fmt, declared !! k = Some fmt
       ↔ ∃ l1 g l2, file_struct_list = l1 ++ g :: l2 ∧ g !! k = Some fmt
                    ∧ ∀ g', g' ∈ l2 → g' !! k = None).
Proof.
  intros declared. unfold DmapWrite.incorrect_types_check. fold declared.
  assert (Hspec : (∀ k f, (k, f) ∈ record → is_Some (declared !! k)) →
    ∃ m, DmapWrite.incorrect_types declared record ∅ = Ok m
         ∧ ∀ k' fmt', m !! k' = Some fmt'
             ↔ declared !! k' = Some fmt'
               ∧ ∃ f', (k', f') ∈ record ∧ field_fmt f' ≠ fmt').
  { intros Hkeys.
    destruct (incorrect_types_spec declared record ∅
                (map_empty_subseteq _) Hkeys) as (m & Hm & Hsub & Hdom).
    exists m. split; [done|]. intros k' fmt'. split.
    - intros Hk'. pose proof (lookup_weaken _ _ _ _ Hk' Hsub) as Hd.
      split; [done|].
      destruct (proj1 (Hdom k') ltac:(by rewrite Hk'))
        as [[? He]|(f' & fmt'' & Hin & Hc & Hf)];
        [by rewrite lookup_empty in He|].
      exists f'. split; [done|]. congruence.
    - intros [Hd (f' & Hin & Hf)].
      destruct (proj2 (Hdom k')) as [v Hv]; [right; by exists f', fmt'|].
      pose proof (lookup_weaken _ _ _ _ Hv Hsub). congruence. }
  split; [|split; [|split]].
  - intros Hall.
    destruct Hspec as (m & -> & Hm);
      [intros k f Hin; rewrite (Hall k f Hin); by eexists|].
    rewrite bind_ret.
    destruct (Nat.ltb_spec 0 (size m)) as [Hsz|]; [|done].
    exfalso. assert (Hne : m ≠ ∅) by (apply map_size_non_empty_iff; lia).
    apply map_choose in Hne as (k & fmt & Hk).
    apply Hm in Hk as [Hd (f' & Hin & Hf)].
    rewrite (Hall k f' Hin) in Hd. congruence.
  - intros Hkeys k f fmt Hin Hd Hf.
    destruct (Hspec Hkeys) as (m & -> & Hm). rewrite bind_ret.
    exists m. split; [|done].
    destruct (Nat.ltb_spec 0 (size m)) as [|Hsz]; [done|].
    exfalso. assert (Hk : m !! k = Some fmt) by (apply Hm; eauto).
    assert (Hemp : m = ∅) by (apply map_size_empty_iff; lia).
    rewrite Hemp, lookup_empty in Hk. done.
  - intros k f Hin Hd.
    by rewrite (incorrect_types_KeyError declared record ∅ k f Hin Hd).
  - apply complete_dict_lookup.
Qed.

Lemma incorrect_types_check_fields_witness :
  ∃ incorrect,
    DmapWrite.incorrect_types_check [sample_types] wrong_type_record 2
    = Err (SuperDARNDataFormatError incorrect 2)
    ∧ ∀ k' fmt', incorrect !! k' = Some fmt'
        ↔ DmapWrite.complete_dict [sample_types] !! k' = Some fmt'
          ∧ ∃ f', (k', f') ∈ wrong_type_record ∧ field_fmt f' ≠ fmt'.
Proof.
  refine (proj1 (proj2 (incorrect_types_check_fields [sample_types]
                          wrong_type_record 2)) _
            "stid" (Scalar (DmapScalar.Build "stid" (VInt 7) INT "i")) "h"
            _ _ _).
  - intros k f Hin.
    repeat (apply elem_of_cons in Hin as [[= -> ->]|Hin];
            [by vm_compute; eexists|]).
    by apply elem_of_nil in Hin.
  - apply elem_of_cons. by left.
  - by vm_compute.
  - discriminate.
Defined.

(** ** The layout of what the writer appends *)

Lemma bind_assoc {A B C} (m : result A) (f : A → result B) (g : B → result C) :
  (m ≫= f) ≫= g = m ≫= (fun a => f a ≫= g).
Proof. by destruct m. Qed.

Lemma bind_ext {A B} (m : result A) (f g : A → result B) :
  (∀ a, f a = g a) → m ≫= f = m ≫= g.
Proof. intros H. destruct m; [apply H|done]. Qed.

Lemma bind_err {A B} (e : error) (k : A → result B) : Err e ≫= k = Err e.
Proof. done. Qed.

Lemma record_items_to_bytes_fields (items : DmapRecord)
    (num_scalars num_arrays : Z) (data : bytes) :
  DmapWrite.record_items_to_bytes items num_scalars num_arrays data
  = (payload ← fields_to_bytes items;
     Ok (num_scalars + Z.of_nat (length (scalars_of items)),
         num_arrays + Z.of_nat (length (arrays_of items)),
         data ++ payload)).
Proof.
  revert num_scalars num_arrays data.
  induction items as [|[k f] items IH]; intros ns na data.
  - cbn. rewrite app_nil_r. do 3 f_equal; lia.
  - cbn [DmapWrite.record_items_to_bytes fields_to_bytes].
    unfold scalars_of, arrays_of. cbn [omap list_omap snd].
    fold (scalars_of items). fold (arrays_of items).
    destruct f as [s|a]; cbn [field_to_bytes].
    + destruct (DmapWrite.dmap_scalar_to_bytes s) as [b|e]; [|done].
      rewrite !bind_ret, IH.
      destruct (fields_to_bytes items) as [p|e]; [|done].
      rewrite !bind_ret. rewrite <- app_assoc. cbn [length].
      do 3 f_equal; lia.
    + destruct (DmapWrite.dmap_array_to_bytes a) as [b|e]; [|done].
      rewrite !bind_ret, IH.
      destruct (fields_to_bytes items) as [p|e]; [|done].
      rewrite !bind_ret. rewrite <- app_assoc. cbn [length].
      do 3 f_equal; lia.
Qed.

Lemma le_bytes_length (n : nat) (z : Z) : length (le_bytes n z) = n.
Proof. revert z. induction n as [|n IH]; intros z; cbn; [done|]. by rewrite IH. Qed.

Lemma type_bytes_length (ty : Z) (b : bytes) :
  DmapWrite.type_bytes ty = Ok b → length b = 1%nat.
Proof. by intros ->%type_bytes_Ok. Qed.

(** Every field takes two bytes at least: one for its name and its
    type code. *)
Lemma field_to_bytes_length (f : field) (b : bytes) :
  field_to_bytes f = Ok b → (2 ≤ length b)%nat.
Proof.
  destruct f as [s|a]; cbn [field_to_bytes].
  - unfold DmapWrite.dmap_scalar_to_bytes. intros H.
    pose proof (name_bytes_length (DmapScalar.name s)) as Hn.
    set (nb := DmapWrite.name_bytes (DmapScalar.name s)) in *.
    apply bind_Ok in H as (ty & Hty%type_bytes_length & H).
    apply bind_Ok in H as (v & _ & H).
    assert (b = nb ++ ty ++ v) as -> by congruence.
    rewrite !length_app. lia.
  - unfold DmapWrite.dmap_array_to_bytes. intros H.
    pose proof (name_bytes_length (DmapArray.name a)) as Hn.
    set (nb := DmapWrite.name_bytes (DmapArray.name a)) in *.
    apply bind_Ok in H as (ty & Hty%type_bytes_length & H).
    apply bind_Ok in H as (d & _ & H).
    apply bind_Ok in H as (sh & _ & H).
    assert (b = nb ++ ty ++ d ++ sh ++ tostring (DmapArray.value a)) as ->
      by congruence.
    rewrite !length_app. lia.
Qed.

Lemma fields_to_bytes_length (record : DmapRecord) (payload : bytes) :
  fields_to_bytes record = Ok payload →
  (2 * length record ≤ length payload)%nat.
Proof.
  revert payload. induction record as [|[k f] record IH]; intros payload.
  - intros [= <-]. cbn. lia.
  - cbn [fields_to_bytes]. intros H.
    apply bind_Ok in H as (b & Hb%field_to_bytes_length & H).
    apply bind_Ok in H as (bs & Hbs%IH & H). injection H as <-.
    rewrite length_app. cbn [length]. lia.
Qed.

Lemma scalars_arrays_length (record : DmapRecord) :
  (length (scalars_of record) + length (arrays_of record)
   = length record)%nat.
Proof.
  induction record as [|[k f] record IH]; [done|].
  unfold scalars_of, arrays_of. cbn [omap list_omap snd].
  fold (scalars_of record). fold (arrays_of record).
  destruct f; cbn [length]; lia.
Qed.

(** [__dmap_record_to_bytes] appends the block of the record. *)
Lemma dmap_record_to_bytes_block (self : DmapWrite.t) (record : DmapRecord) :
  DmapWrite.dmap_record_to_bytes self record
  = (block ← record_block record; Ok (DmapWrite.extend self block)).
Proof.
  unfold DmapWrite.dmap_record_to_bytes, record_block.
  rewrite record_items_to_bytes_fields.
  destruct (fields_to_bytes record) as [payload|e] eqn:Hp; [|done].
  rewrite !bind_ret. cbv beta iota zeta.
  rewrite (struct_pack_i_int32 65537), bind_ret
    by (unfold int32; lia).
  destruct (struct_pack "i" (VInt (blen ([] ++ payload) + 16)))
    as [size|e] eqn:Hsize; [|by rewrite app_nil_l in Hsize; rewrite Hsize].
  rewrite app_nil_l in Hsize. rewrite Hsize, !bind_ret.
  apply struct_pack_i_Ok in Hsize as [Hint _].
  pose proof (fields_to_bytes_length _ _ Hp) as Hlen.
  pose proof (scalars_arrays_length record) as Hsum.
  unfold int32, blen in Hint.
  rewrite !Z.add_0_l.
  rewrite (struct_pack_i_int32 (Z.of_nat (length (scalars_of record)))),
    bind_ret by (unfold int32; lia).
  rewrite (struct_pack_i_int32 (Z.of_nat (length (arrays_of record)))),
    bind_ret by (unfold int32; lia).
  done.
Qed.

Lemma extend_extend (self : DmapWrite.t) (b1 b2 : bytes) :
  DmapWrite.extend (DmapWrite.extend self b1) b2
  = DmapWrite.extend self (b1 ++ b2).
Proof. unfold DmapWrite.extend. cbn. by rewrite <- app_assoc. Qed.

Lemma extend_nil (self : DmapWrite.t) : DmapWrite.extend self [] = self.
Proof. destruct self. unfold DmapWrite.extend. cbn. by rewrite app_nil_r. Qed.

Lemma records_to_bytes_loop_blocks (self : DmapWrite.t)
    (records : list DmapRecord) :
  DmapWrite.records_to_bytes_loop self records
  = (blocks ← record_blocks records; Ok (DmapWrite.extend self blocks)).
Proof.
  revert self. induction records as [|r records IH]; intros self.
  - cbn. by rewrite extend_nil.
  - cbn [DmapWrite.records_to_bytes_loop record_blocks].
    rewrite dmap_record_to_bytes_block.
    destruct (record_block r) as [b|e]; [|done]. rewrite !bind_ret, IH.
    destruct (record_blocks records) as [bs|e]; [|done].
    by rewrite !bind_ret, extend_extend.
Qed.

(** X3: the raw writer appends to the byte array of the instance and
    never clears it: what [write_dmap_stream] returns is the byte array
    the instance had followed by the blocks of its records, and a second
    call returns the result of the first one followed by the same blocks
    once more, whatever its argument. *)
Theorem write_dmap_stream_appends (self self1 : DmapWrite.t)
    (records : list DmapRecord) (b1 : bytes) :
  DmapWrite.write_dmap_stream self records = Ok (self1, b1) →
  ∃ blocks,
    record_blocks (DmapWrite.dmap_records self1) = Ok blocks
    ∧ b1 = DmapWrite.dmap_bytearr self ++ blocks
    ∧ ∀ records',
        DmapWrite.write_dmap_stream self1 records'
        = Ok (DmapWrite.extend self1 blocks, b1 ++ blocks).
Proof.
  unfold DmapWrite.write_dmap_stream. intros H.
  set (self0 := if DmapWrite.is_empty_list (DmapWrite.dmap_records self)
                then DmapWrite.set_records self records else self) in *.
  assert (Hb0 : DmapWrite.dmap_bytearr self0 = DmapWrite.dmap_bytearr self).
  { unfold self0. by destruct (DmapWrite.is_empty_list _). }
  apply bind_Ok in H as ([] & Hne & H).
  apply bind_Ok in H as (s' & Hs' & H). injection H as <- <-.
  unfold DmapWrite.dmap_records_to_bytes in Hs'.
  rewrite records_to_bytes_loop_blocks in Hs'.
  apply bind_Ok in Hs' as (blocks & Hblocks & Hs'). injection Hs' as <-.
  exists blocks. cbn [DmapWrite.extend DmapWrite.dmap_records
    DmapWrite.dmap_bytearr]. split; [done|]. split; [by rewrite Hb0|].
  intros records'.
  unfold DmapWrite.empty_record_check in *.
  destruct (DmapWrite.is_empty_list (DmapWrite.dmap_records self0)) eqn:He;
    [done|].
  change (DmapWrite.dmap_records (DmapWrite.extend self0 blocks))
    with (DmapWrite.dmap_records self0).
  rewrite He, bind_ret. unfold DmapWrite.dmap_records_to_bytes.
  rewrite records_to_bytes_loop_blocks.
  change (DmapWrite.dmap_records (DmapWrite.extend self0 blocks))
    with (DmapWrite.dmap_records self0).
  by rewrite Hblocks, !bind_ret.
Qed.

Lemma write_dmap_stream_appends_witness :
  ∃ blocks,
    record_blocks [sample_record] = Ok blocks
    ∧ sample_bytes = [] ++ blocks
    ∧ ∀ records',
        DmapWrite.write_dmap_stream
          (DmapWrite.Build [sample_record] sample_bytes "") records'
        = Ok (DmapWrite.extend
                (DmapWrite.Build [sample_record] sample_bytes "") blocks,
              sample_bytes ++ blocks).
Proof.
  refine (write_dmap_stream_appends (DmapWrite.Build [] [] "")
            (DmapWrite.Build [sample_record] sample_bytes "")
            [sample_record] sample_bytes _).
  vm_compute. reflexivity.
Defined.

(** ** The field checks do not change what is written *)

Lemma file_structure_loop_checks (l : list (gmap string string))
    (records : list DmapRecord) (self self' : DmapWrite.t) (n : nat) :
  DmapWrite.file_structure_loop l self n records = Ok self'
  ↔ (∀ i record, records !! i = Some record →
       field_checks l record (n + i) = Ok ())
    ∧ DmapWrite.records_to_bytes_loop self records = Ok self'.
Proof.
  revert self n. induction records as [|r records IH]; intros self n.
  - cbn. split; [|by intros [_ ?]]. intros ?. split; [|done].
    intros i record Hi. by rewrite lookup_nil in Hi.
  - cbn [DmapWrite.file_structure_loop DmapWrite.records_to_bytes_loop].
    assert (Hchk : ∀ k : result DmapWrite.t,
      (DmapWrite.extra_field_check l r n;;
       DmapWrite.missing_field_check l r n;;
       DmapWrite.incorrect_types_check l r n;; k)
      = (field_checks l r n;; k)).
    { intros k. unfold field_checks.
      destruct (DmapWrite.extra_field_check l r n) as [[]|]; [|done].
      destruct (DmapWrite.missing_field_check l r n) as [[]|]; [|done].
      done. }
    rewrite Hchk. split.
    + intros H. apply bind_Ok in H as ([] & Hc & H).
      apply bind_Ok in H as (s1 & Hs1 & H). apply IH in H as [Hall Hrest].
      split.
      * intros [|i] record Hi.
        -- injection Hi as <-. by rewrite Nat.add_0_r.
        -- rewrite <- Nat.add_succ_comm. by apply Hall.
      * by rewrite Hs1, bind_ret.
    + intros [Hall H].
      pose proof (Hall 0%nat r eq_refl) as Hc. rewrite Nat.add_0_r in Hc.
      rewrite Hc, bind_ret.
      apply bind_Ok in H as (s1 & Hs1 & H). rewrite Hs1, bind_ret.
      apply IH. split; [|done]. intros i record Hi.
      rewrite Nat.add_succ_comm. by apply (Hall (S i)).
Qed.

Lemma file_structure_loop_first (l : list (gmap string string))
    (records : list DmapRecord) (self : DmapWrite.t) (n i : nat)
    (record : DmapRecord) (e : error) :
  records !! i = Some record →
  (∀ j r, (j < i)%nat → records !! j = Some r →
     field_checks l r (n + j) = Ok () ∧ is_ok (record_block r) = true) →
  field_checks l record (n + i) = Err e →
  DmapWrite.file_structure_loop l self n records = Err e.
Proof.
  revert self n i. induction records as [|r records IH]; intros self n i Hi Hlt He.
  - by rewrite lookup_nil in Hi.
  - cbn [DmapWrite.file_structure_loop].
    assert (Hchk : ∀ k : result DmapWrite.t,
      (DmapWrite.extra_field_check l r n;;
       DmapWrite.missing_field_check l r n;;
       DmapWrite.incorrect_types_check l r n;; k)
      = (field_checks l r n;; k)).
    { intros k. unfold field_checks.
      destruct (DmapWrite.extra_field_check l r n) as [[]|]; [|done].
      destruct (DmapWrite.missing_field_check l r n) as [[]|]; [|done].
      done. }
    rewrite Hchk. destruct i as [|i].
    + injection Hi as ->. rewrite Nat.add_0_r in He. by rewrite He.
    + destruct (Hlt 0%nat r ltac:(lia) eq_refl) as [Hc Hb].
      rewrite Nat.add_0_r in Hc. rewrite Hc, bind_ret.
      rewrite dmap_record_to_bytes_block.
      destruct (record_block r) as [b|]; [|done]. rewrite !bind_ret.
      apply (IH _ (S n) i); [done| |by rewrite Nat.add_succ_comm].
      intros j r' Hj Hr'. rewrite Nat.add_succ_comm.
      apply (Hlt (S j)); [lia|done].
Qed.

(** X4: the field checks of a product writer do not change what is
    written. [superDARN_file_structure_to_bytes] succeeds exactly when
    every record passes the three field checks under its own number and
    [dmap_records_to_bytes] succeeds, and then both leave the same
    instance, so the same bytes. When a record fails a check and the
    records before it pass theirs and can be written, the exception is
    that of this record. *)
Theorem superDARN_file_structure_to_bytes_checks
    (file_struct_list : list (gmap string string)) (self : DmapWrite.t) :
  (∀ self',
     DmapWrite.superDARN_file_structure_to_bytes file_struct_list self
     = Ok self'
     ↔ (∀ rec_num record,
          DmapWrite.dmap_records self !! rec_num = Some record →
          field_checks file_struct_list record rec_num = Ok ())
       ∧ DmapWrite.dmap_records_to_bytes self = Ok self')
  ∧ (∀ rec_num record e,
       DmapWrite.dmap_records self !! rec_num = Some record →
       (∀ j r, (j < rec_num)%nat → DmapWrite.dmap_records self !! j = Some r →
          field_checks file_struct_list r j = Ok ()
          ∧ is_ok (record_block r) = true) →
       field_checks file_struct_list record rec_num = Err e →
       DmapWrite.superDARN_file_structure_to_bytes file_struct_list self
       = Err e).
Proof.
  unfold DmapWrite.superDARN_file_structure_to_bytes,
    DmapWrite.dmap_records_to_bytes. split.
  - intros self'. apply file_structure_loop_checks.
  - intros rec_num record e Hi Hlt He.
    by apply (file_structure_loop_first _ _ _ 0 rec_num record).
Qed.

Lemma superDARN_file_structure_to_bytes_checks_witness :
  DmapWrite.superDARN_file_structure_to_bytes [sample_types]
    (DmapWrite.Build [sample_record; wrong_type_record] [] "")
  = Err (SuperDARNDataFormatError {["stid" := "h"]} 1).
Proof.
  refine (proj2 (superDARN_file_structure_to_bytes_checks [sample_types]
                   (DmapWrite.Build [sample_record; wrong_type_record] [] ""))
            1%nat wrong_type_record _ eq_refl _ _).
  - intros [|j] r Hj Hr; [|lia]. injection Hr as <-.
    split; vm_compute; reflexivity.
  - vm_compute. reflexivity.
Defined.

(** ** What the reader makes of the blocks of the writer *)

Lemma read_int_le_bytes (pre rest : bytes) (x : Z) :
  int32 x →
  DmapRead.read_int (pre ++ le_bytes 4 x ++ rest) (blen pre)
  = Ok (x, blen pre + 4).
Proof.
  intros Hx. cbn [le_bytes app]. rewrite read_int_at.
  change [x mod 256; x / 256 mod 256; x / 256 / 256 mod 256;
          x / 256 / 256 / 256 mod 256] with (le_bytes 4 x).
  rewrite le_signed_le_bytes by done. by rewrite blen_app.
Qed.

Lemma blen_le_bytes (n : nat) (z : Z) : blen (le_bytes n z) = Z.of_nat n.
Proof. unfold blen. by rewrite le_bytes_length. Qed.

Lemma record_block_Ok (record : DmapRecord) (block : bytes) :
  record_block record = Ok block →
  ∃ payload,
    fields_to_bytes record = Ok payload
    ∧ blen block = blen payload + 16 ∧ int32 (blen block)
    ∧ block = le_bytes 4 65537 ++ le_bytes 4 (blen block)
              ++ le_bytes 4 (Z.of_nat (length (scalars_of record)))
              ++ le_bytes 4 (Z.of_nat (length (arrays_of record)))
              ++ payload.
Proof.
  unfold record_block. intros H.
  apply bind_Ok in H as (payload & Hp & H).
  apply bind_Ok in H as (size & Hsize & H).
  apply struct_pack_i_Ok in Hsize as [Hint ->].
  assert (block = le_bytes 4 65537 ++ le_bytes 4 (blen payload + 16)
                  ++ le_bytes 4 (Z.of_nat (length (scalars_of record)))
                  ++ le_bytes 4 (Z.of_nat (length (arrays_of record)))
                  ++ payload) as -> by congruence.
  clear H. exists payload. split; [done|].
  assert (Hlen : blen (le_bytes 4 65537 ++ le_bytes 4 (blen payload + 16)
                       ++ le_bytes 4 (Z.of_nat (length (scalars_of record)))
                       ++ le_bytes 4 (Z.of_nat (length (arrays_of record)))
                       ++ payload) = blen payload + 16).
  { rewrite !blen_app, !blen_le_bytes. lia. }
  rewrite Hlen. done.
Qed.

(** The header of a block as the reader finds it, wherever the block
    lies in the buffer. *)
Lemma record_block_header (record : DmapRecord) (block pre post : bytes) :
  record_block record = Ok block →
  let buf := pre ++ block ++ post in
  DmapRead.read_int buf (blen pre + 4) = Ok (blen block, blen pre + 8)
  ∧ DmapRead.read_int buf (blen pre + 8)
    = Ok (Z.of_nat (length (scalars_of record)), blen pre + 12)
  ∧ DmapRead.read_int buf (blen pre + 12)
    = Ok (Z.of_nat (length (arrays_of record)), blen pre + 16)
  ∧ 16 ≤ blen block ∧ int32 (blen block).
Proof.
  intros H buf. apply record_block_Ok in H as (payload & Hp & Hlen & Hint & Hb).
  pose proof (fields_to_bytes_length _ _ Hp) as Hpl.
  pose proof (scalars_arrays_length record) as Hsum.
  pose proof (blen_nonneg payload).
  assert (Hns : int32 (Z.of_nat (length (scalars_of record))))
    by (unfold int32, blen in *; lia).
  assert (Hna : int32 (Z.of_nat (length (arrays_of record))))
    by (unfold int32, blen in *; lia).
  set (h := le_bytes 4 65537) in *.
  set (ns := Z.of_nat (length (scalars_of record))) in *.
  set (na := Z.of_nat (length (arrays_of record))) in *.
  assert (Hh : blen h = 4) by done.
  split; [|split; [|split; [|split; [lia|done]]]].
  - assert (buf = (pre ++ h) ++ le_bytes 4 (blen block)
                    ++ (le_bytes 4 ns ++ le_bytes 4 na ++ payload ++ post)) as ->.
    { unfold buf. rewrite Hb at 1. by rewrite <- !app_assoc. }
    replace (blen pre + 4) with (blen (pre ++ h)) by (rewrite blen_app; lia).
    rewrite read_int_le_bytes by done. do 2 f_equal. rewrite blen_app. lia.
  - assert (buf = (pre ++ h ++ le_bytes 4 (blen block)) ++ le_bytes 4 ns
                    ++ (le_bytes 4 na ++ payload ++ post)) as ->.
    { unfold buf. rewrite Hb at 1. by rewrite <- !app_assoc. }
    replace (blen pre + 8) with (blen (pre ++ h ++ le_bytes 4 (blen block))).
    2:{ rewrite !blen_app, !blen_le_bytes. lia. }
    rewrite read_int_le_bytes by done. do 2 f_equal.
    rewrite !blen_app, !blen_le_bytes. lia.
  - assert (buf = (pre ++ h ++ le_bytes 4 (blen block) ++ le_bytes 4 ns)
                    ++ le_bytes 4 na ++ (payload ++ post)) as ->.
    { unfold buf. rewrite Hb at 1. by rewrite <- !app_assoc. }
    replace (blen pre + 12)
      with (blen (pre ++ h ++ le_bytes 4 (blen block) ++ le_bytes 4 ns)).
    2:{ rewrite !blen_app, !blen_le_bytes. lia. }
    rewrite read_int_le_bytes by done. do 2 f_equal.
    rewrite !blen_app, !blen_le_bytes. lia.
Qed.

Lemma block_chain_app (buf : bytes) (c m e : Z) (s1 s2 : list Z) :
  block_chain buf c s1 m → block_chain buf m s2 e →
  block_chain buf c (s1 ++ s2) e.
Proof.
  revert c. induction s1 as [|x s1 IH]; intros c; cbn [block_chain app].
  - by intros ->.
  - intros (Hr & Hx & Hch) H2. split; [done|]. split; [done|]. by apply IH.
Qed.

(** A chain of blocks stays one when bytes are added after it. *)
Lemma block_chain_extend (buf more : bytes) (c : Z) (sizes : list Z) :
  0 ≤ c → block_chain buf c sizes (blen buf) →
  block_chain (buf ++ more) c sizes (blen buf).
Proof.
  revert c. induction sizes as [|x sizes IH]; intros c Hc; cbn [block_chain].
  - done.
  - intros (Hr & Hx & Hch). split; [|split; [done|apply IH; [lia|done]]].
    rewrite read_int_nonneg in Hr by lia. rewrite read_int_nonneg by lia.
    destruct (Z.ltb_spec (blen buf - (c + 4)) 4) as [|Hlen]; [done|].
    rewrite blen_app. pose proof (blen_nonneg more).
    destruct (Z.ltb_spec (blen buf + blen more - (c + 4)) 4); [lia|].
    rewrite <- Hr. do 2 f_equal.
    rewrite drop_app_le by (unfold blen in *; lia).
    rewrite take_app_le; [done|]. rewrite length_drop. unfold blen in *. lia.
Qed.

Lemma record_blocks_chain (records : list DmapRecord) (blocks pre post : bytes) :
  record_blocks records = Ok blocks →
  ∃ sizes,
    block_chain (pre ++ blocks ++ post) (blen pre) sizes
      (blen pre + blen blocks).
Proof.
  revert blocks pre. induction records as [|r records IH]; intros blocks pre.
  - intros [= <-]. exists []. cbn [block_chain]. change (blen []) with 0. lia.
  - cbn [record_blocks]. intros H.
    apply bind_Ok in H as (b & Hb & H).
    apply bind_Ok in H as (bs & Hbs & H). injection H as <-.
    destruct (IH bs (pre ++ b) Hbs) as (sizes & Hch).
    destruct (record_block_header r b pre (bs ++ post) Hb)
      as (Hsize & _ & _ & Hlen & _).
    exists (blen b :: sizes). cbn [block_chain].
    rewrite <- app_assoc. split; [done|]. split; [lia|].
    rewrite <- app_assoc, !blen_app in Hch. rewrite blen_app.
    by rewrite Z.add_assoc.
Qed.

Lemma test_initial_data_integrity_chain (buf : bytes) :
  DmapRead.test_initial_data_integrity buf 0 = Ok 0
  ↔ ∃ sizes, block_chain buf 0 sizes (blen buf).
Proof.
  pose proof (blen_nonneg buf) as Hlen.
  rewrite test_initial_data_integrity_loop. split.
  - intros H. apply bind_Ok in H as ([c t] & H & _).
    apply integrity_loop_Ok in H as (_ & _ & H); [done|lia..].
  - intros Hch.
    assert (DmapRead.integrity_loop (Z.to_nat (blen buf)) buf 0 0
            = Ok (blen buf, blen buf)) as ->; [|done].
    apply integrity_loop_Ok; [lia..|done].
Qed.

(** X5: what the raw writer returns passes the integrity scan of the
    reader whenever the byte array that the instance had before the call
    passes it, as the empty byte array of a new instance does. *)
Theorem write_dmap_stream_integrity (self self' : DmapWrite.t)
    (records : list DmapRecord) (b : bytes) :
  DmapWrite.write_dmap_stream self records = Ok (self', b) →
  DmapRead.test_initial_data_integrity (DmapWrite.dmap_bytearr self) 0 = Ok 0 →
  DmapRead.test_initial_data_integrity b 0 = Ok 0.
Proof.
  unfold DmapWrite.write_dmap_stream. intros H Hold.
  set (self0 := if DmapWrite.is_empty_list (DmapWrite.dmap_records self)
                then DmapWrite.set_records self records else self) in *.
  assert (Hb0 : DmapWrite.dmap_bytearr self0 = DmapWrite.dmap_bytearr self).
  { unfold self0. by destruct (DmapWrite.is_empty_list _). }
  apply bind_Ok in H as ([] & _ & H).
  apply bind_Ok in H as (s' & Hs' & H). injection H as <- <-.
  unfold DmapWrite.dmap_records_to_bytes in Hs'.
  rewrite records_to_bytes_loop_blocks in Hs'.
  apply bind_Ok in Hs' as (blocks & Hblocks & Hs'). injection Hs' as <-.
  cbn [DmapWrite.extend DmapWrite.dmap_bytearr]. rewrite Hb0.
  set (old := DmapWrite.dmap_bytearr self) in *.
  apply test_initial_data_integrity_chain in Hold as (s1 & Hs1).
  apply test_initial_data_integrity_chain.
  destruct (record_blocks_chain _ blocks old [] Hblocks) as (s2 & Hs2).
  rewrite app_nil_r in Hs2. exists (s1 ++ s2).
  rewrite blen_app. eapply block_chain_app; [|done].
  by apply block_chain_extend.
Qed.

Lemma write_dmap_stream_integrity_witness :
  DmapRead.test_initial_data_integrity (sample_bytes ++ sample_bytes) 0 = Ok 0.
Proof.
  refine (write_dmap_stream_integrity
            (DmapWrite.Build [sample_record] sample_bytes "")
            (DmapWrite.Build [sample_record] (sample_bytes ++ sample_bytes) "")
            [] (sample_bytes ++ sample_bytes) _ _);
    vm_compute; reflexivity.
Defined.

(** X6: the writer writes records that the reader refuses. A record
    without a scalar, or without an array, is written like any other;
    where its block lies in a buffer, [read_record] raises
    [ZeroByteError], and so does the reader on a stream that starts with
    it. *)
Theorem record_without_scalar_or_array (record : DmapRecord) (block : bytes) :
  record_block record = Ok block →
  scalars_of record = [] ∨ arrays_of record = [] →
  (∀ pre post,
     DmapRead.read_record (pre ++ block ++ post) (blen pre)
     = Err ZeroByteError)
  ∧ (∀ records b,
       DmapWrite.encode (record :: records) = Ok b →
       DmapRead.decode b = Err ZeroByteError).
Proof.
  intros Hb Hno.
  assert (Hrd : ∀ pre post,
    DmapRead.read_record (pre ++ block ++ post) (blen pre) = Err ZeroByteError).
  { intros pre post.
    destruct (record_block_header record block pre post Hb)
      as (Hsize & Hns & Hna & Hlen & _).
    unfold DmapRead.read_record. cbv zeta.
    rewrite Hsize, bind_ret. cbv beta iota.
    unfold DmapRead.dmap_end_bytes. rewrite !blen_app.
    pose proof (blen_nonneg post).
    rewrite (proj2 (bytes_check_Ok _ _))
      by (change DmapRead.INT_bytes with 4; lia).
    rewrite bind_ret. rewrite (proj2 (zero_negative_check_Ok _)) by lia.
    rewrite bind_ret. rewrite Hns, bind_ret. cbv beta iota.
    rewrite Hna, bind_ret. cbv beta iota.
    destruct Hno as [Hno|Hno]; rewrite Hno; cbn [length]; [reflexivity|].
    destruct (Z.of_nat (length (scalars_of record))) as [|p|p] eqn:Hz;
      [reflexivity|reflexivity|lia]. }
  split; [done|].
  intros records b He. unfold DmapWrite.encode, DmapWrite.write_dmap_stream in He.
  cbn [DmapWrite.dmap_records DmapWrite.is_empty_list] in He.
  unfold DmapWrite.empty_record_check, DmapWrite.set_records in He.
  cbn [DmapWrite.dmap_records DmapWrite.is_empty_list] in He.
  rewrite bind_ret in He. unfold DmapWrite.dmap_records_to_bytes in He.
  rewrite records_to_bytes_loop_blocks in He.
  cbn [DmapWrite.dmap_records record_blocks] in He. rewrite Hb, bind_ret in He.
  destruct (record_blocks records) as [bs|] eqn:Hbs; [|done].
  rewrite !bind_ret in He. cbv beta iota in He. injection He as <-.
  cbn [DmapWrite.extend DmapWrite.dmap_bytearr app].
  destruct (record_block_header record block [] bs Hb) as (_ & _ & _ & Hlen & _).
  unfold DmapRead.decode, DmapRead.init. pose proof (blen_nonneg bs).
  destruct (Z.eqb_spec (blen (block ++ bs)) 0) as [H0|_];
    [rewrite blen_app in H0; lia|].
  rewrite bind_ret. cbv beta iota. unfold DmapRead.read_records.
  unfold DmapRead.dmap_end_bytes.
  destruct (Z.to_nat (blen (block ++ bs) - 0)) as [|fuel] eqn:Hf;
    [rewrite blen_app in Hf; lia|].
  cbn [DmapRead.read_records_loop]. unfold DmapRead.dmap_end_bytes.
  destruct (Z.ltb_spec 0 (blen (block ++ bs))); [|rewrite blen_app in *; lia].
  specialize (Hrd [] bs). cbn [app] in Hrd. change (blen []) with 0 in Hrd.
  by rewrite Hrd.
Qed.

Lemma record_without_scalar_or_array_witness :
  DmapRead.decode
    [1; 0; 1; 0; 24; 0; 0; 0; 1; 0; 0; 0; 0; 0; 0; 0;
     115; 116; 105; 100; 0; 2; 7; 0]
  = Err ZeroByteError.
Proof.
  refine (proj2 (record_without_scalar_or_array
                   [("stid", Scalar sample_stid)] _ _ _) [] _ _).
  - vm_compute. reflexivity.
  - by right.
  - vm_compute. reflexivity.
Defined.

(** ** What the reader accepts *)

Lemma read_records_loop_block_chain (fuel : nat) (buf : bytes)
    (acc recs : list DmapRecord) (c c' : Z) :
  0 ≤ c →
  DmapRead.read_records_loop fuel buf acc c = Ok (recs, c') →
  ∃ sizes, block_chain buf c sizes c' ∧ blen buf ≤ c'
           ∧ length recs = (length acc + length sizes)%nat.
Proof.
  revert acc c. induction fuel as [|fuel IH]; intros acc c Hc;
    cbn [DmapRead.read_records_loop]; unfold DmapRead.dmap_end_bytes;
    (destruct (Z.ltb_spec c (blen buf)) as [Hlt|Hge];
     [|intros [= <- <-]; exists []; cbn; split; [done|split; [done|lia]]]).
  - done.
  - intros H. apply bind_Ok in H as ([r c1] & Hr & H).
    apply read_record_inv in Hr
      as (bs & c1' & ns & c2 & na & c3 & r1 & c4 & Hbs & _ & Hpos & _ & _ & _
          & _ & _ & _ & _ & Hend).
    pose proof (read_int_cut buf 0 (c + 4) bs c1' ltac:(lia) Hbs) as [-> _].
    apply IH in H as (sizes & Hch & Hstop & Hlen); [|lia].
    exists (bs :: sizes). cbn [block_chain length]. split; [|split; [done|]].
    + replace (c + 4 + 4) with (c + 8) in Hbs by lia.
      split; [done|]. split; [done|]. by replace (c + bs) with c1 by lia.
    + rewrite Hlen, length_app. cbn [length]. lia.
Qed.

(** X7: a stream that the reader decodes passes the integrity scan, and
    the reader returns one record at least: [read_records] follows the
    same block sizes as [test_initial_data_integrity] and ends at the
    end of the buffer. *)
Theorem decode_integrity (stream : bytes) (records : list DmapRecord) :
  DmapRead.decode stream = Ok records →
  DmapRead.test_initial_data_integrity stream 0 = Ok 0
  ∧ records ≠ []
  ∧ ∃ c, DmapRead.read_records stream [] 0 = Ok (records, c)
         ∧ c = DmapRead.dmap_end_bytes stream.
Proof.
  unfold DmapRead.decode, DmapRead.init. intros H.
  destruct (Z.eqb_spec (blen stream) 0) as [|Hne]; [done|].
  rewrite bind_ret in H. cbv beta iota in H.
  apply bind_Ok in H as ([recs c] & Hr & H). injection H as ->.
  pose proof Hr as Hrr. unfold DmapRead.read_records in Hr.
  apply bind_Ok in Hr as ([recs' c'] & Hl & Hr).
  apply bind_Ok in Hr as ([] & Hb & Hr). injection Hr as -> ->.
  apply bytes_check_Ok in Hb. unfold DmapRead.dmap_end_bytes in *.
  apply read_records_loop_block_chain in Hl as (sizes & Hch & Hstop & Hlen);
    [|done].
  assert (c = blen stream) as -> by lia.
  split; [|split].
  - apply test_initial_data_integrity_chain. by exists sizes.
  - destruct sizes as [|x sizes].
    + cbn in Hch. pose proof (blen_nonneg stream). lia.
    + destruct records; [done|done].
  - by exists (blen stream).
Qed.

Lemma decode_integrity_witness :
  DmapRead.test_initial_data_integrity sample_bytes 0 = Ok 0
  ∧ [sample_record] ≠ []
  ∧ ∃ c, DmapRead.read_records sample_bytes [] 0 = Ok ([sample_record], c)
         ∧ c = DmapRead.dmap_end_bytes sample_bytes.
Proof.
  refine (decode_integrity sample_bytes [sample_record] _).
  vm_compute. reflexivity.
Defined.

(** ** The fields of a record that was read *)

Lemma od_set_elem (record : DmapRecord) (k k' : string) (v v' : field) :
  (k', v') ∈ od_set record k v → (k', v') = (k, v) ∨ (k', v') ∈ record.
Proof.
  induction record as [|[k0 v0] record IH]; cbn [od_set].
  - intros Hin. apply elem_of_cons in Hin as [->|Hin]; [by left|].
    by apply elem_of_nil in Hin.
  - destruct (decide (k0 = k)) as [->|Hne]; intros Hin;
      apply elem_of_cons in Hin as [->|Hin].
    + by left.
    + right. apply elem_of_cons. by right.
    + right. apply elem_of_cons. by left.
    + destruct (IH Hin) as [?|?]; [by left|].
      right. apply elem_of_cons. by right.
Qed.

Lemma od_keys_od_set (record : DmapRecord) (k : string) (v : field) (x : string) :
  x ∈ od_keys (od_set record k v) ↔ x = k ∨ x ∈ od_keys record.
Proof.
  unfold od_keys. induction record as [|[k0 v0] record IH]; cbn [od_set].
  - cbn [fmap list_fmap fst]. by rewrite elem_of_cons.
  - destruct (decide (k0 = k)) as [->|Hne]; cbn [fmap list_fmap fst].
    + rewrite !elem_of_cons. tauto.
    + rewrite !elem_of_cons, IH. tauto.
Qed.

Lemma od_set_NoDup (record : DmapRecord) (k : string) (v : field) :
  NoDup (od_keys record) → NoDup (od_keys (od_set record k v)).
Proof.
  induction record as [|[k0 v0] record IH]; cbn [od_set].
  - intros _. apply NoDup_singleton.
  - destruct (decide (k0 = k)) as [->|Hne]; [done|].
    unfold od_keys. cbn [fmap list_fmap fst]. rewrite !NoDup_cons.
    intros [Hk0 Hnd]. split; [|by apply IH].
    intros [?|?]%od_keys_od_set; done.
Qed.

Lemma od_set_nonempty (record : DmapRecord) (k : string) (v : field) :
  od_set record k v ≠ [].
Proof.
  destruct record as [|[k0 v0] record]; cbn [od_set]; [done|].
  by destruct (decide (k0 = k)).
Qed.

Lemma read_ints_length (n : nat) (buf : bytes) (c c' : Z) (xs : list Z) :
  DmapRead.read_ints n buf c = Ok (xs, c') → length xs = n.
Proof.
  revert c xs. induction n as [|n IH]; intros c xs; cbn [DmapRead.read_ints].
  - by intros [= <- _].
  - intros H. apply bind_Ok in H as ([x c1] & _ & H).
    apply bind_Ok in H as ([xs' c2] & Hxs & H). injection H as <- <-.
    cbn [length]. f_equal. by apply (IH c1).
Qed.

Lemma read_data_value (buf : bytes) (ty size c c' : Z) (fmt : string)
    (v : pyval) :
  DMAP_DATA_TYPES ty = Some (fmt, size) →
  DmapRead.read_data buf fmt size c = Ok (v, c') →
  ty ≠ DMAP ∧ value_of_format fmt v.
Proof.
  intros Htab H.
  assert (Hfmt : fmt ∈ ["" ; "c"; "h"; "i"; "f"; "d"; "s"; "q"; "B"; "H";
                        "I"; "Q"] ∧ (ty = DMAP ↔ fmt = "")).
  { unfold DMAP_DATA_TYPES in Htab.
    repeat (destruct (decide _) as [->|?] in Htab;
            [injection Htab as <- <-; split; [set_solver|done]|]).
    done. }
  destruct Hfmt as [Hin Hdmap].
  unfold DmapRead.read_data in H.
  destruct (_ <=? _); [done|]. destruct (_ <? _); [done|].
  destruct (decide (fmt = "c")) as [->|Hc].
  { apply bind_Ok in H as (d & _ & H). injection H as <- _.
    split; [by rewrite Hdmap|done]. }
  destruct (decide (fmt = "s")) as [->|Hs].
  { apply bind_Ok in H as (k & _ & H). apply bind_Ok in H as ([] & _ & H).
    apply bind_Ok in H as (d & _ & H). injection H as <- _.
    split; [by rewrite Hdmap|done]. }
  apply bind_Ok in H as (data & Hdata & H).
  apply bind_Ok in H as (d0 & Hd0 & H). injection H as <- _.
  unfold struct_unpack_from in Hdata.
  destruct (calcsize fmt) as [n|]; [|done].
  apply bind_Ok in Hdata as (raw & _ & Hdata).
  destruct (decide (fmt = "")) as [->|He].
  { injection Hdata as <-. done. }
  split; [by rewrite Hdmap|].
  destruct (decide (fmt = "c")); [done|].
  repeat (apply elem_of_cons in Hin as [->|Hin]; [done || (injection Hdata as <-; injection Hd0 as <-; done)|]).
  by apply elem_of_nil in Hin.
Qed.

Lemma read_scalar_sound (buf : bytes) (c c' : Z) (s : DmapScalar.t) :
  DmapRead.read_scalar buf c = Ok (s, c') →
  field_sound (DmapScalar.name s) (Scalar s).
Proof.
  unfold DmapRead.read_scalar. intros H.
  apply bind_Ok in H as ([name c1] & _ & H).
  apply bind_Ok in H as ([ty c2] & _ & H).
  apply bind_Ok in H as ([] & _ & H).
  apply bind_Ok in H as ([fmt size] & Hentry & H).
  unfold DmapRead.type_entry in Hentry.
  destruct (DMAP_DATA_TYPES ty) as [[fmt' size']|] eqn:Htab; [|done].
  injection Hentry as -> ->. cbn [str_ne_int] in H. unfold str_ne_int in H.
  apply bind_Ok in H as ([v c3] & Hv & H). injection H as <- _.
  split; [done|]. split; [by exists size|].
  cbn [DmapScalar.data_type DmapScalar.data_type_fmt DmapScalar.value].
  by apply (read_data_value buf ty size c2 c3).
Qed.

Lemma read_array_sound (buf : bytes) (record_size c c' : Z) (a : DmapArray.t) :
  DmapRead.read_array buf record_size c = Ok (a, c') →
  field_sound (DmapArray.name a) (Array a).
Proof.
  intros H. apply read_array_inv in H
    as (name & c1 & ty & c2 & fmt & size & dim & c3 & dims & c4 & value
        & _ & _ & Htab & _ & Hdim & Hdims & _ & _ & _ & _ & _ & ->).
  split; [done|]. split; [by exists size|].
  cbn [DmapArray.dimension DmapArray.shape]. split; [lia|].
  apply read_ints_length in Hdims. rewrite length_reverse, Hdims. lia.
Qed.

Lemma read_scalars_sound (n : nat) (buf : bytes) (c c' : Z)
    (r0 r : DmapRecord) :
  DmapRead.read_scalars n buf r0 c = Ok (r, c') →
  NoDup (od_keys r0) → (∀ k f, (k, f) ∈ r0 → field_sound k f) →
  NoDup (od_keys r) ∧ (∀ k f, (k, f) ∈ r → field_sound k f)
  ∧ (r0 ≠ [] ∨ n ≠ O → r ≠ []).
Proof.
  revert c r0. induction n as [|n IH]; intros c r0;
    cbn [DmapRead.read_scalars].
  - intros [= <- _] Hnd Hall. split; [done|]. split; [done|]. by intros [?|?].
  - intros H Hnd Hall. apply bind_Ok in H as ([s c1] & Hs & H).
    apply IH in H as (Hnd' & Hall' & Hne).
    + split; [done|]. split; [done|]. intros _. apply Hne. left.
      apply od_set_nonempty.
    + by apply od_set_NoDup.
    + intros k f [[= -> ->]|Hin]%od_set_elem; [|by apply Hall].
      by apply (read_scalar_sound buf c c1).
Qed.

Lemma read_arrays_sound (n : nat) (buf : bytes) (block_size c c' : Z)
    (r0 r : DmapRecord) :
  DmapRead.read_arrays n buf block_size r0 c = Ok (r, c') →
  NoDup (od_keys r0) → (∀ k f, (k, f) ∈ r0 → field_sound k f) →
  NoDup (od_keys r) ∧ (∀ k f, (k, f) ∈ r → field_sound k f)
  ∧ (r0 ≠ [] ∨ n ≠ O → r ≠ []).
Proof.
  revert c r0. induction n as [|n IH]; intros c r0;
    cbn [DmapRead.read_arrays].
  - intros [= <- _] Hnd Hall. split; [done|]. split; [done|]. by intros [?|?].
  - intros H Hnd Hall. apply bind_Ok in H as ([a c1] & Ha & H).
    apply IH in H as (Hnd' & Hall' & Hne).
    + split; [done|]. split; [done|]. intros _. apply Hne. left.
      apply od_set_nonempty.
    + by apply od_set_NoDup.
    + intros k f [[= -> ->]|Hin]%od_set_elem; [|by apply Hall].
      by apply (read_array_sound buf block_size c c1).
Qed.

(** X8: the fields of a record that [read_record] returns. The record
    is not empty and no two of its fields have the same key; every field
    lies under its own name, its type is one of [DMAP_DATA_TYPES] and its
    format is the one of that type. A scalar is not of the reserved type
    and its value is a [str] under 's', a [float] under 'f' and 'd' and
    an [int] otherwise; an array has one dimension at least and as many
    lengths in its shape as its dimension says. *)
Theorem read_record_fields (buf : bytes) (cursor c' : Z) (record : DmapRecord) :
  DmapRead.read_record buf cursor = Ok (record, c') →
  record ≠ [] ∧ NoDup (od_keys record)
  ∧ ∀ k f, (k, f) ∈ record → field_sound k f.
Proof.
  intros H. apply read_record_inv in H
    as (bs & c1 & ns & c2 & na & c3 & r1 & c4 & _ & _ & _ & _ & _ & Hns & _ & _
        & Hsc & Har & _).
  apply read_scalars_sound in Hsc as (Hnd1 & Hall1 & Hne1).
  - apply read_arrays_sound in Har as (Hnd & Hall & Hne); [|done..].
    split; [|done]. apply Hne. left. apply Hne1. right. lia.
  - apply NoDup_nil_2.
  - intros k f Hin. by apply elem_of_nil in Hin.
Qed.

Lemma read_record_fields_witness :
  sample_record ≠ [] ∧ NoDup (od_keys sample_record)
  ∧ ∀ k f, (k, f) ∈ sample_record → field_sound k f.
Proof.
  refine (read_record_fields sample_bytes 0 58 sample_record _).
  vm_compute. reflexivity.
Defined.

(** ** Arrays of chars *)

Lemma read_items_char (n : nat) (buf : bytes) (data data' : list pyval)
    (c c' : Z) :
  DmapRead.read_items n buf "c" 1 data c = Ok (data', c') →
  c' = c + Z.of_nat n
  ∧ ∃ new, data' = data ++ new ∧ length new = n
           ∧ forallb is_VInt new = true.
Proof.
  revert data c. induction n as [|n IH]; intros data c;
    cbn [DmapRead.read_items].
  - intros [= <- <-]. split; [lia|]. exists []. by rewrite app_nil_r.
  - intros H. apply bind_Ok in H as ([v c1] & Hv & H).
    apply read_type_data in Hv as (z & -> & Hz).
    apply read_type_inv in Hz as (-> & _ & _).
    apply IH in H as (-> & new & -> & Hlen & Hall). split; [lia|].
    exists (VInt z :: new). rewrite <- app_assoc. split; [done|].
    cbn [length forallb is_VInt andb]. by rewrite Hlen.
Qed.

Lemma read_string_items_char (shape : list Z) (buf : bytes)
    (data data' : list pyval) (c c' : Z) :
  DmapRead.read_string_items shape buf "c" 1 data c = Ok (data', c') →
  Forall (fun d => 0 ≤ d) shape →
  c' = c + foldr Z.add 0 shape
  ∧ ∃ new, data' = data ++ new
           ∧ Z.of_nat (length new) = foldr Z.add 0 shape
           ∧ forallb is_VInt new = true.
Proof.
  revert data c. induction shape as [|d shape IH]; intros data c;
    cbn [DmapRead.read_string_items foldr].
  - intros [= <- <-] _. split; [lia|]. exists []. by rewrite app_nil_r.
  - intros H Hs. apply Forall_cons in Hs as [Hd Hs].
    apply bind_Ok in H as ([data1 c1] & H1 & H).
    apply read_items_char in H1 as (-> & new1 & -> & Hlen1 & Hall1).
    apply IH in H as (-> & new & -> & Hlen & Hall); [|done].
    split; [lia|]. exists (new1 ++ new). rewrite <- app_assoc.
    split; [done|]. rewrite length_app, forallb_app, Hall1, Hall.
    split; [lia|done].
Qed.

Lemma int_cells_length (l : list pyval) :
  forallb is_VInt l = true →
  blen (mjoin ((fun v => match v with
                         | VInt z => le_bytes 8 z
                         | _ => []
                         end) <$> l))
  = 8 * Z.of_nat (length l).
Proof.
  induction l as [|x l IH]; [done|]. cbn [forallb]. intros Hall.
  apply andb_true_iff in Hall as [Hx Hl].
  rewrite fmap_cons.
  change (mjoin (?b :: ?bs)) with (b ++ mjoin bs).
  rewrite blen_app, (IH Hl). cbn [length].
  destruct x; [|done..]. rewrite blen_le_bytes. lia.
Qed.

Lemma np_array_ints (data : list pyval) :
  forallb is_VInt data = true → data ≠ [] →
  ∃ raw, np_array data = Ok (NdArray DtInt64 raw)
         ∧ blen raw = 8 * Z.of_nat (length data).
Proof.
  intros Hall Hne. unfold np_array. destruct data as [|v data]; [done|].
  rewrite Hall. eexists. split; [done|]. by apply int_cells_length.
Qed.

(** X9: an array of chars is read as a flat sequence with as many
    items as the SUM of the lengths of its dimensions (the loop over a
    dimension is not nested in the loops over the others): that many
    bytes are consumed, one per item, and the array returned holds that
    many integers. *)
Theorem read_string_array_char (buf : bytes) (shape : list Z) (c c' : Z)
    (a : ndarray) :
  DmapRead.read_string_array buf shape "c" 1 c = Ok (a, c') →
  Forall (fun d => 0 ≤ d) shape →
  c' = c + foldr Z.add 0 shape
  ∧ blen (nd_raw a) = 8 * foldr Z.add 0 shape
  ∧ (nd_dtype a = DtInt64
     ∨ foldr Z.add 0 shape = 0 ∧ nd_dtype a = DtFloat64).
Proof.
  unfold DmapRead.read_string_array. intros H Hs.
  apply bind_Ok in H as ([data c1] & Hd & H).
  apply bind_Ok in H as (a' & Ha & H). injection H as <- <-.
  apply read_string_items_char in Hd as (-> & new & -> & Hlen & Hall);
    [|done].
  split; [done|]. cbn [app] in Ha.
  destruct new as [|v new].
  - injection Ha as <-. cbn in Hlen. cbn [nd_raw nd_dtype].
    change (blen []) with 0. split; [lia|]. right. split; [lia|done].
  - destruct (np_array_ints (v :: new) Hall ltac:(done)) as (raw & Hr & Hraw).
    rewrite Hr in Ha. injection Ha as <-. cbn [nd_raw nd_dtype].
    split; [lia|by left].
Qed.

Lemma read_string_array_char_witness :
  5 = 0 + foldr Z.add 0 [2; 3]
  ∧ blen (nd_raw (NdArray DtInt64
                    (mjoin (le_bytes 8 <$> [1; 2; 3; 4; 5]))))
    = 8 * foldr Z.add 0 [2; 3]
  ∧ (nd_dtype (NdArray DtInt64 (mjoin (le_bytes 8 <$> [1; 2; 3; 4; 5])))
     = DtInt64
     ∨ foldr Z.add 0 [2; 3] = 0
       ∧ nd_dtype (NdArray DtInt64 (mjoin (le_bytes 8 <$> [1; 2; 3; 4; 5])))
         = DtFloat64).
Proof.
  refine (read_string_array_char [1; 2; 3; 4; 5; 6] [2; 3] 0 5
            (NdArray DtInt64 (mjoin (le_bytes 8 <$> [1; 2; 3; 4; 5]))) _ _).
  - vm_compute. reflexivity.
  - repeat constructor; lia.
Defined.

(** * The round trip *)

(** ** Integers and text on the wire *)

Lemma le_unsigned_le_bytes (n : nat) (z : Z) :
  le_unsigned (le_bytes n z) = z mod 2 ^ (8 * Z.of_nat n).
Proof.
  revert z. induction n as [|n IH]; intros z.
  - cbn. by rewrite Z.mod_1_r.
  - cbn [le_bytes le_unsigned]. rewrite IH.
    replace (8 * Z.of_nat (S n)) with (8 + 8 * Z.of_nat n) by lia.
    rewrite Z.pow_add_r by lia. change (2 ^ 8) with 256.
    rewrite Z.rem_mul_r by lia. done.
Qed.

Lemma le_signed_le_bytes_range (n : nat) (z : Z) :
  (0 < n)%nat →
  - 2 ^ (8 * Z.of_nat n - 1) ≤ z < 2 ^ (8 * Z.of_nat n - 1) →
  le_signed (le_bytes n z) = z.
Proof.
  intros Hn Hz. unfold le_signed. rewrite le_unsigned_le_bytes, blen_le_bytes.
  assert (Hm : 2 ^ (8 * Z.of_nat n) = 2 * 2 ^ (8 * Z.of_nat n - 1)).
  { rewrite <- Z.pow_succ_r by lia. f_equal. lia. }
  set (h := 2 ^ (8 * Z.of_nat n - 1)) in *.
  assert (0 < h) by (apply Z.pow_pos_nonneg; lia).
  rewrite Hm. assert (2 * h / 2 = h) as -> by (Z.div_mod_to_equations; lia).
  assert (Hmod : z mod (2 * h) = if z <? 0 then z + 2 * h else z).
  { destruct (Z.ltb_spec z 0).
    - rewrite <- (Z_mod_plus_full z 1 (2 * h)). rewrite Z.mod_small; lia.
    - apply Z.mod_small; lia. }
  rewrite Hmod. destruct (Z.ltb_spec z 0).
  - destruct (Z.ltb_spec (z + 2 * h) h); lia.
  - destruct (Z.ltb_spec z h); lia.
Qed.

Lemma le_unsigned_le_bytes_range (n : nat) (z : Z) :
  0 ≤ z < 2 ^ (8 * Z.of_nat n) → le_unsigned (le_bytes n z) = z.
Proof. intros Hz. rewrite le_unsigned_le_bytes. by apply Z.mod_small. Qed.

Lemma bytes_to_string_to_bytes (s : string) :
  bytes_to_string (string_to_bytes s) = s.
Proof.
  unfold bytes_to_string, string_to_bytes. rewrite <- list_fmap_compose.
  rewrite <- (String.string_of_list_ascii_of_string s) at 2. f_equal.
  induction (String.list_ascii_of_string s) as [|a l IH]; [done|].
  cbn [fmap list_fmap compose]. rewrite Nat2Z.id, Ascii.ascii_nat_embedding.
  f_equal. apply IH.
Qed.

Lemma blen_cons (x : Z) (l : bytes) : blen (x :: l) = 1 + blen l.
Proof. unfold blen. cbn [length]. lia. Qed.

(** ** Values *)

Lemma read_data_struct_at (fmt : string) (n : Z) (pre raw rest : bytes) :
  calcsize fmt = Some n → fmt ≠ "" → fmt ≠ "c" → fmt ≠ "s" →
  blen raw = n → 0 < n →
  DmapRead.read_data (pre ++ raw ++ rest) fmt n (blen pre)
  = Ok (struct_value fmt raw, blen pre + n).
Proof.
  intros Hcs He Hc Hs Hraw Hn. unfold DmapRead.read_data, DmapRead.dmap_end_bytes.
  pose proof (blen_nonneg pre). pose proof (blen_nonneg rest).
  rewrite !blen_app.
  destruct (Z.leb_spec (blen pre + (blen raw + blen rest)) (blen pre)); [lia|].
  destruct (Z.ltb_spec (blen pre + (blen raw + blen rest) - blen pre) n); [lia|].
  destruct (decide (fmt = "c")); [done|]. destruct (decide (fmt = "s")); [done|].
  unfold struct_unpack_from. rewrite Hcs. unfold unpack_slice.
  destruct (Z.ltb_spec (blen pre) 0); [lia|]. rewrite !blen_app.
  destruct (Z.ltb_spec (blen pre + (blen raw + blen rest) - blen pre) n); [lia|].
  rewrite drop_blen_app. rewrite <- Hraw, to_nat_blen, take_app_length.
  rewrite !bind_ret. destruct (decide (fmt = "")); [done|].
  destruct (decide (fmt = "c")); [done|]. unfold struct_value.
  by destruct (fmt_signed fmt), (fmt_unsigned fmt).
Qed.

Lemma read_data_char_at (pre rest : bytes) (z : Z) :
  DmapRead.read_data (pre ++ z :: rest) "c" 1 (blen pre)
  = Ok (VInt z, blen pre + 1).
Proof.
  rewrite (read_type_data_inv _ _ (blen pre + 1) z); [done|].
  rewrite read_type_at. by rewrite blen_app.
Qed.

Lemma read_data_string_at (pre rest : bytes) (s : string) :
  plain_text s →
  DmapRead.read_data (pre ++ DmapWrite.name_bytes s ++ rest) "s" 1 (blen pre)
  = Ok (VStr s, blen pre + blen (DmapWrite.name_bytes s)).
Proof.
  intros Hs. apply read_name_data_inv. rewrite (name_bytes_plain _ Hs).
  rewrite <- app_assoc. cbn [app].
  rewrite read_name_at by by apply plain_text_no_nul.
  by rewrite bytes_to_string_to_bytes, !blen_app, Z.add_assoc.
Qed.

Lemma fmt_unsigned_not_signed (fmt : string) :
  fmt_unsigned fmt = true → fmt_signed fmt = false.
Proof.
  unfold fmt_unsigned, fmt_signed. intros H.
  repeat (apply orb_true_iff in H as [H|H]);
    apply bool_decide_eq_true in H as ->; done.
Qed.

Lemma fmt_float_not_int (fmt : string) :
  fmt_float fmt = true → fmt_signed fmt = false ∧ fmt_unsigned fmt = false.
Proof.
  unfold fmt_float, fmt_unsigned, fmt_signed. intros H.
  repeat (apply orb_true_iff in H as [H|H]);
    apply bool_decide_eq_true in H as ->; done.
Qed.

Lemma struct_round_trip (fmt : string) (n : Z) (v : pyval) :
  calcsize fmt = Some n → fmt ≠ "c" → fmt ≠ "s" → 0 < n →
  value_exact fmt n v →
  ∃ data, struct_pack fmt v = Ok data ∧ blen data = n
          ∧ struct_value fmt data = v.
Proof.
  intros Hcs Hc Hs Hn Hv. exists (le_bytes (Z.to_nat n) match v with
                                  | VInt z => z | VFloat b => b | VStr _ => 0
                                  end).
  assert (Hnn : Z.of_nat (Z.to_nat n) = n) by lia.
  unfold struct_pack, struct_value. rewrite Hcs, blen_le_bytes.
  destruct v as [z|bits|s]; cbn [value_exact] in Hv.
  - destruct Hv as [[? _]|[[Hsg Hz]|[Hus Hz]]]; [done| |].
    + rewrite Hsg.
      destruct (Z.leb_spec (- 2 ^ (8 * n - 1)) z); [|lia].
      destruct (Z.ltb_spec z (2 ^ (8 * n - 1))); [|lia]. cbn [andb].
      split; [done|]. split; [done|].
      rewrite le_signed_le_bytes_range; [done|lia|by rewrite Hnn].
    + rewrite (fmt_unsigned_not_signed _ Hus), Hus.
      destruct (Z.leb_spec 0 z); [|lia].
      destruct (Z.ltb_spec z (2 ^ (8 * n))); [|lia]. cbn [andb].
      split; [done|]. split; [done|].
      rewrite le_unsigned_le_bytes_range; [done|by rewrite Hnn].
  - destruct Hv as [Hf [Hb _]]. rewrite Hf.
    destruct (fmt_float_not_int _ Hf) as [-> ->].
    split; [done|]. split; [done|].
    rewrite le_unsigned_le_bytes_range; [done|by rewrite Hnn].
  - by destruct Hv.
Qed.

Lemma value_round_trip (ty size : Z) (fmt : string) (v : pyval) :
  DMAP_DATA_TYPES ty = Some (fmt, size) → value_exact fmt size v →
  ∃ data,
    scalar_data_bytes fmt v = Ok data
    ∧ ∀ pre post,
        DmapRead.read_data (pre ++ data ++ post) fmt size (blen pre)
        = Ok (v, blen pre + blen data).
Proof.
  intros Htab Hv.
  assert (Hstruct : calcsize fmt = Some size → fmt ≠ "" → fmt ≠ "c" →
                    fmt ≠ "s" → 0 < size →
    ∃ data,
      scalar_data_bytes fmt v = Ok data
      ∧ ∀ pre post,
          DmapRead.read_data (pre ++ data ++ post) fmt size (blen pre)
          = Ok (v, blen pre + blen data)).
  { intros Hcs He Hc Hs Hn.
    destruct (struct_round_trip fmt size v Hcs Hc Hs Hn Hv)
      as (data & Hp & Hlen & Hval).
    exists data. unfold scalar_data_bytes.
    destruct (decide (fmt = "s")); [done|]. destruct (decide (fmt = "c")); [done|].
    split; [done|]. intros pre post.
    rewrite (read_data_struct_at fmt size pre data post) by done.
    by rewrite Hval, Hlen. }
  unfold DMAP_DATA_TYPES in Htab.
  repeat (destruct (decide _) as [->|?] in Htab;
          [injection Htab as <- <-|]); [..|done]; try (by apply Hstruct).
  - (* DMAP *) destruct v; cbn in Hv; naive_solver.
  - (* CHAR *) destruct v as [z| |]; cbn in Hv; [|naive_solver..].
    destruct Hv as [[_ Hz]|[[? _]|[? _]]]; [|done..].
    exists [z]. split.
    + unfold scalar_data_bytes.
      destruct (decide ("c" = "s")); [done|].
      destruct (decide ("c" = "c")); [|done].
      by apply chr_encode_utf8_ascii.
    + intros pre post. cbn [app]. by rewrite read_data_char_at.
  - (* STRING *) destruct v as [| |s]; cbn in Hv; [naive_solver..|].
    destruct Hv as [_ Hs]. exists (DmapWrite.name_bytes s). split.
    + unfold scalar_data_bytes. by destruct (decide ("s" = "s")).
    + intros pre post. by apply read_data_string_at.
Qed.

(** ** Scalars *)

Lemma DMAP_DATA_TYPES_code (ty size : Z) (fmt : string) :
  DMAP_DATA_TYPES ty = Some (fmt, size) → 0 ≤ ty < 128.
Proof.
  unfold DMAP_DATA_TYPES.
  repeat (destruct (decide _) as [->|?]; [done|]). done.
Qed.

Lemma dmap_scalar_to_bytes_data (s : DmapScalar.t) :
  DmapWrite.dmap_scalar_to_bytes s
  = (scalar_type_bytes ← DmapWrite.type_bytes (DmapScalar.data_type s);
     scalar_data_bytes ←
       scalar_data_bytes (DmapScalar.data_type_fmt s) (DmapScalar.value s);
     Ok (DmapWrite.name_bytes (DmapScalar.name s) ++ scalar_type_bytes
         ++ scalar_data_bytes)).
Proof. done. Qed.

(** A field header: the name and the type code, as the reader finds
    them. *)
Lemma read_name_type_at (pre rest : bytes) (name : string) (ty : Z) :
  plain_text name →
  let buf := pre ++ (DmapWrite.name_bytes name ++ [ty] ++ rest) in
  DmapRead.read_name buf (blen pre)
  = Ok (name, blen pre + blen (DmapWrite.name_bytes name))
  ∧ DmapRead.read_type buf (blen pre + blen (DmapWrite.name_bytes name))
    = Ok (ty, blen pre + blen (DmapWrite.name_bytes name) + 1).
Proof.
  intros Hname. rewrite (name_bytes_plain _ Hname). intros buf. split.
  - unfold buf. rewrite <- !app_assoc. cbn [app].
    rewrite read_name_at by by apply plain_text_no_nul.
    by rewrite bytes_to_string_to_bytes, !blen_app, Z.add_assoc.
  - assert (buf = (pre ++ string_to_bytes name ++ [0]) ++ ty :: rest) as ->
      by (unfold buf; by rewrite <- !app_assoc).
    rewrite <- blen_app, read_type_at. by rewrite (blen_app _ [ty]).
Qed.

Lemma scalar_round_trip_at (s : DmapScalar.t) :
  scalar_exact s →
  ∃ b, DmapWrite.dmap_scalar_to_bytes s = Ok b
       ∧ ∀ pre post,
           DmapRead.read_scalar (pre ++ b ++ post) (blen pre)
           = Ok (s, blen pre + blen b).
Proof.
  destruct s as [name v ty fmt]. intros (Hname & size & Htab & Hv).
  cbn [DmapScalar.name DmapScalar.data_type DmapScalar.data_type_fmt
       DmapScalar.value] in *.
  destruct (value_round_trip ty size fmt v Htab Hv) as (data & Hdata & Hread).
  pose proof (DMAP_DATA_TYPES_code _ _ _ Htab) as Hty.
  exists (DmapWrite.name_bytes name ++ [ty] ++ data). split.
  - rewrite dmap_scalar_to_bytes_data.
    cbn [DmapScalar.name DmapScalar.data_type DmapScalar.data_type_fmt
         DmapScalar.value].
    by rewrite type_bytes_ascii, bind_ret, Hdata by done.
  - intros pre post.
    destruct (read_name_type_at pre (data ++ post) name ty Hname) as [Hn Ht].
    assert (Hbuf : pre ++ (DmapWrite.name_bytes name ++ [ty] ++ data) ++ post
                   = pre ++ DmapWrite.name_bytes name ++ [ty] ++ data ++ post)
      by (by rewrite <- !app_assoc).
    rewrite Hbuf. unfold DmapRead.read_scalar.
    rewrite Hn, bind_ret. cbv beta iota. rewrite Ht, bind_ret. cbv beta iota.
    unfold DmapRead.check_data_type, DmapRead.type_entry. rewrite Htab.
    rewrite !bind_ret. cbv beta iota. unfold str_ne_int.
    assert (Hbuf2 : pre ++ DmapWrite.name_bytes name ++ [ty] ++ data ++ post
                    = (pre ++ DmapWrite.name_bytes name ++ [ty]) ++ data ++ post)
      by (by rewrite <- !app_assoc).
    rewrite Hbuf2.
    replace (blen pre + blen (DmapWrite.name_bytes name) + 1)
      with (blen (pre ++ DmapWrite.name_bytes name ++ [ty]))
      by (rewrite !blen_app; change (blen [ty]) with 1; lia).
    rewrite Hread, bind_ret. cbv beta iota. do 2 f_equal.
    rewrite !blen_app. lia.
Qed.

(** X10: a scalar whose name is plain text, whose format is the one of
    its type and whose value the format holds exactly (plain text under
    's', a char from 0 to 127, an integer in the range of its format, a
    floating point number) is written, and [read_scalar] reads the same
    scalar back from its bytes, wherever they lie in the buffer, leaving
    the cursor behind them. *)
Theorem scalar_round_trip (s : DmapScalar.t) :
  scalar_exact s →
  ∃ b, DmapWrite.dmap_scalar_to_bytes s = Ok b
       ∧ ∀ pre post,
           DmapRead.read_scalar (pre ++ b ++ post) (blen pre)
           = Ok (s, blen pre + blen b).
Proof. apply scalar_round_trip_at. Qed.

Lemma scalar_round_trip_witness :
  ∃ b, DmapWrite.dmap_scalar_to_bytes sample_stid = Ok b
       ∧ ∀ pre post,
           DmapRead.read_scalar (pre ++ b ++ post) (blen pre)
           = Ok (sample_stid, blen pre + blen b).
Proof.
  apply (scalar_round_trip sample_stid). split.
  - unfold plain_text. vm_compute. repeat constructor.
  - exists 2. split; [reflexivity|]. right. left. split; [reflexivity|].
    vm_compute. split; [discriminate|reflexivity].
Defined.

(** X11: chars outside 0 .. 127. A char scalar with a negative value
    cannot be written: [chr] raises [ValueError] for a negative C int
    and [OverflowError] below the C ints. One with a value from
    128 to 2047 is written with two bytes for its value, the UTF-8
    encoding of the code point; [read_scalar] takes the first of them as
    the value and leaves the cursor on the second. So a char that the
    reader returns as 128 or more is not written back as the byte it
    was. *)
Theorem char_scalar_wide (name : string) (z : Z) :
  plain_text name →
  (- 2 ^ 31 ≤ z < 0 →
   DmapWrite.dmap_scalar_to_bytes (char_scalar name z) = Err PyValueError)
  ∧ (z < - 2 ^ 31 →
     DmapWrite.dmap_scalar_to_bytes (char_scalar name z)
     = Err PyOverflowError)
  ∧ (128 ≤ z < 2048 →
     ∃ b,
       DmapWrite.dmap_scalar_to_bytes (char_scalar name z) = Ok b
       ∧ b = DmapWrite.name_bytes name ++ [CHAR; 192 + z / 64; 128 + z mod 64]
       ∧ ∀ pre post,
           DmapRead.read_scalar (pre ++ b ++ post) (blen pre)
           = Ok (char_scalar name (192 + z / 64), blen pre + blen b - 1)).
Proof.
  intros Hname. split; [|split].
  - intros Hz. rewrite dmap_scalar_to_bytes_data.
    cbn [char_scalar DmapScalar.name DmapScalar.data_type
         DmapScalar.data_type_fmt DmapScalar.value].
    rewrite type_bytes_ascii, bind_ret by done.
    unfold scalar_data_bytes, chr_encode_utf8.
    destruct (decide ("c" = "s")); [done|]. destruct (decide ("c" = "c")); [|done].
    destruct (Z.ltb_spec z (- 2 ^ 31)); [lia|].
    destruct (Z.ltb_spec (2 ^ 31 - 1) z); [lia|]. cbn [orb].
    by destruct (Z.ltb_spec z 0); [|lia].
  - intros Hz. rewrite dmap_scalar_to_bytes_data.
    cbn [char_scalar DmapScalar.name DmapScalar.data_type
         DmapScalar.data_type_fmt DmapScalar.value].
    rewrite type_bytes_ascii, bind_ret by done.
    unfold scalar_data_bytes, chr_encode_utf8.
    destruct (decide ("c" = "s")); [done|]. destruct (decide ("c" = "c")); [|done].
    by destruct (Z.ltb_spec z (- 2 ^ 31)); [|lia].
  - intros Hz. eexists. split; [|split; [reflexivity|]].
    + rewrite dmap_scalar_to_bytes_data.
      cbn [char_scalar DmapScalar.name DmapScalar.data_type
           DmapScalar.data_type_fmt DmapScalar.value].
      rewrite type_bytes_ascii, bind_ret by done.
      unfold scalar_data_bytes, chr_encode_utf8.
      destruct (decide ("c" = "s")); [done|].
      destruct (decide ("c" = "c")); [|done].
      destruct (Z.ltb_spec z (- 2 ^ 31)); [lia|].
      destruct (Z.ltb_spec (2 ^ 31 - 1) z); [lia|]. cbn [orb].
      destruct (Z.ltb_spec z 0); [lia|].
      destruct (Z.ltb_spec 1114111 z); [lia|]. cbn [orb].
      destruct (Z.ltb_spec z 128); [lia|].
      destruct (Z.ltb_spec z 2048); [|lia]. done.
    + intros pre post.
      destruct (read_name_type_at pre ([192 + z / 64; 128 + z mod 64] ++ post)
                  name CHAR Hname) as [Hn Ht].
      assert (Hbuf : pre ++ (DmapWrite.name_bytes name
                             ++ [CHAR; 192 + z / 64; 128 + z mod 64]) ++ post
                     = pre ++ DmapWrite.name_bytes name ++ [CHAR]
                           ++ [192 + z / 64; 128 + z mod 64] ++ post)
        by (by rewrite <- !app_assoc).
      rewrite Hbuf. unfold DmapRead.read_scalar.
      rewrite Hn, bind_ret. cbv beta iota. rewrite Ht, bind_ret. cbv beta iota.
      change (DmapRead.check_data_type CHAR) with (Ok () : result unit).
      change (DmapRead.type_entry CHAR) with (Ok ("c", 1) : result (string * Z)).
      rewrite !bind_ret. cbv beta iota. unfold str_ne_int.
      assert (Hbuf2 : pre ++ DmapWrite.name_bytes name ++ [CHAR]
                          ++ [192 + z / 64; 128 + z mod 64] ++ post
                      = (pre ++ DmapWrite.name_bytes name ++ [CHAR])
                          ++ (192 + z / 64) :: (128 + z mod 64) :: post)
        by (by rewrite <- !app_assoc).
      rewrite Hbuf2.
      replace (blen pre + blen (DmapWrite.name_bytes name) + 1)
        with (blen (pre ++ DmapWrite.name_bytes name ++ [CHAR]))
        by (rewrite !blen_app; change (blen [CHAR]) with 1; lia).
      rewrite read_data_char_at, bind_ret. cbv beta iota. unfold char_scalar.
      do 2 f_equal. rewrite !blen_app.
      change (blen [CHAR; 192 + z / 64; 128 + z mod 64]) with 3.
      change (blen [CHAR]) with 1. lia.
Qed.

Lemma char_scalar_wide_witness :
  ∃ b,
    DmapWrite.dmap_scalar_to_bytes (char_scalar "c" 200) = Ok b
    ∧ b = DmapWrite.name_bytes "c" ++ [CHAR; 192 + 200 / 64; 128 + 200 mod 64]
    ∧ ∀ pre post,
        DmapRead.read_scalar (pre ++ b ++ post) (blen pre)
        = Ok (char_scalar "c" (192 + 200 / 64), blen pre + blen b - 1).
Proof.
  refine (proj2 (proj2 (char_scalar_wide "c" 200 _)) _); [|lia].
  unfold plain_text. vm_compute. repeat constructor.
Defined.

(** ** Arrays *)

Lemma foldl_mul_foldr (l : list Z) (acc : Z) :
  foldl Z.mul acc l = acc * foldr Z.mul 1 l.
Proof.
  revert acc. induction l as [|x l IH]; intros acc; cbn [foldl foldr].
  - lia.
  - rewrite IH. lia.
Qed.

Lemma total_cells_reverse (shape : list Z) :
  DmapRead.total_cells (reverse shape) = DmapRead.total_cells shape.
Proof.
  unfold DmapRead.total_cells. rewrite !foldl_mul_foldr. f_equal.
  induction shape as [|x l IH]; [done|].
  rewrite reverse_cons, foldr_app. cbn [foldr].
  rewrite <- (Z.mul_1_l (foldr Z.mul (x * 1) (reverse l))).
  rewrite <- foldl_mul_foldr.
  assert (Hgen : ∀ k a, foldr Z.mul (a * 1) k = a * foldr Z.mul 1 k).
  { induction k as [|y k IHk]; intros a; cbn [foldr]; [done|].
    rewrite IHk. lia. }
  rewrite foldl_mul_foldr, Hgen, IH. lia.
Qed.

Lemma total_cells_dims (shape : list Z) :
  Forall (fun d => 0 < d) shape →
  0 < DmapRead.total_cells shape
  ∧ ∀ d, d ∈ shape → d ≤ DmapRead.total_cells shape.
Proof.
  unfold DmapRead.total_cells. intros Hs.
  setoid_rewrite foldl_mul_foldr. setoid_rewrite Z.mul_1_l.
  induction Hs as [|x l Hx Hl [IH1 IH2]]; cbn [foldr].
  - split; [lia|]. intros d Hd. by apply elem_of_nil in Hd.
  - split; [nia|]. intros d [->|Hd]%elem_of_cons; [nia|].
    specialize (IH2 d Hd). nia.
Qed.

Lemma numeric_type_entry (ty size : Z) (fmt : string) :
  numeric_type ty → DMAP_DATA_TYPES ty = Some (fmt, size) →
  fmt ≠ "s" ∧ fmt ≠ "c" ∧ ty ≠ DMAP ∧ 1 ≤ size.
Proof.
  unfold numeric_type. intros Hin Htab.
  repeat (apply elem_of_cons in Hin as [->|Hin];
          [injection Htab as <- <-; repeat split; (done || lia)|]).
  by apply elem_of_nil in Hin.
Qed.

Lemma blen_shape_bytes (shape : list Z) :
  blen (mjoin (le_bytes 4 <$> shape)) = 4 * Z.of_nat (length shape).
Proof.
  induction shape as [|x l IH]; [done|]. rewrite fmap_cons.
  change (mjoin (?b :: ?bs)) with (b ++ mjoin bs).
  rewrite blen_app, blen_le_bytes, IH. cbn [length]. lia.
Qed.

Lemma dmap_array_to_bytes_Ok (a : DmapArray.t) (b : bytes) :
  DmapWrite.dmap_array_to_bytes a = Ok b →
  int32 (DmapArray.dimension a) ∧ Forall int32 (DmapArray.shape a)
  ∧ b = DmapWrite.name_bytes (DmapArray.name a)
        ++ [DmapArray.data_type a]
        ++ le_bytes 4 (DmapArray.dimension a)
        ++ mjoin (le_bytes 4 <$> DmapArray.shape a)
        ++ tostring (DmapArray.value a).
Proof.
  unfold DmapWrite.dmap_array_to_bytes. intros H.
  apply bind_Ok in H as (tb & ->%type_bytes_Ok & H).
  apply bind_Ok in H as (db & [Hdim ->]%struct_pack_i_Ok & H).
  apply bind_Ok in H as (sb & [Hshape ->]%shape_bytes_Ok & H).
  split; [done|]. split; [done|]. congruence.
Qed.

Lemma array_round_trip_at (a : DmapArray.t) (b : bytes) :
  array_exact a → DmapWrite.dmap_array_to_bytes a = Ok b →
  ∀ pre post record_size,
    blen b ≤ record_size →
    DmapRead.read_array (pre ++ b ++ post) record_size (blen pre)
    = Ok (reverse_shape a, blen pre + blen b).
Proof.
  destruct a as [name [dt raw] ty fmt dim shape].
  intros (Hname & Hnum & size & Htab & Hdim & Hne & Hpos & Hdt & Hraw) Hb
    pre post rs Hrs.
  apply dmap_array_to_bytes_Ok in Hb as (Hdim32 & Hshape32 & Hb).
  unfold reverse_shape.
  cbn [DmapArray.name DmapArray.value DmapArray.data_type
       DmapArray.data_type_fmt DmapArray.dimension DmapArray.shape
       nd_dtype nd_raw tostring] in *.
  subst dt.
  destruct (numeric_type_entry _ _ _ Hnum Htab) as (Hns & Hnc & Hnd & Hsize).
  destruct (total_cells_dims shape Hpos) as [Htot Hdims].
  set (nb := DmapWrite.name_bytes name) in *.
  set (sb := mjoin (le_bytes 4 <$> shape)) in *.
  pose proof (blen_shape_bytes shape) as Hsb. fold sb in Hsb.
  assert (Hnb : 1 ≤ blen nb).
  { unfold nb, blen. rewrite name_bytes_length. lia. }
  assert (Hlen : blen b = blen nb + 1 + 4 + blen sb + blen raw).
  { rewrite Hb, !blen_app, blen_le_bytes. change (blen [ty]) with 1. lia. }
  assert (Hshape_len : 0 < Z.of_nat (length shape))
    by (destruct shape; [done|cbn [length]; lia]).
  set (buf := pre ++ b ++ post).
  set (p2 := pre ++ nb ++ [ty]).
  set (p3 := p2 ++ le_bytes 4 dim).
  set (p4 := p3 ++ sb).
  assert (Hbuf1 : buf = pre ++ nb ++ [ty] ++ (le_bytes 4 dim ++ sb ++ raw ++ post))
    by (unfold buf; rewrite Hb; by rewrite <- !app_assoc).
  destruct (read_name_type_at pre (le_bytes 4 dim ++ sb ++ raw ++ post) name ty
              Hname) as [H1 H2].
  fold nb in H1, H2. rewrite <- Hbuf1 in H1, H2.
  assert (Hp2 : blen p2 = blen pre + blen nb + 1).
  { unfold p2. rewrite !blen_app. change (blen [ty]) with 1. lia. }
  assert (H3 : DmapRead.read_int buf (blen p2) = Ok (dim, blen p2 + 4)).
  { replace buf with (p2 ++ le_bytes 4 dim ++ (sb ++ raw ++ post))
      by (rewrite Hbuf1; unfold p2; by rewrite <- !app_assoc).
    by apply read_int_le_bytes. }
  assert (Hp3 : blen p3 = blen p2 + 4)
    by (unfold p3; by rewrite blen_app, blen_le_bytes).
  assert (H4 : DmapRead.read_ints (length shape) buf (blen p3)
               = Ok (shape, blen p4)).
  { replace buf with (p3 ++ sb ++ (raw ++ post))
      by (rewrite Hbuf1; unfold p3, p2; by rewrite <- !app_assoc).
    by apply read_ints_at. }
  assert (Hp4 : blen p4 = blen p3 + blen sb) by (unfold p4; by rewrite blen_app).
  assert (Hbuf4 : buf = p4 ++ raw ++ post)
    by (rewrite Hbuf1; unfold p4, p3, p2; by rewrite <- !app_assoc).
  unfold DmapRead.read_array. fold buf.
  rewrite H1, bind_ret. cbv beta iota.
  rewrite H2, bind_ret. cbv beta iota.
  unfold DmapRead.check_data_type, DmapRead.type_entry.
  rewrite Htab, !bind_ret. cbv beta iota.
  rewrite <- Hp2, H3, bind_ret. cbv beta iota.
  rewrite (proj2 (bytes_check_Ok _ _)) by lia. rewrite bind_ret.
  rewrite (proj2 (zero_negative_check_Ok _)) by lia. rewrite bind_ret.
  rewrite Hdim, Nat2Z.id, <- Hp3, H4, bind_ret. cbv beta iota zeta.
  replace (blen (reverse shape)) with (Z.of_nat (length shape))
    by (unfold blen; by rewrite length_reverse).
  rewrite Z.eqb_refl. cbn [negb].
  assert (Hex : existsb (fun x => x <=? 0) (reverse shape) = false).
  { apply not_true_iff_false. intros (x & Hx & Hle)%existsb_exists.
    rewrite <- list_elem_of_In, elem_of_reverse in Hx.
    rewrite Forall_forall in Hpos. specialize (Hpos x Hx). lia. }
  rewrite Hex. cbn [andb]. rewrite bind_ret.
  assert (Hexc : DmapRead.shape_exceeds (reverse shape) rs = false).
  { unfold DmapRead.shape_exceeds. apply not_true_iff_false.
    intros (x & Hx & Hle)%existsb_exists.
    rewrite <- list_elem_of_In, elem_of_reverse in Hx.
    specialize (Hdims x Hx). pose proof (blen_nonneg sb). nia. }
  rewrite Hexc, bind_ret, total_cells_reverse.
  rewrite (proj2 (bytes_check_Ok _ _)) by (pose proof (blen_nonneg sb); nia).
  rewrite bind_ret.
  rewrite (proj2 (bytes_check_Ok _ _)) by (pose proof (blen_nonneg sb); nia).
  rewrite bind_ret.
  rewrite (bool_decide_eq_false_2 (fmt = "s")) by done.
  rewrite (bool_decide_eq_false_2 (fmt = "c")) by done. cbn [orb].
  destruct (Z.eqb_spec ty DMAP); [done|].
  unfold DmapRead.read_numerical_array, np_frombuffer.
  pose proof (blen_nonneg p4). pose proof (blen_nonneg post).
  rewrite Hbuf4, !blen_app.
  destruct (Z.ltb_spec (blen p4) 0); [lia|].
  destruct (Z.ltb_spec (blen p4 + (blen raw + blen post)) (blen p4)); [lia|].
  cbn [orb].
  destruct (Z.ltb_spec (DmapRead.total_cells shape) 0); [lia|].
  destruct (Z.ltb_spec (blen p4 + (blen raw + blen post) - blen p4)
              (DmapRead.total_cells shape * size)); [lia|].
  rewrite !bind_ret. cbv beta iota.
  rewrite drop_blen_app, <- Hraw, to_nat_blen, take_app_length.
  do 2 f_equal. lia.
Qed.

(** X12: an array of a numerical type that is written is read back
    with its shape in the opposite order and everything else as it was,
    wherever its bytes lie in the buffer, when the record size that
    [read_array] is given is not less than the length of these bytes; the
    cursor is left behind them. The name is plain text, the format the
    one of the type, the dimension the length of the shape, every length
    of the shape is above zero and the value holds as many items as the
    shape says. *)
Theorem array_round_trip (a : DmapArray.t) (b : bytes) :
  array_exact a → DmapWrite.dmap_array_to_bytes a = Ok b →
  ∀ pre post record_size,
    blen b ≤ record_size →
    DmapRead.read_array (pre ++ b ++ post) record_size (blen pre)
    = Ok (reverse_shape a, blen pre + blen b).
Proof. apply array_round_trip_at. Qed.

Lemma wide_data_exact : array_exact wide_data.
Proof.
  split; [unfold plain_text; vm_compute; repeat constructor|].
  split; [unfold numeric_type; set_solver|].
  exists 4. split; [reflexivity|]. split; [reflexivity|]. split; [done|].
  split; [repeat constructor; lia|]. split; reflexivity.
Qed.

Lemma array_round_trip_witness :
  DmapRead.read_array
    ([] ++ (DmapWrite.name_bytes "data" ++ [FLOAT] ++ le_bytes 4 2
            ++ mjoin (le_bytes 4 <$> [2; 3]) ++ tostring wide_values) ++ [])
    58 (blen [])
  = Ok (wide_data_swapped,
        blen [] + blen (DmapWrite.name_bytes "data" ++ [FLOAT] ++ le_bytes 4 2
                        ++ mjoin (le_bytes 4 <$> [2; 3])
                        ++ tostring wide_values)).
Proof.
  refine (array_round_trip wide_data _ wide_data_exact _ [] [] 58 _).
  - vm_compute. reflexivity.
  - vm_compute. discriminate.
Defined.

(** ** Records *)

Lemma od_set_fresh (record : DmapRecord) (k : string) (v : field) :
  k ∉ od_keys record → od_set record k v = record ++ [(k, v)].
Proof.
  induction record as [|[k0 v0] record IH]; [done|].
  unfold od_keys. cbn [fmap list_fmap fst od_set app].
  rewrite not_elem_of_cons. intros [Hne Hk].
  destruct (decide (k0 = k)); [done|]. f_equal. by apply IH.
Qed.

Lemma fields_to_bytes_app (r1 r2 : DmapRecord) :
  fields_to_bytes (r1 ++ r2)
  = (b1 ← fields_to_bytes r1; b2 ← fields_to_bytes r2; Ok (b1 ++ b2)).
Proof.
  induction r1 as [|[k f] r1 IH]; cbn [app fields_to_bytes].
  - rewrite bind_ret. by destruct (fields_to_bytes r2).
  - destruct (field_to_bytes f) as [b|]; [|done]. rewrite !bind_ret, IH.
    destruct (fields_to_bytes r1) as [b1|]; [|done]. rewrite !bind_ret.
    destruct (fields_to_bytes r2) as [b2|]; [|done]. rewrite !bind_ret.
    by rewrite app_assoc.
Qed.

Lemma od_keys_app (r1 r2 : DmapRecord) :
  od_keys (r1 ++ r2) = od_keys r1 ++ od_keys r2.
Proof. unfold od_keys. apply fmap_app. Qed.

Lemma read_scalars_at (scalars : list DmapScalar.t) (sb pre post : bytes)
    (r0 : DmapRecord) :
  Forall scalar_exact scalars →
  fields_to_bytes (scalar_items scalars) = Ok sb →
  NoDup (od_keys (r0 ++ scalar_items scalars)) →
  DmapRead.read_scalars (length scalars) (pre ++ sb ++ post) r0 (blen pre)
  = Ok (r0 ++ scalar_items scalars, blen pre + blen sb).
Proof.
  intros Hex. revert sb pre r0.
  induction Hex as [|s scalars Hs _ IH]; intros sb pre r0.
  - intros [= <-] _. cbn. rewrite app_nil_r. change (blen []) with 0.
    do 2 f_equal. lia.
  - cbn [scalar_items fmap list_fmap fields_to_bytes field_to_bytes length
         DmapRead.read_scalars].
    fold (scalar_items scalars). intros H Hnd.
    apply bind_Ok in H as (b & Hb & H).
    apply bind_Ok in H as (bs & Hbs & H). injection H as <-.
    destruct (scalar_round_trip_at s Hs) as (b' & Hb' & Hread).
    assert (b' = b) as -> by congruence.
    rewrite <- app_assoc, Hread, bind_ret. cbv beta iota.
    assert (Hfresh : DmapScalar.name s ∉ od_keys r0).
    { rewrite od_keys_app in Hnd. apply NoDup_app in Hnd as (_ & Hdisj & _).
      intros Hin. apply (Hdisj _ Hin). unfold od_keys.
      cbn [fmap list_fmap fst]. apply elem_of_cons. by left. }
    rewrite od_set_fresh by done.
    replace (pre ++ b ++ bs ++ post) with ((pre ++ b) ++ bs ++ post)
      by (by rewrite <- app_assoc).
    rewrite <- blen_app, IH; [|done|by rewrite <- app_assoc].
    rewrite <- app_assoc, !blen_app. do 2 f_equal. lia.
Qed.

Lemma read_arrays_at (arrays : list DmapArray.t) (ab pre post : bytes)
    (r0 : DmapRecord) (block_size : Z) :
  Forall array_exact arrays →
  fields_to_bytes (array_items arrays) = Ok ab →
  blen ab ≤ block_size →
  NoDup (od_keys (r0 ++ array_items arrays)) →
  DmapRead.read_arrays (length arrays) (pre ++ ab ++ post) block_size r0
    (blen pre)
  = Ok (r0 ++ array_items (reverse_shape <$> arrays), blen pre + blen ab).
Proof.
  intros Hex. revert ab pre r0.
  induction Hex as [|a arrays Ha _ IH]; intros ab pre r0.
  - intros [= <-] _ _. cbn. rewrite app_nil_r. change (blen []) with 0.
    do 2 f_equal. lia.
  - cbn [array_items fmap list_fmap fields_to_bytes field_to_bytes length
         DmapRead.read_arrays].
    fold (array_items arrays). fold (array_items (reverse_shape <$> arrays)).
    intros H Hsize Hnd.
    apply bind_Ok in H as (b & Hb & H).
    apply bind_Ok in H as (bs & Hbs & H). injection H as <-.
    rewrite blen_app in Hsize. pose proof (blen_nonneg b).
    pose proof (blen_nonneg bs).
    rewrite <- app_assoc.
    rewrite (array_round_trip_at a b Ha Hb pre (bs ++ post) block_size)
      by lia.
    rewrite bind_ret. cbv beta iota.
    assert (Hfresh : DmapArray.name a ∉ od_keys r0).
    { rewrite od_keys_app in Hnd. apply NoDup_app in Hnd as (_ & Hdisj & _).
      intros Hin. apply (Hdisj _ Hin). unfold od_keys.
      cbn [fmap list_fmap fst]. apply elem_of_cons. by left. }
    change (DmapArray.name (reverse_shape a)) with (DmapArray.name a).
    rewrite od_set_fresh by done.
    replace (pre ++ b ++ bs ++ post) with ((pre ++ b) ++ bs ++ post)
      by (by rewrite <- app_assoc).
    rewrite <- blen_app, IH; [|done|lia|].
    + rewrite <- app_assoc, !blen_app. do 2 f_equal. lia.
    + rewrite <- app_assoc. cbn [app]. revert Hnd.
      rewrite !od_keys_app. unfold od_keys. by cbn [fmap list_fmap fst].
Qed.

Lemma reverse_shapes_items (scalars : list DmapScalar.t)
    (arrays : list DmapArray.t) :
  reverse_shapes (scalar_items scalars ++ array_items arrays)
  = scalar_items scalars ++ array_items (reverse_shape <$> arrays).
Proof.
  unfold reverse_shapes, scalar_items, array_items.
  rewrite fmap_app, <- !list_fmap_compose. done.
Qed.

Lemma record_round_trip_at (record : DmapRecord) (block pre post : bytes) :
  record_exact record → record_block record = Ok block →
  DmapRead.read_record (pre ++ block ++ post) (blen pre)
  = Ok (reverse_shapes record, blen pre + blen block).
Proof.
  intros (Hrec & Hss & Has & Hnd & Hsx & Hax) Hb.
  destruct (record_block_header record block pre post Hb)
    as (Hsize & Hns & Hna & Hlen16 & _).
  apply record_block_Ok in Hb as (payload & Hp & Hlen & _ & Hb).
  pose proof (fields_to_bytes_length _ _ Hp) as Hpl.
  pose proof (scalars_arrays_length record) as Hsum.
  set (ss := scalars_of record) in *. set (aa := arrays_of record) in *.
  rewrite Hrec, fields_to_bytes_app in Hp.
  apply bind_Ok in Hp as (sb & Hsb & Hp).
  apply bind_Ok in Hp as (ab & Hab & Hp). injection Hp as <-.
  set (hdr := le_bytes 4 65537 ++ le_bytes 4 (blen block)
              ++ le_bytes 4 (Z.of_nat (length ss))
              ++ le_bytes 4 (Z.of_nat (length aa))).
  assert (Hblock : block = hdr ++ sb ++ ab)
    by (rewrite Hb at 1; unfold hdr; by rewrite <- !app_assoc).
  assert (Hhdr : blen hdr = 16)
    by (unfold hdr; by rewrite !blen_app, !blen_le_bytes).
  pose proof (blen_nonneg post). pose proof (blen_nonneg sb).
  pose proof (blen_nonneg ab). rewrite blen_app in Hlen.
  assert (Hbuf : pre ++ block ++ post = (pre ++ hdr) ++ sb ++ (ab ++ post))
    by (rewrite Hblock; by rewrite <- !app_assoc).
  assert (Hbuf2 : pre ++ block ++ post = (pre ++ hdr ++ sb) ++ ab ++ post)
    by (rewrite Hblock; by rewrite <- !app_assoc).
  rewrite Hrec at 1. rewrite reverse_shapes_items.
  apply (read_record_intro _ _ (blen block) (blen pre + 8)
           (Z.of_nat (length ss)) (blen pre + 12)
           (Z.of_nat (length aa)) (blen pre + 16)
           (blen (pre ++ hdr ++ sb)) _ ([] ++ scalar_items ss)).
  - done.
  - unfold DmapRead.dmap_end_bytes. rewrite !blen_app. lia.
  - done.
  - done.
  - destruct ss; [done|cbn [length]; lia].
  - destruct aa; [done|cbn [length]; lia].
  - rewrite length_app in Hpl. unfold blen in *. lia.
  - rewrite Nat2Z.id, Hbuf.
    replace (blen pre + 16) with (blen (pre ++ hdr)) by (rewrite blen_app; lia).
    rewrite read_scalars_at; [|done|done|].
    + do 2 f_equal. rewrite !blen_app. lia.
    + cbn [app]. rewrite Hrec, od_keys_app in Hnd.
      by apply NoDup_app in Hnd as (? & _ & _).
  - rewrite Nat2Z.id, Hbuf2.
    rewrite read_arrays_at; [|done|done|lia|cbn [app]; by rewrite <- Hrec].
    cbn [app]. do 2 f_equal. rewrite !blen_app. lia.
  - lia.
Qed.

(** X13: the round trip of a record. An exact record (its scalars
    before its arrays, each under its own name, one scalar and one array
    at least, no name twice, exact scalars and arrays) that
    [__dmap_record_to_bytes] can write is appended as one block, and
    wherever this block lies in a buffer, [read_record] reads from it
    the record with the shape of every array in the opposite order, and
    leaves the cursor behind the block. *)
Theorem record_round_trip (self self' : DmapWrite.t) (record : DmapRecord) :
  record_exact record →
  DmapWrite.dmap_record_to_bytes self record = Ok self' →
  ∃ block,
    DmapWrite.dmap_bytearr self' = DmapWrite.dmap_bytearr self ++ block
    ∧ ∀ pre post,
        DmapRead.read_record (pre ++ block ++ post) (blen pre)
        = Ok (reverse_shapes record, blen pre + blen block).
Proof.
  intros Hrec H. rewrite dmap_record_to_bytes_block in H.
  apply bind_Ok in H as (block & Hb & H). injection H as <-.
  exists block. split; [done|]. intros pre post.
  by apply record_round_trip_at.
Qed.

Lemma sample_stid_exact : scalar_exact sample_stid.
Proof.
  split.
  - unfold plain_text. vm_compute. repeat constructor.
  - exists 2. split; [reflexivity|]. right. left. split; [reflexivity|].
    vm_compute. split; [discriminate|reflexivity].
Qed.

Lemma wide_record_exact : record_exact wide_record.
Proof.
  split; [reflexivity|]. split; [done|]. split; [done|]. split.
  - apply (bool_decide_unpack _). vm_compute. reflexivity.
  - split.
    + change (scalars_of wide_record) with [sample_stid].
      constructor; [apply sample_stid_exact|constructor].
    + change (arrays_of wide_record) with [wide_data].
      constructor; [apply wide_data_exact|constructor].
Qed.

Lemma record_round_trip_witness :
  ∃ block,
    DmapWrite.dmap_bytearr (DmapWrite.Build [] wide_bytes "")
    = DmapWrite.dmap_bytearr (DmapWrite.Build [] [] "") ++ block
    ∧ ∀ pre post,
        DmapRead.read_record (pre ++ block ++ post) (blen pre)
        = Ok (reverse_shapes wide_record, blen pre + blen block).
Proof.
  refine (record_round_trip (DmapWrite.Build [] [] "")
            (DmapWrite.Build [] wide_bytes "") wide_record
            wide_record_exact _).
  vm_compute. reflexivity.
Defined.

(** ** Streams *)

Lemma encode_blocks (records : list DmapRecord) (b : bytes) :
  DmapWrite.encode records = Ok b
  ↔ records ≠ [] ∧ record_blocks records = Ok b.
Proof.
  unfold DmapWrite.encode, DmapWrite.write_dmap_stream.
  cbn [DmapWrite.dmap_records DmapWrite.is_empty_list].
  unfold DmapWrite.empty_record_check, DmapWrite.set_records,
    DmapWrite.dmap_records_to_bytes.
  cbn [DmapWrite.dmap_records DmapWrite.dmap_bytearr DmapWrite.filename].
  rewrite records_to_bytes_loop_blocks.
  destruct records as [|r records].
  - cbn. split; [done|]. by intros [? _].
  - cbn [DmapWrite.dmap_records DmapWrite.is_empty_list]. rewrite bind_ret.
    destruct (record_blocks (r :: records)) as [blocks|e]; [|split; [done|by intros [_ ?]]].
    rewrite !bind_ret. cbv beta iota.
    cbn [DmapWrite.extend DmapWrite.dmap_bytearr app].
    split; [by intros [= ->]|by intros [_ [= ->]]].
Qed.

Lemma read_records_loop_at (records : list DmapRecord) (blocks : bytes) :
  Forall record_exact records → record_blocks records = Ok blocks →
  ∀ pre acc fuel,
    blen blocks ≤ Z.of_nat fuel →
    DmapRead.read_records_loop fuel (pre ++ blocks) acc (blen pre)
    = Ok (acc ++ (reverse_shapes <$> records), blen pre + blen blocks).
Proof.
  intros Hex. revert blocks.
  induction Hex as [|r records Hr _ IH]; intros blocks Hb pre acc fuel Hfuel.
  - injection Hb as <-. rewrite !app_nil_r. change (blen []) with 0.
    rewrite read_records_loop_stop by (unfold DmapRead.dmap_end_bytes; lia).
    do 2 f_equal. lia.
  - cbn [record_blocks] in Hb. apply bind_Ok in Hb as (b & Hb & H).
    apply bind_Ok in H as (bs & Hbs & H). injection H as <-.
    destruct (record_block_header r b pre bs Hb) as (_ & _ & _ & Hlen & _).
    rewrite blen_app in Hfuel. pose proof (blen_nonneg bs).
    destruct fuel as [|fuel]; [lia|].
    cbn [DmapRead.read_records_loop]. unfold DmapRead.dmap_end_bytes.
    rewrite !blen_app.
    destruct (Z.ltb_spec (blen pre) (blen pre + (blen b + blen bs))); [|lia].
    rewrite (record_round_trip_at r b pre bs Hr Hb), bind_ret. cbv beta iota.
    replace (pre ++ b ++ bs) with ((pre ++ b) ++ bs) by (by rewrite <- app_assoc).
    rewrite <- blen_app, (IH bs Hbs) by lia.
    rewrite <- app_assoc, !blen_app. cbn [fmap list_fmap app].
    do 2 f_equal. lia.
Qed.

Lemma reverse_shapes_id (record : DmapRecord) :
  (∀ a, a ∈ arrays_of record →
     reverse (DmapArray.shape a) = DmapArray.shape a) →
  reverse_shapes record = record.
Proof.
  unfold reverse_shapes. induction record as [|[k f] record IH]; [done|].
  intros Hall. cbn [fmap list_fmap fst snd]. f_equal.
  - destruct f as [s|a]; [done|]. do 2 f_equal. unfold reverse_shape.
    destruct a as [n v t fmt d sh]. cbn. f_equal.
    apply (Hall (DmapArray.Build n v t fmt d sh)).
    unfold arrays_of. cbn. apply elem_of_cons. by left.
  - apply IH. intros a Ha. apply Hall. unfold arrays_of in *.
    destruct f; cbn; [done|]. apply elem_of_cons. by right.
Qed.

(** X14: the round trip of a stream. When every record given to the
    raw writer is exact, the reader decodes what the writer returns into
    the same records with the shape of every array in the opposite
    order; so it returns the very records that were written when every
    shape reads the same in both directions, as that of every array of
    one dimension does. *)
Theorem stream_round_trip (records : list DmapRecord) (b : bytes) :
  Forall record_exact records →
  DmapWrite.encode records = Ok b →
  DmapRead.decode b = Ok (reverse_shapes <$> records)
  ∧ ((∀ record a, record ∈ records → a ∈ arrays_of record →
        reverse (DmapArray.shape a) = DmapArray.shape a) →
     DmapRead.decode b = Ok records).
Proof.
  intros Hex [Hne Hb]%encode_blocks.
  assert (Hdec : DmapRead.decode b = Ok (reverse_shapes <$> records)).
  { unfold DmapRead.decode, DmapRead.init.
    assert (Hlen : 16 ≤ blen b).
    { destruct records as [|r records]; [done|]. cbn [record_blocks] in Hb.
      apply bind_Ok in Hb as (b1 & Hb1 & H).
      apply bind_Ok in H as (bs & _ & H). injection H as <-.
      destruct (record_block_header r b1 [] [] Hb1) as (_ & _ & _ & Hl & _).
      rewrite blen_app. pose proof (blen_nonneg bs). lia. }
    destruct (Z.eqb_spec (blen b) 0); [lia|]. rewrite bind_ret. cbv beta iota.
    unfold DmapRead.read_records, DmapRead.dmap_end_bytes.
    pose proof (read_records_loop_at records b Hex Hb [] []
                  (Z.to_nat (blen b - 0)) ltac:(lia)) as Hl.
    cbn [app] in Hl. change (blen []) with 0 in Hl. rewrite Hl, bind_ret.
    cbv beta iota. rewrite (proj2 (bytes_check_Ok _ _)) by lia.
    by rewrite bind_ret. }
  split; [done|]. intros Hpal. rewrite Hdec. f_equal.
  clear -Hpal. induction records as [|r records IH]; [done|].
  cbn [fmap list_fmap]. f_equal.
  - apply reverse_shapes_id. intros a Ha. apply (Hpal r a); [|done].
    apply elem_of_cons. by left.
  - apply IH. intros r' a Hr'. apply Hpal. apply elem_of_cons. by right.
Qed.

Lemma stream_round_trip_witness :
  DmapRead.decode (wide_bytes ++ wide_bytes)
  = Ok (reverse_shapes <$> [wide_record; wide_record]).
Proof.
  refine (proj1 (stream_round_trip [wide_record; wide_record]
                   (wide_bytes ++ wide_bytes) _ _)).
  - repeat (constructor; [apply wide_record_exact|]). constructor.
  - vm_compute. reflexivity.
Defined.

(** ** The cursor of the reader *)

Lemma read_data_bound (buf : bytes) (ty c c' n : Z) (fmt : string) (v : pyval) :
  DMAP_DATA_TYPES ty = Some (fmt, n) →
  0 ≤ c → DmapRead.read_data buf fmt n c = Ok (v, c') → c' ≤ blen buf.
Proof.
  intros Htab Hc H.
  assert (Hcases : (fmt = "c" ∧ n = 1) ∨ (fmt = "s" ∧ n = 1)
            ∨ (fmt ≠ "c" ∧ fmt ≠ "s")).
  { revert Htab. unfold DMAP_DATA_TYPES.
    repeat (destruct (decide _);
            [intros [= <- <-]; (by left) || (by right; left)
                               || (by right; right)|]). done. }
  destruct Hcases as [[-> ->]|[[-> ->]|(Hnc & Hns)]].
  - destruct (read_type_data _ _ _ _ H) as (z & -> & Ht).
    apply read_type_inv in Ht as (-> & Hr & _). lia.
  - revert H. unfold DmapRead.read_data, DmapRead.dmap_end_bytes.
    destruct (Z.leb_spec (blen buf) c); [done|].
    destruct (Z.ltb_spec (blen buf - c) 1); [done|].
    destruct (decide ("s" = "c")); [done|].
    destruct (decide ("s" = "s")); [|done].
    unfold DmapRead.scan_nul, DmapRead.scanned.
    destruct (Z.ltb_spec c 0); [lia|]. rewrite bind_ret.
    destruct (list_find _ (drop _ buf)) as [[k x]|] eqn:Hfind; [|done].
    rewrite bind_ret. intros Hrd.
    apply bind_Ok in Hrd as ([] & _ & Hrd).
    apply bind_Ok in Hrd as (data & _ & Hrd). injection Hrd as _ <-.
    apply list_find_Some in Hfind as (Hk & _).
    apply lookup_lt_Some in Hk. rewrite length_drop in Hk.
    unfold blen in *. lia.
  - revert H. unfold DmapRead.read_data, DmapRead.dmap_end_bytes.
    destruct (Z.leb_spec (blen buf) c); [done|].
    destruct (Z.ltb_spec (blen buf - c) n); [done|].
    destruct (decide (fmt = "c")); [done|].
    destruct (decide (fmt = "s")); [done|]. intros Hrd.
    apply bind_Ok in Hrd as (data & _ & Hrd).
    apply bind_Ok in Hrd as (d0 & _ & Hrd). injection Hrd as _ <-. lia.
Qed.

Lemma read_scalar_bound (buf : bytes) (c c' : Z) (s : DmapScalar.t) :
  0 ≤ c → DmapRead.read_scalar buf c = Ok (s, c') → c < c' ≤ blen buf.
Proof.
  intros Hc Hrd.
  destruct (read_scalar_cut buf 0 c c' s Hc Hrd) as [Hlt _]. split; [done|].
  revert Hrd. unfold DmapRead.read_scalar. intros Hrd.
  apply bind_Ok in Hrd as ([name c1] & Hname & Hrd).
  apply bind_Ok in Hrd as ([ty c2] & Hty & Hrd).
  apply bind_Ok in Hrd as ([] & Hck & Hrd).
  apply bind_Ok in Hrd as ([fmt n] & Hentry & Hrd).
  cbn [str_ne_int] in Hrd.
  apply bind_Ok in Hrd as ([v c3] & Hval & Hrd). injection Hrd as _ <-.
  destruct (read_name_cut buf 0 c c1 name Hc Hname) as [Hlt1 _].
  destruct (read_type_cut buf 0 c1 ty c2 ltac:(lia) Hty) as [-> _].
  assert (Htab : DMAP_DATA_TYPES ty = Some (fmt, n)).
  { revert Hentry. unfold DmapRead.type_entry.
    destruct (DMAP_DATA_TYPES ty); [by intros [= ->]|done]. }
  apply (read_data_bound buf ty (c1 + 1) c3 n fmt v Htab); [lia|done].
Qed.

Lemma read_record_bound (buf : bytes) (c c' : Z) (r : DmapRecord) :
  0 ≤ c → DmapRead.read_record buf c = Ok (r, c') → c < c' ≤ blen buf.
Proof.
  intros Hc Hr. apply read_record_inv in Hr
    as (bs & c1 & ns & c2 & na & c3 & r1 & c4 & Hbs & Hle & Hpos & _ & _
        & _ & _ & _ & _ & _ & Hend).
  pose proof (read_int_cut buf 0 (c + 4) bs c1 ltac:(lia) Hbs) as [-> _].
  unfold DmapRead.dmap_end_bytes in Hle. lia.
Qed.

Lemma read_records_loop_end (fuel : nat) (buf : bytes)
    (acc recs : list DmapRecord) (c c' : Z) :
  0 ≤ c ≤ blen buf →
  DmapRead.read_records_loop fuel buf acc c = Ok (recs, c') → c' = blen buf.
Proof.
  revert acc c. induction fuel as [|fuel IH]; intros acc c Hc;
    cbn [DmapRead.read_records_loop]; unfold DmapRead.dmap_end_bytes;
    (destruct (Z.ltb_spec c (blen buf)); [|intros [= _ <-]; lia]).
  - done.
  - intros Hl. apply bind_Ok in Hl as ([r c1] & Hr & Hl).
    apply read_record_bound in Hr; [|lia]. apply IH in Hl; [done|lia].
Qed.

(** X15: the cursor of the reader stays inside the buffer and moves
    forward. A scalar or a record that is read from a cursor that is not
    negative ends after the cursor and not after the end of the buffer.
    So the loop of [read_records] ends (it does not use up the fuel that
    the model gives it, one turn for every byte left), it ends with the
    cursor exactly at the end of the buffer, and its last check of the
    cursor against the end of the buffer never raises: [read_records]
    returns, or raises, what the loop does. *)
Theorem read_records_cursor (buf : bytes) :
  (∀ c c' s, 0 ≤ c → DmapRead.read_scalar buf c = Ok (s, c') →
     c < c' ≤ blen buf)
  ∧ (∀ c c' r, 0 ≤ c → DmapRead.read_record buf c = Ok (r, c') →
       c < c' ≤ blen buf)
  ∧ (∀ acc c, 0 ≤ c ≤ blen buf →
       DmapRead.read_records buf acc c ≠ Err OutOfFuel
       ∧ (∀ recs c', DmapRead.read_records buf acc c = Ok (recs, c') →
            c' = blen buf)
       ∧ DmapRead.read_records buf acc c
         = DmapRead.read_records_loop (Z.to_nat (blen buf - c)) buf acc c).
Proof.
  split; [|split].
  - intros c c' s. apply read_scalar_bound.
  - intros c c' r. apply read_record_bound.
  - intros acc c Hc.
    assert (Heq : DmapRead.read_records buf acc c
              = DmapRead.read_records_loop (Z.to_nat (blen buf - c)) buf acc c).
    { unfold DmapRead.read_records, DmapRead.dmap_end_bytes.
      destruct (DmapRead.read_records_loop _ buf acc c) as [[recs c']|e] eqn:Hl;
        [|done].
      rewrite bind_ret. cbv beta iota.
      apply read_records_loop_end in Hl as ->; [|done].
      by rewrite (proj2 (bytes_check_Ok _ _)) by lia. }
    split; [apply read_records_fuel|]. split; [|done].
    intros recs c'. rewrite Heq. by apply read_records_loop_end.
Qed.

Lemma read_records_cursor_witness :
  DmapRead.read_records sample_bytes [] 0 ≠ Err OutOfFuel
  ∧ (∀ recs c', DmapRead.read_records sample_bytes [] 0 = Ok (recs, c') →
       c' = blen sample_bytes)
  ∧ DmapRead.read_records sample_bytes [] 0
    = DmapRead.read_records_loop (Z.to_nat (blen sample_bytes - 0))
        sample_bytes [] 0.
Proof.
  refine (proj2 (proj2 (read_records_cursor sample_bytes)) [] 0 _).
  vm_compute. split; discriminate.
Defined.

(** * The file writers and the constructor *)

Lemma filename_check_target (self : DmapWrite.t) (filename : string) :
  DmapWrite.filename_check self filename
  = if decide (target_file self filename = "") then Err FilenameRequiredError
    else Ok (DmapWrite.Build (DmapWrite.dmap_records self)
               (DmapWrite.dmap_bytearr self) (target_file self filename)).
Proof.
  unfold DmapWrite.filename_check, target_file. destruct self as [rs ba fn].
  cbn [DmapWrite.filename DmapWrite.dmap_records DmapWrite.dmap_bytearr].
  destruct (decide (filename = "")) as [->|Hf].
  - rewrite (bool_decide_eq_true_2 ("" = "")) by done.
    destruct (decide (fn = "")) as [->|Hfn].
    + by rewrite (bool_decide_eq_true_2 ("" = "")) by done.
    + by rewrite (bool_decide_eq_false_2 (fn = "")) by done.
  - rewrite (bool_decide_eq_false_2 (filename = "")) by done.
    rewrite andb_false_r. cbn [negb].
    by destruct (decide (filename = "")).
Qed.

Lemma records_to_bytes_loop_records (self self' : DmapWrite.t)
    (records : list DmapRecord) :
  DmapWrite.records_to_bytes_loop self records = Ok self' →
  DmapWrite.dmap_records self' = DmapWrite.dmap_records self
  ∧ DmapWrite.filename self' = DmapWrite.filename self
  ∧ ∃ blocks, record_blocks records = Ok blocks
              ∧ DmapWrite.dmap_bytearr self'
                = DmapWrite.dmap_bytearr self ++ blocks.
Proof.
  rewrite records_to_bytes_loop_blocks. intros H.
  apply bind_Ok in H as (blocks & Hb & H). injection H as <-.
  split; [done|]. split; [done|]. by exists blocks.
Qed.

Lemma write_product_Ok (l : list (gmap string string)) (self self' : DmapWrite.t)
    (filename : string) (fs fs' : gmap string bytes) :
  DmapWrite.write_product l self filename fs = Ok (self', fs') →
  DmapWrite.dmap_records self ≠ [] ∧ target_file self filename ≠ ""
  ∧ fs' = <[target_file self filename := DmapWrite.dmap_bytearr self']> fs
  ∧ DmapWrite.records_to_bytes_loop
      (DmapWrite.Build (DmapWrite.dmap_records self)
         (DmapWrite.dmap_bytearr self) (target_file self filename))
      (DmapWrite.dmap_records self) = Ok self'.
Proof.
  unfold DmapWrite.write_product, DmapWrite.empty_record_check. intros H.
  destruct (DmapWrite.dmap_records self) as [|r rs] eqn:Hrs; [done|].
  cbn [DmapWrite.is_empty_list] in H. rewrite bind_ret in H.
  rewrite filename_check_target in H.
  destruct (decide (target_file self filename = "")) as [|Hn]; [done|].
  rewrite bind_ret in H. apply bind_Ok in H as (s1 & Hs1 & H).
  injection H as <- <-.
  unfold DmapWrite.superDARN_file_structure_to_bytes in Hs1.
  apply file_structure_loop_checks in Hs1 as [_ Hs1].
  cbn [DmapWrite.dmap_records] in Hs1. rewrite Hrs in Hs1.
  split; [done|]. split; [done|]. split; [|done].
  unfold DmapWrite.write_file.
  apply records_to_bytes_loop_records in Hs1 as (_ & -> & _). done.
Qed.

Lemma write_dmap_Ok (self self' : DmapWrite.t)
    (filename : string) (fs fs' : gmap string bytes) :
  DmapWrite.write_dmap self filename fs = Ok (self', fs')
  ↔ DmapWrite.dmap_records self ≠ [] ∧ target_file self filename ≠ ""
    ∧ fs' = <[target_file self filename := DmapWrite.dmap_bytearr self']> fs
    ∧ DmapWrite.records_to_bytes_loop
        (DmapWrite.Build (DmapWrite.dmap_records self)
           (DmapWrite.dmap_bytearr self) (target_file self filename))
        (DmapWrite.dmap_records self) = Ok self'.
Proof.
  unfold DmapWrite.write_dmap, DmapWrite.empty_record_check.
  destruct (DmapWrite.dmap_records self) as [|r rs] eqn:Hrs;
    [split; [done|by intros [? _]]|].
  cbn [DmapWrite.is_empty_list]. rewrite bind_ret, filename_check_target.
  destruct (decide (target_file self filename = "")) as [|Hn];
    [split; [done|by intros (_ & ? & _)]|].
  rewrite bind_ret. unfold DmapWrite.dmap_records_to_bytes.
  cbn [DmapWrite.dmap_records]. rewrite Hrs. split.
  - intros H. apply bind_Ok in H as (s1 & Hs1 & H). injection H as <- <-.
    split; [done|]. split; [done|]. split; [|done].
    unfold DmapWrite.write_file.
    apply records_to_bytes_loop_records in Hs1 as (_ & -> & _). done.
  - intros (_ & _ & -> & Hs1). rewrite Hs1, bind_ret.
    unfold DmapWrite.write_file.
    apply records_to_bytes_loop_records in Hs1 as (_ & -> & _). done.
Qed.

(** X16: the file writers. [write_dmap] needs records
    ([DmapDataError]) and then a file name, that of the call or that of
    the instance ([FilenameRequiredError]), before anything is
    converted. When it succeeds it has written exactly one file, under
    that name, and the content of the file is the byte array of the
    instance, which is what [write_dmap_stream] returns for the same
    instance. A product file writer that succeeds has done exactly what
    [write_dmap] does. *)
Theorem write_dmap_file (self : DmapWrite.t) (filename : string)
    (fs : gmap string bytes) :
  (DmapWrite.dmap_records self = [] →
   DmapWrite.write_dmap self filename fs = Err DmapDataError)
  ∧ (DmapWrite.dmap_records self ≠ [] → target_file self filename = "" →
     DmapWrite.write_dmap self filename fs = Err FilenameRequiredError)
  ∧ (∀ self' fs',
       DmapWrite.write_dmap self filename fs = Ok (self', fs') →
       target_file self filename ≠ ""
       ∧ DmapWrite.filename self' = target_file self filename
       ∧ fs' !! target_file self filename
         = Some (DmapWrite.dmap_bytearr self')
       ∧ (∀ other, other ≠ target_file self filename →
            fs' !! other = fs !! other)
       ∧ ∃ s, DmapWrite.write_dmap_stream self []
              = Ok (s, DmapWrite.dmap_bytearr self'))
  ∧ (∀ file_struct_list self' fs',
       DmapWrite.write_product file_struct_list self filename fs
       = Ok (self', fs') →
       DmapWrite.write_dmap self filename fs = Ok (self', fs')).
Proof.
  split; [|split; [|split]].
  - intros Hrs. unfold DmapWrite.write_dmap, DmapWrite.empty_record_check.
    by rewrite Hrs.
  - intros Hrs Hn. unfold DmapWrite.write_dmap, DmapWrite.empty_record_check.
    destruct (DmapWrite.dmap_records self); [done|].
    cbn [DmapWrite.is_empty_list]. rewrite bind_ret, filename_check_target.
    by destruct (decide (target_file self filename = "")).
  - intros self' fs' (Hrs & Hn & -> & Hl)%write_dmap_Ok.
    destruct (records_to_bytes_loop_records _ _ _ Hl)
      as (_ & Hfn & blocks & Hb & Hba).
    split; [done|]. split; [done|]. split; [by rewrite lookup_insert_eq|].
    split; [intros other Ho; by rewrite lookup_insert_ne|].
    unfold DmapWrite.write_dmap_stream, DmapWrite.empty_record_check,
      DmapWrite.dmap_records_to_bytes.
    destruct (DmapWrite.dmap_records self) as [|r rs] eqn:Hself; [done|].
    cbn [DmapWrite.is_empty_list]. rewrite Hself.
    cbn [DmapWrite.is_empty_list]. rewrite bind_ret.
    rewrite records_to_bytes_loop_blocks, Hb, !bind_ret.
    eexists. f_equal. f_equal. by rewrite Hba.
  - intros l self' fs' H. apply write_dmap_Ok. by apply write_product_Ok in H.
Qed.

Lemma write_dmap_file_witness :
  target_file sample_writer "out.dmap" ≠ ""
  ∧ DmapWrite.filename sample_written = target_file sample_writer "out.dmap"
  ∧ ({["out.dmap" := sample_bytes]} : gmap string bytes)
      !! target_file sample_writer "out.dmap"
    = Some (DmapWrite.dmap_bytearr sample_written)
  ∧ (∀ other, other ≠ target_file sample_writer "out.dmap" →
       ({["out.dmap" := sample_bytes]} : gmap string bytes) !! other
       = (∅ : gmap string bytes) !! other)
  ∧ ∃ s, DmapWrite.write_dmap_stream sample_writer []
         = Ok (s, DmapWrite.dmap_bytearr sample_written).
Proof.
  refine (proj1 (proj2 (proj2 (write_dmap_file sample_writer "out.dmap" ∅)))
            sample_written {["out.dmap" := sample_bytes]} _).
  vm_compute. reflexivity.
Defined.

Lemma write_product_empty (l : list (gmap string string)) (self : DmapWrite.t)
    (filename : string) (fs : gmap string bytes) :
  DmapWrite.dmap_records self = [] →
  DmapWrite.write_product l self filename fs = Err DmapDataError.
Proof.
  intros Hrs. unfold DmapWrite.write_product, DmapWrite.empty_record_check.
  by rewrite Hrs.
Qed.

Lemma write_product_no_name (l : list (gmap string string)) (self : DmapWrite.t)
    (filename : string) (fs : gmap string bytes) :
  DmapWrite.dmap_records self ≠ [] → target_file self filename = "" →
  DmapWrite.write_product l self filename fs = Err FilenameRequiredError.
Proof.
  intros Hrs Hn. unfold DmapWrite.write_product, DmapWrite.empty_record_check.
  destruct (DmapWrite.dmap_records self); [done|].
  cbn [DmapWrite.is_empty_list]. rewrite bind_ret, filename_check_target.
  by destruct (decide (target_file self filename = "")).
Qed.

(** What the constructor runs for a format that writes a file. *)
Lemma init_file_format (superdarn_formats : Formats)
    (records : list DmapRecord) (filename fmt : string)
    (fs : gmap string bytes) :
  fmt ∈ file_formats →
  ∃ w, (w = DmapWrite.write_dmap ∨ ∃ l, w = DmapWrite.write_product l)
       ∧ DmapWrite.init superdarn_formats records filename fmt fs
         = w (DmapWrite.Build records [] filename) "" fs.
Proof.
  unfold file_formats. intros Hin.
  assert (Hrun : ∀ w, (w = DmapWrite.write_dmap
                       ∨ ∃ l, w = DmapWrite.write_product l) →
    DmapWrite.init superdarn_formats records filename fmt fs
    = w (DmapWrite.Build records [] filename) "" fs →
    ∃ w, (w = DmapWrite.write_dmap ∨ ∃ l, w = DmapWrite.write_product l)
         ∧ DmapWrite.init superdarn_formats records filename fmt fs
           = w (DmapWrite.Build records [] filename) "" fs) by eauto.
  apply elem_of_cons in Hin as [->|Hin];
    [apply (Hrun (DmapWrite.write_iqdat superdarn_formats));
     [right; by eexists|done]|].
  apply elem_of_cons in Hin as [->|Hin];
    [apply (Hrun (DmapWrite.write_rawacf superdarn_formats));
     [right; by eexists|done]|].
  apply elem_of_cons in Hin as [->|Hin];
    [apply (Hrun (DmapWrite.write_fitacf superdarn_formats));
     [right; by eexists|done]|].
  apply elem_of_cons in Hin as [->|Hin];
    [apply (Hrun (DmapWrite.write_grid superdarn_formats));
     [right; by eexists|done]|].
  apply elem_of_cons in Hin as [->|Hin];
    [apply (Hrun (DmapWrite.write_map superdarn_formats));
     [right; by eexists|done]|].
  apply elem_of_cons in Hin as [->|Hin];
    [apply (Hrun DmapWrite.write_dmap); [by left|done]|].
  by apply elem_of_nil in Hin.
Qed.

Lemma init_writer_cases (w : DmapWrite.t → string → gmap string bytes →
                             result (DmapWrite.t * gmap string bytes))
    (records : list DmapRecord) (filename : string) (fs : gmap string bytes) :
  w = DmapWrite.write_dmap ∨ (∃ l, w = DmapWrite.write_product l) →
  let self0 := DmapWrite.Build records [] filename in
  (records = [] → w self0 "" fs = Err DmapDataError)
  ∧ (records ≠ [] → filename = "" → w self0 "" fs = Err FilenameRequiredError)
  ∧ (∀ self fs', w self0 "" fs = Ok (self, fs') →
       records ≠ [] ∧ filename ≠ ""
       ∧ DmapWrite.dmap_records self = records
       ∧ DmapWrite.filename self = filename
       ∧ DmapWrite.encode records = Ok (DmapWrite.dmap_bytearr self)
       ∧ fs' = <[filename := DmapWrite.dmap_bytearr self]> fs).
Proof.
  intros Hw self0.
  assert (Hok : ∀ self fs', w self0 "" fs = Ok (self, fs') →
    DmapWrite.write_dmap self0 "" fs = Ok (self, fs')).
  { destruct Hw as [->|[l ->]]; [done|]. intros self fs' H.
    apply write_dmap_Ok. by apply write_product_Ok in H. }
  split; [|split].
  - intros ->. destruct Hw as [->|[l ->]]; [done|by apply write_product_empty].
  - intros Hrs ->. destruct Hw as [->|[l ->]].
    + unfold DmapWrite.write_dmap, DmapWrite.empty_record_check.
      cbn [self0 DmapWrite.dmap_records]. destruct records; done.
    + by apply write_product_no_name.
  - intros self fs' H%Hok. apply write_dmap_Ok in H as (Hrs & Hn & -> & Hl).
    cbn [self0 DmapWrite.dmap_records DmapWrite.dmap_bytearr] in *.
    change (target_file self0 "") with filename in *.
    destruct (records_to_bytes_loop_records _ _ _ Hl)
      as (Hr & Hfn & blocks & Hb & Hba).
    cbn [DmapWrite.dmap_records DmapWrite.filename DmapWrite.dmap_bytearr app]
      in Hr, Hfn, Hba.
    repeat split; try done. apply encode_blocks. by rewrite Hba.
Qed.

(** X17: the constructor of [DmapWrite]. A format that is none of
    the empty one, 'stream' and the file formats raises
    [DmapFileFormatType]. 'stream' and the file formats need records
    ([DmapDataError]), the file formats then a file name
    ([FilenameRequiredError]). When the constructor succeeds the
    instance holds the records and the file name it was given; under the
    empty format nothing is converted nor written; under the others the
    byte array of the instance is what the raw writer returns for the
    records, and it is written to the file of the given name, and to no
    other file, under a file format, and to no file under 'stream'. *)
Theorem init_formats (superdarn_formats : Formats)
    (records : list DmapRecord) (filename fmt : string)
    (fs : gmap string bytes) :
  (fmt ∉ "" :: "stream" :: file_formats →
   DmapWrite.init superdarn_formats records filename fmt fs
   = Err DmapFileFormatType)
  ∧ (fmt ∈ "stream" :: file_formats → records = [] →
     DmapWrite.init superdarn_formats records filename fmt fs
     = Err DmapDataError)
  ∧ (fmt ∈ file_formats → records ≠ [] → filename = "" →
     DmapWrite.init superdarn_formats records filename fmt fs
     = Err FilenameRequiredError)
  ∧ (∀ self fs',
       DmapWrite.init superdarn_formats records filename fmt fs
       = Ok (self, fs') →
       DmapWrite.dmap_records self = records
       ∧ DmapWrite.filename self = filename
       ∧ ((fmt = "" ∧ DmapWrite.dmap_bytearr self = [] ∧ fs' = fs)
          ∨ (DmapWrite.encode records = Ok (DmapWrite.dmap_bytearr self)
             ∧ ((fmt = "stream" ∧ fs' = fs)
                ∨ (fmt ∈ file_formats ∧ filename ≠ ""
                   ∧ fs' = <[filename := DmapWrite.dmap_bytearr self]> fs))))).
Proof.
  assert (Hstream : DmapWrite.init superdarn_formats records filename "stream" fs
            = ('(self, _) ← DmapWrite.write_dmap_stream
                               (DmapWrite.Build records [] filename) [];
               Ok (self, fs))).
  { unfold DmapWrite.init.
    repeat (destruct (decide _) as [?|?]; [try done|]); done. }
  split; [|split; [|split]].
  - unfold file_formats. rewrite !not_elem_of_cons. intros Hn.
    unfold DmapWrite.init.
    repeat (destruct (decide _) as [?|?]; [naive_solver|]). done.
  - intros [->|Hin]%elem_of_cons ->.
    + by rewrite Hstream.
    + destruct (init_file_format superdarn_formats [] filename fmt fs Hin)
        as (w & Hw & ->).
      by apply (init_writer_cases w [] filename fs Hw).
  - intros Hin Hrs Hf.
    destruct (init_file_format superdarn_formats records filename fmt fs Hin)
      as (w & Hw & ->).
    by apply (init_writer_cases w records filename fs Hw).
  - intros self fs' H.
    destruct (decide (fmt = "")) as [->|Hne].
    { unfold DmapWrite.init in H. destruct (decide ("" = "")); [|done].
      injection H as <- <-. split; [done|]. split; [done|]. by left. }
    destruct (decide (fmt = "stream")) as [->|Hns].
    { rewrite Hstream in H. apply bind_Ok in H as ([s b] & Hs & H).
      injection H as <- <-.
      unfold DmapWrite.write_dmap_stream, DmapWrite.empty_record_check,
        DmapWrite.dmap_records_to_bytes in Hs.
      cbn [DmapWrite.dmap_records DmapWrite.set_records
           DmapWrite.dmap_bytearr DmapWrite.filename] in Hs.
      destruct records as [|r rs]; [done|].
      cbn [DmapWrite.is_empty_list DmapWrite.dmap_records] in Hs.
      rewrite bind_ret in Hs. apply bind_Ok in Hs as (s1 & Hl & Hs).
      injection Hs as <- <-.
      destruct (records_to_bytes_loop_records _ _ _ Hl)
        as (Hr & Hfn & blocks & Hb & Hba).
      cbn [DmapWrite.dmap_records DmapWrite.filename DmapWrite.dmap_bytearr
           app] in Hr, Hfn, Hba.
      split; [done|]. split; [done|]. right. split; [|by left].
      apply encode_blocks. by rewrite Hba. }
    destruct (decide (fmt ∈ file_formats)) as [Hin|Hnin].
    + destruct (init_file_format superdarn_formats records filename fmt fs Hin)
        as (w & Hw & Hinit).
      rewrite Hinit in H.
      apply (init_writer_cases w records filename fs Hw) in H
        as (_ & Hf & Hr & Hfn & He & ->).
      split; [done|]. split; [done|]. right. split; [done|]. by right.
    + exfalso. revert H. unfold file_formats in Hnin.
      rewrite !not_elem_of_cons in Hnin. unfold DmapWrite.init.
      repeat (destruct (decide _) as [?|?]; [naive_solver|]). done.
Qed.

Lemma init_formats_witness :
  DmapWrite.init
    (Build_Formats ∅ ∅ ∅ ∅ ∅ ∅ ∅ ∅ ∅ ∅) [sample_record] "" "dmap"
    (∅ : gmap string bytes)
  = Err FilenameRequiredError.
Proof.
  refine (proj1 (proj2 (proj2 (init_formats _ [sample_record] "" "dmap" ∅)))
            _ _ _).
  - unfold file_formats. set_solver.
  - done.
  - done.
Defined.

(** * A negative length in [slist] *)

(** X18: a negative length is not refused in an array called
    "slist". For such an array of a numerical type with one dimension,
    [read_array] takes ALL the bytes that follow the header of the array
    as its value (numpy reads a negative count as the whole buffer) and
    moves the cursor BACKWARDS by the length times the item size; when
    the bytes that follow are not a whole number of items, the
    [ValueError] of numpy comes out. *)
Theorem read_array_negative_slist (pre post : bytes) (ty d record_size size : Z)
    (fmt : string) :
  numeric_type ty → DMAP_DATA_TYPES ty = Some (fmt, size) →
  int32 d → d < 0 → 1 ≤ record_size →
  let buf := pre ++ slist_wire ty d ++ post in
  (blen post mod size = 0 →
   DmapRead.read_array buf record_size (blen pre)
   = Ok (DmapArray.Build "slist" (NdArray (DtFmt fmt) post) ty fmt 1 [d],
         blen pre + 15 + d * size))
  ∧ (blen post mod size ≠ 0 →
     DmapRead.read_array buf record_size (blen pre) = Err PyValueError).
Proof.
  intros Hnum Htab Hd32 Hd Hrs buf.
  destruct (numeric_type_entry _ _ _ Hnum Htab) as (Hns & Hnc & Hnd & Hsize).
  set (nb := DmapWrite.name_bytes "slist").
  assert (Hname : plain_text "slist")
    by (unfold plain_text; vm_compute; repeat constructor).
  set (p2 := pre ++ nb ++ [ty]).
  set (p3 := p2 ++ le_bytes 4 1).
  set (p4 := p3 ++ le_bytes 4 d).
  assert (Hbuf1 : buf = pre ++ nb ++ [ty] ++ (le_bytes 4 1 ++ le_bytes 4 d ++ post))
    by (unfold buf, slist_wire; fold nb; by rewrite <- !app_assoc).
  destruct (read_name_type_at pre (le_bytes 4 1 ++ le_bytes 4 d ++ post)
              "slist" ty Hname) as [H1 H2].
  fold nb in H1, H2. rewrite <- Hbuf1 in H1, H2.
  assert (Hnb : blen nb = 6) by done.
  assert (Hp2 : blen p2 = blen pre + 7).
  { unfold p2. rewrite !blen_app, Hnb. change (blen [ty]) with 1. lia. }
  assert (H3 : DmapRead.read_int buf (blen p2) = Ok (1, blen p2 + 4)).
  { replace buf with (p2 ++ le_bytes 4 1 ++ (le_bytes 4 d ++ post))
      by (rewrite Hbuf1; unfold p2; by rewrite <- !app_assoc).
    apply read_int_le_bytes. unfold int32. lia. }
  assert (Hp3 : blen p3 = blen p2 + 4)
    by (unfold p3; by rewrite blen_app, blen_le_bytes).
  assert (H4 : DmapRead.read_int buf (blen p3) = Ok (d, blen p3 + 4)).
  { replace buf with (p3 ++ le_bytes 4 d ++ post)
      by (rewrite Hbuf1; unfold p3, p2; by rewrite <- !app_assoc).
    by apply read_int_le_bytes. }
  assert (Hp4 : blen p4 = blen p3 + 4)
    by (unfold p4; by rewrite blen_app, blen_le_bytes).
  assert (Hbuf4 : buf = p4 ++ post)
    by (rewrite Hbuf1; unfold p4, p3, p2; by rewrite <- !app_assoc).
  assert (Hrun : DmapRead.read_array buf record_size (blen pre)
            = ('(array_value, cursor) ←
                 DmapRead.read_numerical_array buf fmt d size (blen p4);
               Ok (DmapArray.Build "slist" array_value ty fmt 1 [d], cursor))).
  { unfold DmapRead.read_array.
    rewrite H1, bind_ret. cbv beta iota.
    rewrite Hnb. replace (blen pre + 6) with (blen pre + blen nb) by lia.
    rewrite H2, bind_ret. cbv beta iota.
    unfold DmapRead.check_data_type, DmapRead.type_entry.
    rewrite Htab, !bind_ret. cbv beta iota.
    replace (blen pre + blen nb + 1) with (blen p2) by lia.
    rewrite H3, bind_ret. cbv beta iota.
    rewrite (proj2 (bytes_check_Ok _ _)) by lia. rewrite bind_ret.
    rewrite (proj2 (zero_negative_check_Ok _)) by lia. rewrite bind_ret.
    change (Z.to_nat 1) with 1%nat. cbn [DmapRead.read_ints].
    rewrite <- Hp3, H4, !bind_ret. cbv beta iota. rewrite ?bind_ret.
    cbv zeta. change (reverse [d]) with [d].
    change (negb (blen [d] =? 1)) with false.
    change (bool_decide ("slist" = "slist")) with true.
    rewrite andb_false_r. rewrite bind_ret.
    unfold DmapRead.shape_exceeds. cbn [existsb].
    destruct (Z.leb_spec record_size d); [lia|]. cbn [orb]. rewrite bind_ret.
    assert (DmapRead.total_cells [d] = d) as ->
      by (unfold DmapRead.total_cells; cbn [foldl]; lia).
    rewrite (proj2 (bytes_check_Ok _ _)) by lia. rewrite bind_ret.
    rewrite (proj2 (bytes_check_Ok _ _)) by nia. rewrite bind_ret.
    rewrite (bool_decide_eq_false_2 (fmt = "s")) by done.
    rewrite (bool_decide_eq_false_2 (fmt = "c")) by done. cbn [orb].
    destruct (Z.eqb_spec ty DMAP); [done|].
    by rewrite <- Hp4. }
  rewrite Hrun. unfold DmapRead.read_numerical_array, np_frombuffer.
  pose proof (blen_nonneg p4). pose proof (blen_nonneg post).
  rewrite Hbuf4, !blen_app.
  destruct (Z.ltb_spec (blen p4) 0); [lia|].
  destruct (Z.ltb_spec (blen p4 + blen post) (blen p4)); [lia|]. cbn [orb].
  destruct (Z.ltb_spec d 0); [|lia].
  replace (blen p4 + blen post - blen p4) with (blen post) by lia.
  split; intros Hmod.
  - rewrite Hmod. cbn [Z.eqb negb]. rewrite !bind_ret. cbv beta iota.
    rewrite drop_blen_app. do 2 f_equal. lia.
  - destruct (Z.eqb_spec (blen post mod size) 0); [done|]. done.
Qed.

Lemma read_array_negative_slist_witness :
  DmapRead.read_array ([] ++ slist_wire SHORT (-3) ++ [5; 0; 6; 0]) 16 (blen [])
  = Ok (DmapArray.Build "slist" (NdArray (DtFmt "h") [5; 0; 6; 0]) SHORT "h"
          1 [-3],
        blen [] + 15 + -3 * 2).
Proof.
  refine (proj1 (read_array_negative_slist [] [5; 0; 6; 0] SHORT (-3) 16 2 "h"
                   _ _ _ _ _) _).
  - unfold numeric_type. set_solver.
  - reflexivity.
  - unfold int32. lia.
  - lia.
  - lia.
  - reflexivity.
Defined.


(** * The dimension lengths of an array *)







(** * The records that the stream writers encode *)

Lemma decode_record_blocks (records : list DmapRecord) (b : bytes) :
  records ≠ [] → Forall record_exact records →
  record_blocks records = Ok b →
  DmapRead.decode b = Ok (reverse_shapes <$> records).
Proof.
  intros Hne Hex Hb. unfold DmapRead.decode, DmapRead.init.
  assert (Hlen : 16 ≤ blen b).
  { destruct records as [|r records]; [done|]. cbn [record_blocks] in Hb.
    apply bind_Ok in Hb as (b1 & Hb1 & H).
    apply bind_Ok in H as (bs & _ & H). injection H as <-.
    destruct (record_block_header r b1 [] [] Hb1) as (_ & _ & _ & Hl & _).
    rewrite blen_app. pose proof (blen_nonneg bs). lia. }
  destruct (Z.eqb_spec (blen b) 0); [lia|]. rewrite bind_ret. cbv beta iota.
  unfold DmapRead.read_records, DmapRead.dmap_end_bytes.
  pose proof (read_records_loop_at records b Hex Hb [] []
                (Z.to_nat (blen b - 0)) ltac:(lia)) as Hl.
  cbn [app] in Hl. change (blen []) with 0 in Hl. rewrite Hl, bind_ret.
  cbv beta iota. rewrite (proj2 (bytes_check_Ok _ _)) by lia.
  by rewrite bind_ret.
Qed.

Lemma set_records_same (self : DmapWrite.t) :
  DmapWrite.set_records self (DmapWrite.dmap_records self) = self.
Proof. by destruct self. Qed.

(** A stream writer that runs the loop of the raw writer on [written],
    after checks that hold exactly when [checked] does, encodes
    [written]. *)
Lemma writes_records_intro (run : result (DmapWrite.t * bytes))
    (self : DmapWrite.t) (written : list DmapRecord) (checked : Prop) :
  (written = [] → run = Err DmapDataError) →
  (written ≠ [] → ∀ self' b,
     run = Ok (self', b)
     ↔ checked
       ∧ DmapWrite.records_to_bytes_loop
           (DmapWrite.set_records self written) written = Ok self'
       ∧ b = DmapWrite.dmap_bytearr self') →
  writes_records run self written checked.
Proof.
  intros Hempty Hrun. split; [|split; [|done]].
  - intros self' b H.
    destruct written as [|r written]; [by rewrite Hempty in H|].
    apply Hrun in H as (Hc & Hloop & ->); [|done]. split; [done|].
    apply records_to_bytes_loop_records in Hloop as (Hrec & _ & blocks & Hb & Hbytes).
    split; [done|]. exists blocks. split; [done|]. split; [done|].
    intros Hnil Hex. rewrite Hbytes. cbn [DmapWrite.set_records DmapWrite.dmap_bytearr].
    rewrite Hnil. cbn [app]. by apply decode_record_blocks.
  - intros Hne Hc blocks Hb.
    exists (DmapWrite.extend (DmapWrite.set_records self written) blocks).
    apply Hrun; [done|]. split; [done|]. split; [|done].
    by rewrite records_to_bytes_loop_blocks, Hb, bind_ret.
Qed.

Lemma write_dmap_stream_writes (self : DmapWrite.t)
    (records written : list DmapRecord) :
  written = (if DmapWrite.is_empty_list (DmapWrite.dmap_records self)
             then records else DmapWrite.dmap_records self) →
  writes_records (DmapWrite.write_dmap_stream self records) self written True.
Proof.
  intros Hw.
  assert (Hself : (if DmapWrite.is_empty_list (DmapWrite.dmap_records self)
                   then DmapWrite.set_records self records else self)
                  = DmapWrite.set_records self written).
  { rewrite Hw. destruct (DmapWrite.is_empty_list _); [done|].
    by rewrite set_records_same. }
  unfold DmapWrite.write_dmap_stream. rewrite Hself.
  unfold DmapWrite.empty_record_check, DmapWrite.dmap_records_to_bytes.
  cbn [DmapWrite.set_records DmapWrite.dmap_records].
  apply writes_records_intro.
  - by intros ->.
  - intros Hne self' b. destruct written as [|r written]; [done|].
    cbn [DmapWrite.is_empty_list]. rewrite bind_ret. split.
    + intros H. apply bind_Ok in H as (s1 & Hs1 & H). injection H as <- <-.
      done.
    + intros (_ & Hloop & ->). cbn [DmapWrite.set_records] in Hloop.
      by rewrite Hloop, bind_ret.
Qed.

Lemma write_product_stream_writes (l : list (gmap string string))
    (self : DmapWrite.t) (data written : list DmapRecord) :
  written = (if DmapWrite.is_empty_list data
             then DmapWrite.dmap_records self else data) →
  writes_records (DmapWrite.write_product_stream l self data) self written
    (∀ i record, written !! i = Some record →
       field_checks l record i = Ok ()).
Proof.
  intros Hw.
  assert (Hself : (if negb (DmapWrite.is_empty_list data)
                   then DmapWrite.set_records self data else self)
                  = DmapWrite.set_records self written).
  { rewrite Hw. destruct (DmapWrite.is_empty_list _); [|done].
    by rewrite set_records_same. }
  unfold DmapWrite.write_product_stream. rewrite Hself.
  unfold DmapWrite.empty_record_check,
    DmapWrite.superDARN_file_structure_to_bytes.
  cbn [DmapWrite.set_records DmapWrite.dmap_records].
  apply writes_records_intro.
  - by intros ->.
  - intros Hne self' b. destruct written as [|r written]; [done|].
    cbn [DmapWrite.is_empty_list]. rewrite bind_ret. split.
    + intros H. apply bind_Ok in H as (s1 & Hs1 & H). injection H as <- <-.
      apply file_structure_loop_checks in Hs1 as [Hc Hloop]. done.
    + intros (Hc & Hloop & ->).
      pose proof (proj2 (file_structure_loop_checks l (r :: written)
                    (DmapWrite.set_records self (r :: written)) self' 0)
                    (conj Hc Hloop)) as Hs1.
      by rewrite Hs1, bind_ret.
Qed.

Lemma product_stream_writers_shape (superdarn_formats : Formats)
    (w : DmapWrite.t → list DmapRecord → result (DmapWrite.t * bytes))
    (l : list (gmap string string)) :
  (w, l) ∈ product_stream_writers superdarn_formats →
  w = DmapWrite.write_product_stream l.
Proof.
  unfold product_stream_writers. intros Hin.
  repeat (apply elem_of_cons in Hin as [[= -> ->]|Hin]; [done|]).
  by apply elem_of_nil in Hin.
Qed.

(** C10: the raw stream writer encodes the records that the instance
    holds and ignores its argument when the instance holds any: what it
    returns is the byte array of the instance followed by the blocks of
    these records, which the reader decodes to them, and every other
    argument gives the same result. It encodes its argument only when
    the instance holds no record. The product stream writers
    ([write_rawacf_stream] and the three others) do the opposite: an
    argument that is not empty replaces the records of the instance and
    is what they encode, after the field checks of their format, while
    with an empty argument they encode the records of the instance. *)
Theorem write_stream_records (superdarn_formats : Formats)
    (self : DmapWrite.t) (records : list DmapRecord) :
  (DmapWrite.dmap_records self ≠ [] →
     writes_records (DmapWrite.write_dmap_stream self records) self
       (DmapWrite.dmap_records self) True
     ∧ (∀ records',
          DmapWrite.write_dmap_stream self records'
          = DmapWrite.write_dmap_stream self records)
     ∧ DmapWrite.write_dmap_stream self records
       = (self' ← DmapWrite.dmap_records_to_bytes self;
          Ok (self', DmapWrite.dmap_bytearr self')))
  ∧ (DmapWrite.dmap_records self = [] →
     writes_records (DmapWrite.write_dmap_stream self records) self
       records True
     ∧ DmapWrite.write_dmap_stream self records
       = (DmapWrite.empty_record_check (DmapWrite.set_records self records);;
          self' ← DmapWrite.dmap_records_to_bytes
                    (DmapWrite.set_records self records);
          Ok (self', DmapWrite.dmap_bytearr self')))
  ∧ (∀ w file_struct_list,
       (w, file_struct_list) ∈ product_stream_writers superdarn_formats →
       (records ≠ [] →
          writes_records (w self records) self records
            (∀ i record, records !! i = Some record →
               field_checks file_struct_list record i = Ok ())
          ∧ w self records
            = (self' ← DmapWrite.superDARN_file_structure_to_bytes
                         file_struct_list
                         (DmapWrite.set_records self records);
               Ok (self', DmapWrite.dmap_bytearr self')))
       ∧ (records = [] →
          writes_records (w self records) self (DmapWrite.dmap_records self)
            (∀ i record, DmapWrite.dmap_records self !! i = Some record →
               field_checks file_struct_list record i = Ok ()))).
Proof.
  split; [|split].
  - intros Hne. split; [|split].
    + apply write_dmap_stream_writes.
      by destruct (DmapWrite.dmap_records self).
    + intros records'. unfold DmapWrite.write_dmap_stream.
      by destruct (DmapWrite.dmap_records self).
    + unfold DmapWrite.write_dmap_stream, DmapWrite.empty_record_check.
      destruct (DmapWrite.dmap_records self) eqn:E; [done|].
      simpl. by rewrite E.
  - intros Heq. split.
    + apply write_dmap_stream_writes. by rewrite Heq.
    + unfold DmapWrite.write_dmap_stream. by rewrite Heq.
  - intros w l Hin. apply product_stream_writers_shape in Hin as ->. split.
    + intros Hne. split.
      * apply write_product_stream_writes. by destruct records.
      * unfold DmapWrite.write_product_stream, DmapWrite.empty_record_check.
        destruct records; done.
    + intros ->. by apply write_product_stream_writes.
Qed.

Lemma write_stream_records_witness :
  DmapWrite.dmap_records (DmapWrite.Build [sample_record] [] "") ≠ []
  ∧ ∃ self',
      DmapWrite.write_dmap_stream
        (DmapWrite.Build [sample_record] [] "") [stid_record]
      = Ok (self', sample_bytes).
Proof.
  split; [discriminate|].
  refine (proj1 (proj2 (proj1 (proj1
            (write_stream_records (Build_Formats ∅ ∅ ∅ ∅ ∅ ∅ ∅ ∅ ∅ ∅)
               (DmapWrite.Build [sample_record] [] "") [stid_record])
            _))) _ I sample_bytes _).
  - discriminate.
  - discriminate.
  - vm_compute. reflexivity.
Defined.
